(** * youtube-defi-monitor: virality scoring and fact verification

    A shallow embedding of the decision logic of the repository:

    - [src/monitor/virality_checker.py]  (class [ViralityChecker]),
    - [src/factcheck/verifier.py]        (class [FactVerifier]),
    - [src/factcheck/claim_extractor.py] (the post-filter of
      [ClaimExtractor.extract_claims]).

    Python [int] is [Z].  Python [float] is IEEE 754 binary64, taken from
    the executable specification [SpecFloat] of the standard library
    (precision 53, exponent bound 1024).  Python [str] is a list of code
    points.  Exceptions are values of [result]. *)

From Stdlib Require Import ZArith Lia List Bool String Ascii.
From Stdlib Require Import Floats.SpecFloat.
Import ListNotations.
Open Scope Z_scope.

(* ================================================================== *)
(** * Part I: definitions *)
(* ================================================================== *)

(** ** Exceptions *)

(** The exception classes the modelled code can raise. *)
Inductive exn : Type :=
  | ZeroDivisionError
  | OverflowError
  | TypeError
  | ValueError
  | AttributeError.

(** Outcome of a Python expression: a value, or a raised exception. *)
Inductive result (A : Type) : Type :=
  | Ok (a : A)
  | Raise (e : exn).
Arguments Ok {A} a.
Arguments Raise {A} e.

Definition bind {A B : Type} (m : result A) (f : A -> result B) : result B :=
  match m with
  | Ok a => f a
  | Raise e => Raise e
  end.

Declare Scope py_scope.
Delimit Scope py_scope with py.
Notation "x <- m ;; k" := (bind m (fun x => k))
  (at level 61, m at next level, right associativity) : py_scope.

(** ** Python floats: binary64 *)

Definition prec : Z := 53.
Definition emax : Z := 1024.

Definition float : Type := spec_float.

(** The binary64 number nearest to the rational [n / d] (ties to even).
    The division of [SpecFloat] shifts the dividend until the quotient has
    at least [prec] bits and keeps the position of the remainder, so it
    rounds the exact quotient of two integers of any size once. *)
Definition float_of_ratio (n : Z) (d : positive) : float :=
  match n with
  | Z0 => S754_zero false
  | Zpos p => SFdiv prec emax (S754_finite false p 0) (S754_finite false d 0)
  | Zneg p => SFdiv prec emax (S754_finite true p 0) (S754_finite false d 0)
  end.

(** A decimal literal [n * 10^-k] of the source, such as [0.8] or [1e9]. *)
Definition decimal (n : Z) (k : nat) : float :=
  float_of_ratio n (Z.to_pos (10 ^ Z.of_nat k)).

Definition fmul (x y : float) : float := SFmul prec emax x y.
Definition fadd (x y : float) : float := SFadd prec emax x y.
Definition fdiv (x y : float) : float := SFdiv prec emax x y.

Arguments float_of_ratio : simpl never.
Arguments decimal : simpl never.
Arguments fmul : simpl never.
Arguments fadd : simpl never.
Arguments fdiv : simpl never.

(** [x <= y] and [x >= y] on floats; both are false when a NaN is involved. *)
Definition fle (x y : float) : bool := SFleb x y.
Definition fge (x y : float) : bool := SFleb y x.

Definition is_zero (x : float) : bool :=
  match x with
  | S754_zero _ => true
  | _ => false
  end.

(** Truth value of a float in [if x:]: false exactly for [0.0] and [-0.0]. *)
Definition float_truthy (x : float) : bool := negb (is_zero x).

(** [x / y] on floats: raises on a zero divisor, otherwise the IEEE
    quotient (infinities and NaN included, without exception). *)
Definition float_truediv (x y : float) : result float :=
  if is_zero y then Raise ZeroDivisionError else Ok (fdiv x y).

(** [a / b] on ints: the correctly rounded exact quotient; a zero divisor
    raises [ZeroDivisionError] and a quotient beyond the binary64 range
    raises [OverflowError]. *)
Definition int_truediv (a b : Z) : result float :=
  match b with
  | Z0 => Raise ZeroDivisionError
  | _ =>
      match a with
      | Z0 => Ok (S754_zero (b <? 0))
      | _ =>
          match fdiv (S754_finite (a <? 0) (Z.to_pos (Z.abs a)) 0)
                     (S754_finite (b <? 0) (Z.to_pos (Z.abs b)) 0) with
          | S754_infinity _ => Raise OverflowError
          | q => Ok q
          end
      end
  end.

(** Nearest integer to [n / d] for [0 <= n] and [0 < d], ties to even. *)
Definition round_half_even_div (n d : Z) : Z :=
  let q := n / d in
  match 2 * (n mod d) ?= d with
  | Lt => q
  | Gt => q + 1
  | Eq => if Z.even q then q else q + 1
  end.

(** The integer nearest to [1000 * m * 2^e], ties to even. *)
Definition thousandths (m : positive) (e : Z) : Z :=
  match e with
  | Zneg p => round_half_even_div (Zpos m * 1000) (2 ^ Zpos p)
  | _ => Zpos m * 1000 * 2 ^ e
  end.

(** [round(x, 3)]: the exact value of [x] is rounded to a multiple of
    [1/1000] (ties to even, as the decimal conversion does), and that
    decimal is converted back to the nearest binary64.  Zeros, infinities
    and NaN round to themselves; the sign is kept. *)
Definition py_round3 (x : float) : float :=
  match x with
  | S754_finite s m e =>
      match thousandths m e with
      | Zpos k => fdiv (S754_finite s k 0) (S754_finite false 1000 0)
      | _ => S754_zero s
      end
  | _ => x
  end.

(** ** Virality checker ([src/monitor/virality_checker.py]) *)

(** [config.ViralityThreshold]: [max_subs: Optional[int] = None],
    [ratio: float]. *)
Record ViralityThreshold : Type := {
  max_subs : option Z;
  ratio : float
}.

(** [config.ViralityThresholds]. *)
Record ViralityThresholds : Type := {
  small : ViralityThreshold;
  medium : ViralityThreshold;
  large : ViralityThreshold
}.

Record ViralityResult : Type := {
  is_viral : bool;
  score : float;
  threshold_used : float;
  channel_category : string;
  views : Z;
  subscribers : Z
}.

(** [n <= bound] where [bound] may be [None]: comparing an int with
    [None] raises [TypeError]. *)
Definition int_le_optional (n : Z) (bound : option Z) : result bool :=
  match bound with
  | Some b => Ok (n <=? b)
  | None => Raise TypeError
  end.

Section ViralityChecker.
Open Scope py_scope.

(** [self.thresholds] *)
Variable thresholds : ViralityThresholds.

Definition get_channel_category (subscribers : Z) : result string :=
  is_small <- int_le_optional subscribers (max_subs (small thresholds)) ;;
  if is_small then Ok "small"%string
  else
    is_medium <- int_le_optional subscribers (max_subs (medium thresholds)) ;;
    if is_medium then Ok "medium"%string
    else Ok "large"%string.

Definition get_threshold_ratio (category : string) : float :=
  if String.eqb category "small" then ratio (small thresholds)
  else if String.eqb category "medium" then ratio (medium thresholds)
  else ratio (large thresholds).

Definition check_virality (views subscribers : Z) : result ViralityResult :=
  if subscribers <=? 0 then
    Ok {| is_viral := false;
          score := S754_zero false;
          threshold_used := S754_zero false;
          channel_category := "unknown";
          views := views;
          subscribers := subscribers |}
  else
    category <- get_channel_category subscribers ;;
    let threshold_ratio := get_threshold_ratio category in
    score <- int_truediv views subscribers ;;
    let is_viral := fge score threshold_ratio in
    Ok {| is_viral := is_viral;
          score := py_round3 score;
          threshold_used := threshold_ratio;
          channel_category := category;
          views := views;
          subscribers := subscribers |}.

End ViralityChecker.

(** The thresholds of the class docstring: small up to 5K subscribers at
    1.5x, medium up to 50K at 1.0x, large at 0.3x. *)
Definition docstring_thresholds : ViralityThresholds :=
  {| small := {| max_subs := Some 5000; ratio := decimal 15 1 |};
     medium := {| max_subs := Some 50000; ratio := decimal 10 1 |};
     large := {| max_subs := None; ratio := decimal 3 1 |} |}.

(** ** Python strings and the [re] fragment used by the verifier *)

(** A code point. *)
Definition char : Type := N.

(** Python [str]: a sequence of code points. *)
Definition str : Type := list char.

(** An ASCII literal of the source as a [str]. *)
Definition str_of (s : string) : str :=
  map N_of_ascii (list_ascii_of_string s).

Definition str_eqb (a b : str) : bool :=
  if list_eq_dec N.eq_dec a b then true else false.

(** The part of the interpreter's Unicode tables the code relies on:
    [str.lower], the decimal value of a character of category Nd (what
    [\d] matches and [float] reads as a digit), and the white space class
    of [\s]. *)
Record Unicode : Type := {
  lower : str -> str;
  digit_value : char -> option Z;
  is_space : char -> bool
}.

Definition ascii_lower_char (c : char) : char :=
  if ((65 <=? c) && (c <=? 90))%N then (c + 32)%N else c.

Definition ascii_digit_value (c : char) : option Z :=
  if ((48 <=? c) && (c <=? 57))%N then Some (Z.of_N c - 48) else None.

Definition ascii_is_space (c : char) : bool :=
  (((9 <=? c) && (c <=? 13)) || ((28 <=? c) && (c <=? 32)))%N.

(** The tables restricted to ASCII; they agree with the interpreter's on
    ASCII text. *)
Definition ascii_unicode : Unicode :=
  {| lower := map ascii_lower_char;
     digit_value := ascii_digit_value;
     is_space := ascii_is_space |}.

(** [s.replace(c, "")] for a one-character [c]. *)
Definition remove_char (c : char) (s : str) : str :=
  filter (fun x => negb (N.eqb x c)) s.

Fixpoint strip_prefix (l s : str) : option str :=
  match l, s with
  | [], _ => Some s
  | a :: l', b :: s' => if N.eqb a b then strip_prefix l' s' else None
  | _ :: _, [] => None
  end.

(** The regular expressions of the source: literals, the optional and
    alternative operators, greedy repetition of a character class, and
    the capturing group. *)
Inductive regex : Type :=
  | Lit (l : str)
  | Opt (r : regex)
  | Star (p : char -> bool)
  | Plus (p : char -> bool)
  | Seq (r1 r2 : regex)
  | Alt (r1 r2 : regex)
  | Group (r : regex).

Section Matcher.
Context {A : Type}.

(** Greedy [p*] with backtracking: the longest run first, then shorter
    ones, until the continuation succeeds. *)
Fixpoint star_match (p : char -> bool) (s : str) (k : str -> option A)
  : option A :=
  match s with
  | c :: s' =>
      if p c then
        match star_match p s' k with
        | Some a => Some a
        | None => k s
        end
      else k s
  | [] => k s
  end.

(** Backtracking matcher in continuation style: [g] is the text of
    group 1 so far, [k] matches the rest of the pattern.  Alternatives
    are tried left to right, optional parts are tried present first. *)
Fixpoint rmatch (r : regex) (s : str) (g : option str)
  (k : str -> option str -> option A) : option A :=
  match r with
  | Lit l =>
      match strip_prefix l s with
      | Some s' => k s' g
      | None => None
      end
  | Opt r1 =>
      match rmatch r1 s g k with
      | Some a => Some a
      | None => k s g
      end
  | Star p => star_match p s (fun s' => k s' g)
  | Plus p =>
      match s with
      | c :: s' => if p c then star_match p s' (fun s'' => k s'' g) else None
      | [] => None
      end
  | Seq r1 r2 => rmatch r1 s g (fun s' g' => rmatch r2 s' g' k)
  | Alt r1 r2 =>
      match rmatch r1 s g k with
      | Some a => Some a
      | None => rmatch r2 s g k
      end
  | Group r1 =>
      rmatch r1 s g
        (fun s' _ => k s' (Some (firstn (List.length s - List.length s') s)))
  end.
End Matcher.

(** The strings a pattern can match, with the text of group 1 before
    ([g]) and after ([g']) the match: the declarative reading of the
    patterns, against which the matcher is checked. *)
Fixpoint matches (r : regex) (s : str) (g g' : option str) : Prop :=
  match r with
  | Lit l => s = l /\ g' = g
  | Opt r1 => (s = [] /\ g' = g) \/ matches r1 s g g'
  | Star p => Forall (fun c => p c = true) s /\ g' = g
  | Plus p => s <> [] /\ Forall (fun c => p c = true) s /\ g' = g
  | Seq r1 r2 =>
      exists s1 s2 gm, s = s1 ++ s2 /\ matches r1 s1 g gm /\ matches r2 s2 gm g'
  | Alt r1 r2 => matches r1 s g g' \/ matches r2 s g g'
  | Group r1 => (exists gi, matches r1 s g gi) /\ g' = Some s
  end.

(** A match of [r] starting at the head of [s]; the value is group 1. *)
Definition match_here (r : regex) (s : str) : option (option str) :=
  rmatch r s None (fun _ g => Some g).

(** [re.search(r, s)]: the match at the leftmost starting position. *)
Fixpoint re_search (r : regex) (s : str) : option (option str) :=
  match match_here r s with
  | Some g => Some g
  | None =>
      match s with
      | [] => None
      | _ :: s' => re_search r s'
      end
  end.

(** [match.group(1)] of [re.search(r, s)], when there is a match. *)
Definition search_group1 (r : regex) (s : str) : option str :=
  match re_search r s with
  | Some (Some g) => Some g
  | Some None => Some []
  | None => None
  end.

(** Cyrillic literals of the patterns. *)
Definition mlrd : str := [1084; 1083; 1088; 1076]%N.
Definition mln : str := [1084; 1083; 1085]%N.
Definition tys : str := [1090; 1099; 1089]%N.
Definition protsent : str := [1087; 1088; 1086; 1094; 1077; 1085; 1090]%N.

Definition dollar : char := 36%N.
Definition dot : char := 46%N.
Definition comma : char := 44%N.
Definition space : char := 32%N.
Definition percent_sign : char := 37%N.

Section Extractors.
Variable U : Unicode.

(** [\d] *)
Definition is_digit (c : char) : bool :=
  match digit_value U c with
  | Some _ => true
  | None => false
  end.

(** [[\d.]] *)
Definition digit_or_dot (c : char) : bool := is_digit c || N.eqb c dot.

(** [\$?([\d.]+)\s*(?:u1|u2|...)]; with no unit, [\$?([\d.]+)]. *)
Fixpoint alternatives (units : list str) : regex :=
  match units with
  | [] => Lit []
  | [u] => Lit u
  | u :: rest => Alt (Lit u) (alternatives rest)
  end.

Definition number_pattern (units : list str) : regex :=
  match units with
  | [] => Seq (Opt (Lit [dollar])) (Group (Plus digit_or_dot))
  | _ =>
      Seq (Opt (Lit [dollar]))
        (Seq (Group (Plus digit_or_dot))
           (Seq (Star (is_space U)) (alternatives units)))
  end.

(** The unit words of the three multiplier patterns. *)
Definition billion_units : list str := [str_of "billion"; mlrd].
Definition million_units : list str := [str_of "million"; mln; str_of "m"].
Definition thousand_units : list str := [str_of "thousand"; tys; str_of "k"].

(** [patterns] of [_extract_number], in the order of the source. *)
Definition number_patterns : list (regex * float) :=
  [ (number_pattern billion_units, decimal 1000000000 0);
    (number_pattern million_units, decimal 1000000 0);
    (number_pattern thousand_units, decimal 1000 0);
    (number_pattern [], decimal 1 0) ].

(** The value of a run of decimal digits, most significant first. *)
Fixpoint digits_value (s : str) (acc : Z) : option Z :=
  match s with
  | [] => Some acc
  | c :: s' =>
      match digit_value U c with
      | Some d => digits_value s' (10 * acc + d)
      | None => None
      end
  end.

Fixpoint split_at_dot (s : str) : str * option str :=
  match s with
  | [] => ([], None)
  | c :: s' =>
      if N.eqb c dot then ([], Some s')
      else let (a, b) := split_at_dot s' in (c :: a, b)
  end.

(** [float(g)] for a string [g] of digits and dots: digits with at most
    one dot and at least one digit denote the nearest binary64 (an
    infinity when too large); anything else is a [ValueError], here
    [None]. *)
Definition float_of_digits (g : str) : option float :=
  let (int_part, rest) := split_at_dot g in
  let frac_part := match rest with Some f => f | None => [] end in
  match int_part ++ frac_part with
  | [] => None
  | ds =>
      match digits_value ds 0 with
      | Some n =>
          Some (float_of_ratio n (Z.to_pos (10 ^ Z.of_nat (List.length frac_part))))
      | None => None
      end
  end.

(** The loop [for pattern, multiplier in patterns] with its
    [try: return ... except ValueError: continue]. *)
Fixpoint first_parsed (ps : list (regex * float)) (text : str)
  : option float :=
  match ps with
  | [] => None
  | (pattern, multiplier) :: rest =>
      match search_group1 pattern text with
      | Some g =>
          match float_of_digits g with
          | Some x => Some (fmul x multiplier)
          | None => first_parsed rest text
          end
      | None => first_parsed rest text
      end
  end.

(** A pattern that decides nothing on [text]: it does not match, or the
    number it matches is malformed. *)
Definition skipped (p : regex * float) (text : str) : Prop :=
  match search_group1 (fst p) text with
  | Some g => float_of_digits g = None
  | None => True
  end.

(** The number [g] sits in [text], after an optional dollar sign, and is
    followed by what the pattern of [units] asks for: nothing for the
    bare pattern, otherwise optional white space and one of the units. *)
Definition attached (units : list str) (g : str) (text : str) : Prop :=
  g <> [] /\ Forall (fun c => digit_or_dot c = true) g /\
  exists before ws u after,
    text = before ++ g ++ ws ++ u ++ after /\
    Forall (fun c => is_space U c = true) ws /\
    match units with
    | [] => ws = [] /\ u = []
    | _ => In u units
    end.

(** The reading "the first matching pattern wins": the first pattern
    that matches decides, whether or not its number parses. *)
Fixpoint first_match_wins (ps : list (regex * float)) (text : str)
  : option float :=
  match ps with
  | [] => None
  | (pattern, multiplier) :: rest =>
      match search_group1 pattern text with
      | Some g =>
          match float_of_digits g with
          | Some x => Some (fmul x multiplier)
          | None => None
          end
      | None => first_match_wins rest text
      end
  end.

(** [text.lower().replace(",", "").replace(" ", "")] *)
Definition normalize (text : str) : str :=
  remove_char space (remove_char comma (lower U text)).

Definition _extract_number (text : str) : option float :=
  first_parsed number_patterns (normalize text).

(** [([\d.]+)\s*word] *)
Definition percent_pattern (word : str) : regex :=
  Seq (Group (Plus digit_or_dot)) (Seq (Star (is_space U)) (Lit word)).

(** [patterns] of [_extract_percentage], in the order of the source. *)
Definition percent_patterns : list regex :=
  [ percent_pattern [percent_sign];
    percent_pattern protsent;
    percent_pattern (str_of "percent") ].

Fixpoint first_parsed_plain (ps : list regex) (text : str) : option float :=
  match ps with
  | [] => None
  | pattern :: rest =>
      match search_group1 pattern text with
      | Some g =>
          match float_of_digits g with
          | Some x => Some x
          | None => first_parsed_plain rest text
          end
      | None => first_parsed_plain rest text
      end
  end.

Definition _extract_percentage (text : str) : option float :=
  first_parsed_plain percent_patterns (lower U text).

End Extractors.

(** ** Python values read from JSON *)

(** What [json.loads] produces.  A [dict] is a list of key-value pairs
    with distinct keys. *)
#[local] Set Warnings "-register-all".
Inductive json : Type :=
  | JNull
  | JBool (b : bool)
  | JInt (n : Z)
  | JFloat (x : float)
  | JStr (s : str)
  | JArr (l : list json)
  | JObj (kv : list (str * json)).

Definition dict : Type := list (str * json).

Fixpoint dict_lookup (d : dict) (key : str) : option json :=
  match d with
  | [] => None
  | (k, v) :: rest => if str_eqb k key then Some v else dict_lookup rest key
  end.

(** [d.get(key, default)] *)
Definition dict_get (d : dict) (key : str) (default : json) : json :=
  match dict_lookup d key with
  | Some v => v
  | None => default
  end.

(** Truth value of an object in [if x:] and [x and y]. *)
Definition json_truthy (j : json) : bool :=
  match j with
  | JNull => false
  | JBool b => b
  | JInt n => negb (n =? 0)
  | JFloat x => float_truthy x
  | JStr s => match s with [] => false | _ => true end
  | JArr l => match l with [] => false | _ => true end
  | JObj kv => match kv with [] => false | _ => true end
  end.

(** [x == "literal"] for a string literal. *)
Definition json_is_str (j : json) (lit : string) : bool :=
  match j with
  | JStr s => str_eqb s (str_of lit)
  | _ => false
  end.

(** Lists and dicts cannot be members of a set. *)
Definition hashable (j : json) : bool :=
  match j with
  | JArr _ | JObj _ => false
  | _ => true
  end.

(** [for x in j]: the elements of a list, the characters of a string,
    the keys of a dict; the other values are not iterable. *)
Definition iterate (j : json) : result (list json) :=
  match j with
  | JArr l => Ok l
  | JStr s => Ok (map (fun c => JStr [c]) s)
  | JObj kv => Ok (map (fun p => JStr (fst p)) kv)
  | _ => Raise TypeError
  end.

(** [x[:50]], evaluated for a log line: defined on strings and lists. *)
Definition sliceable (j : json) : result unit :=
  match j with
  | JStr _ | JArr _ => Ok tt
  | _ => Raise TypeError
  end.

(** Python numbers: [int] (with [bool]) and [float]. *)
Inductive number : Type :=
  | NInt (n : Z)
  | NFloat (x : float).

(** [float(n)] for an int: the nearest binary64, [OverflowError] beyond
    the range. *)
Definition float_of_int (n : Z) : result float :=
  match float_of_ratio n 1 with
  | S754_infinity _ => Raise OverflowError
  | x => Ok x
  end.

Definition float_of_number (a : number) : result float :=
  match a with
  | NInt n => float_of_int n
  | NFloat x => Ok x
  end.

(** The operand of an arithmetic operator: numbers only. *)
Definition as_number (j : json) : result number :=
  match j with
  | JInt n => Ok (NInt n)
  | JBool b => Ok (NInt (if b then 1 else 0))
  | JFloat x => Ok (NFloat x)
  | _ => Raise TypeError
  end.

(** The operand of a format specification ending in [f]: a string is
    refused with [ValueError], other non-numbers with [TypeError], and
    an int is converted to [float] first, which raises [OverflowError]
    beyond the range. *)
Definition as_formatted (j : json) : result number :=
  match j with
  | JStr _ => Raise ValueError
  | JInt n =>
      match float_of_int n with
      | Ok _ => Ok (NInt n)
      | Raise e => Raise e
      end
  | _ => as_number j
  end.

Section Arithmetic.
Open Scope py_scope.

(** [a + b] *)
Definition number_add (a b : number) : result number :=
  match a, b with
  | NInt m, NInt n => Ok (NInt (m + n))
  | _, _ =>
      x <- float_of_number a ;;
      y <- float_of_number b ;;
      Ok (NFloat (fadd x y))
  end.

(** [a / y] for a float [y] *)
Definition number_div_float (a : number) (y : float) : result float :=
  x <- float_of_number a ;;
  float_truediv x y.

(** [a / n] for an int [n] *)
Definition number_div_int (a : number) (n : Z) : result float :=
  match a with
  | NInt m => int_truediv m n
  | NFloat x => y <- float_of_int n ;; float_truediv x y
  end.

(** [j / y] for any object [j] and a float [y] *)
Definition json_div_float (j : json) (y : float) : result float :=
  a <- as_number j ;;
  number_div_float a y.

(** [sum(js)], starting from the int [0] *)
Fixpoint sum_from (acc : number) (js : list json) : result number :=
  match js with
  | [] => Ok acc
  | j :: rest =>
      a <- as_number j ;;
      acc' <- number_add acc a ;;
      sum_from acc' rest
  end.
End Arithmetic.

(** ** Calls to the outside world

    A computation reads answers of external services from a world and
    may raise. *)
Section IO.
Variable World : Type.

Definition io (A : Type) : Type := World -> result A * World.

Definition ret {A : Type} (a : A) : io A := fun w => (Ok a, w).

Definition lift {A : Type} (r : result A) : io A := fun w => (r, w).

(** [await service(...)] for a service that does not raise *)
Definition call {A : Type} (service : World -> A * World) : io A :=
  fun w => let (a, w') := service w in (Ok a, w').

Definition io_bind {A B : Type} (m : io A) (f : A -> io B) : io B :=
  fun w =>
    match m w with
    | (Ok a, w') => f a w'
    | (Raise e, w') => (Raise e, w')
    end.
End IO.
Arguments ret {World A} a.
Arguments lift {World A} r.
Arguments call {World A} service.
Arguments io_bind {World A B} m f.

(** A loop [for entity in entities] that asks [service] for each entity
    and stops at the first answer: [first_answer service ents w entity d
    w'] says that, from the world [w], the entities before [entity]
    got no answer, [entity] got the answer [d], and the world is then
    [w']. *)
Inductive first_answer {World D : Type}
  (service : json -> World -> option D * World)
  : list json -> World -> json -> D -> World -> Prop :=
  | answer_here (entity : json) (rest : list json) (w w' : World) (d : D) :
      service entity w = (Some d, w') ->
      first_answer service (entity :: rest) w entity d w'
  | answer_later (skipped_entity : json) (rest : list json) (w w1 w' : World)
      (entity : json) (d : D) :
      service skipped_entity w = (None, w1) ->
      first_answer service rest w1 entity d w' ->
      first_answer service (skipped_entity :: rest) w entity d w'.

Declare Scope io_scope.
Delimit Scope io_scope with io.
Notation "x <- m ;; k" := (io_bind m (fun x => k))
  (at level 61, m at next level, right associativity) : io_scope.

(** ** Claim extractor ([src/factcheck/claim_extractor.py]) *)

(** The dataclass [ExtractedClaim].  The fields are filled from the JSON
    items as they come, so apart from [confidence], which goes through
    [float], they hold arbitrary values. *)
Record ExtractedClaim : Type := {
  claim : json;
  category : json;
  entities : json;
  original_text : json;
  confidence : float
}.

(** [lst[:n]] *)
Definition slice_to {A : Type} (l : list A) (n : Z) : list A :=
  if n <? 0 then firstn (Z.to_nat (Z.of_nat (List.length l) + n)) l
  else firstn (Z.to_nat n) l.

Section ClaimExtractor.
Open Scope py_scope.

(** [float(s)] for a string [s]; [None] stands for [ValueError]. *)
Variable float_of_str : str -> option float.

(** [float(j)] *)
Definition py_float (j : json) : result float :=
  match j with
  | JFloat x => Ok x
  | JInt n => float_of_int n
  | JBool b => Ok (decimal (if b then 1 else 0) 0)
  | JStr s =>
      match float_of_str s with
      | Some x => Ok x
      | None => Raise ValueError
      end
  | _ => Raise TypeError
  end.

(** The body of the [try] inside the loop of [extract_claims]: build
    the claim of one item and decide whether it is appended. *)
Definition claim_of_item (item : json) : result (option ExtractedClaim) :=
  match item with
  | JObj d =>
      conf <- py_float (dict_get d (str_of "confidence") (JFloat (decimal 5 1))) ;;
      let c := {| claim := dict_get d (str_of "claim") (JStr []);
                  category := dict_get d (str_of "category") (JStr (str_of "other"));
                  entities := dict_get d (str_of "entities") (JArr []);
                  original_text := dict_get d (str_of "original_text") (JStr []);
                  confidence := conf |} in
      if json_truthy (claim c) && fge (confidence c) (decimal 5 1)
      then Ok (Some c)
      else Ok None
  | _ => Raise AttributeError
  end.

(** [for item in ...] with [except (KeyError, ValueError)]: such an
    item is skipped after a warning, any other exception leaves the
    loop. *)
Fixpoint collect_claims (items : list json) : result (list ExtractedClaim) :=
  match items with
  | [] => Ok []
  | item :: rest =>
      match claim_of_item item with
      | Ok (Some c) => claims <- collect_claims rest ;; Ok (c :: claims)
      | Ok None => collect_claims rest
      | Raise ValueError => collect_claims rest
      | Raise e => Raise e
      end
  end.

(** The log line after the loop builds the set of the categories. *)
Definition log_claims_extracted (claims : list ExtractedClaim) : result unit :=
  if forallb (fun c => hashable (category c)) claims then Ok tt
  else Raise TypeError.

(** Lines 110-133 of [extract_claims], from the parsed response on. *)
Definition claims_from_data (claims_data : list json) (max_claims : Z)
  : result (list ExtractedClaim) :=
  claims <- collect_claims (slice_to claims_data max_claims) ;;
  _ <- log_claims_extracted claims ;;
  Ok claims.

(** The claims an item contributes when it is looked at on its own: the
    claim it builds if that passes the test, nothing otherwise. *)
Definition kept_claims (items : list json) : list ExtractedClaim :=
  flat_map (fun item =>
              match claim_of_item item with
              | Ok (Some c) => [c]
              | _ => []
              end) items.

(** An item whose exception is not caught inside the loop. *)
Definition aborts (item : json) : bool :=
  match claim_of_item item with
  | Raise ValueError => false
  | Raise _ => true
  | Ok _ => false
  end.

(** The reading "filter first, then truncate to [max_claims]". *)
Definition filter_then_truncate (claims_data : list json) (max_claims : Z)
  : list ExtractedClaim :=
  slice_to (kept_claims claims_data) max_claims.

Section WithModel.
Variable World : Type.

(** The generative collaborator: the prompt is formatted with the
    text, the model is called and [_parse_json_response] is applied
    to its answer; the result is a list or an exception. *)
Variable ask_model : str -> World -> result (list json) * World.

Definition extract_claims (text : str) (max_claims : Z)
  : World -> list ExtractedClaim * World :=
  fun w =>
    if (Z.of_nat (List.length text) <? 50) then ([], w)
    else
      let text :=
        if (15000 <? Z.of_nat (List.length text))
        then firstn (Z.to_nat 15000) text ++ str_of "..."
        else text in
      let (claims_data, w') := ask_model text w in
      match bind claims_data (fun d => claims_from_data d max_claims) with
      | Ok claims => (claims, w')
      | Raise _ => ([], w')
      end.
End WithModel.
End ClaimExtractor.

(** ** Fact verifier ([src/factcheck/verifier.py]) *)

(** [database.models.FactStatus] *)
Inductive FactStatus : Type :=
  | VERIFIED
  | OUTDATED
  | FALSE
  | UNVERIFIED.

(** [sources.FactData], the fields the verifier reads.  [value] is
    declared [Any]: it is whatever the provider's JSON held. *)
Record FactData : Type := {
  data_source : string;
  data_query : json;
  data_value : json
}.

(** The formatted strings of a result, kept symbolic: the format and the
    number it is applied to. *)
Inductive display : Type :=
  | Dollars0 (x : number)        (* f"${x:,.0f}" *)
  | Dollars2 (x : number)        (* f"${x:,.2f}" *)
  | Percent1 (x : number)        (* f"{x:.1f}%" *)
  | AboutPercent1 (x : float)    (* f"~{x:.1f}%" *)
  | PlainStr (j : json).         (* str(j) *)

(** The texts of [notes]. *)
Inductive note : Type :=
  | TvlDiffers (ratio : float)   (* f"Actual TVL differs: {ratio:.1%}" *)
  | ProtocolExists               (* "Protocol exists, TVL confirmed" *)
  | NoProtocolData               (* "Could not find protocol data" *)
  | PriceChanged (ratio : float) (* f"Price changed: {ratio:.1%}" *)
  | NoTokenPrice                 (* "Could not find token price" *)
  | PoolNote (pool : json)       (* f"Pool: {pool.get('pool', 'unknown')}" *)
  | ApyMayHaveChanged            (* "APY may have changed" *)
  | NoYieldData                  (* "Could not verify yield data" *)
  | EntityFound (entity : json)  (* f"Entity '{entity}' found" *)
  | TokenFound (entity : json)   (* f"Token '{entity}' found" *)
  | NoMatchingData.              (* "No matching data found" *)

(** The dataclass [VerificationResult]; [result_claim] is its field
    [claim]. *)
Record VerificationResult : Type := {
  result_claim : ExtractedClaim;
  status : FactStatus;
  source : option string;
  verified_value : option display;
  original_value : option display;
  notes : option note
}.

(** [database.models.VerifiedFact], the fields set by the verifier. *)
Record VerifiedFact : Type := {
  fact_video_id : str;
  fact_claim : json;
  fact_status : FactStatus;
  fact_source : option string;
  fact_verified_value : option display
}.

(** [DefiLlamaSource.name] and [CoinGeckoSource.name] *)
Definition defillama_name : string := "defillama".
Definition coingecko_name : string := "coingecko".

(** [lo <= x <= hi] *)
Definition between (lo x hi : float) : bool := fle lo x && fle x hi.
Arguments between : simpl never.

Section FactVerifier.
Variable U : Unicode.
Variable float_of_str : str -> option float.
Variable World : Type.

(** The generative collaborator behind [ClaimExtractor]. *)
Variable ask_model : str -> World -> result (list json) * World.

(** The lookups of [sources.py].  Each catches every exception of its
    request and answers [None] (an empty list for the yields). *)
Variable get_protocol_tvl : json -> World -> option FactData * World.
Variable get_chain_tvl : json -> World -> option FactData * World.
Variable get_token_price : json -> World -> option FactData * World.
Variable get_yields : json -> World -> list dict * World.

(** [DefiLlamaSource.query] *)
Definition defillama_query (query : json) : World -> option FactData * World :=
  fun w =>
    match get_protocol_tvl query w with
    | (Some d, w') => (Some d, w')
    | (None, w') => get_chain_tvl query w'
    end.

(** [CoinGeckoSource.query] *)
Definition coingecko_query (query : json) : World -> option FactData * World :=
  get_token_price query.

(** [self._extract_number(text)] on an object: only a [str] has
    [lower]. *)
Definition extract_number_of (text : json) : result (option float) :=
  match text with
  | JStr s => Ok (_extract_number U s)
  | _ => Raise AttributeError
  end.

Definition extract_percentage_of (text : json) : result (option float) :=
  match text with
  | JStr s => Ok (_extract_percentage U s)
  | _ => Raise AttributeError
  end.

Definition unverified (c : ExtractedClaim) (n : note) : VerificationResult :=
  {| result_claim := c; status := UNVERIFIED; source := None;
     verified_value := None; original_value := None; notes := Some n |}.

(** The truth value of an [Optional[float]] in [if x:]. *)
Definition claimed_truthy (x : option float) : bool :=
  match x with
  | Some v => float_truthy v
  | None => false
  end.

Section Found.
Open Scope py_scope.

(** The body of [if data:] in [_verify_tvl_claim]. *)
Definition tvl_found (c : ExtractedClaim) (data : FactData)
  : result VerificationResult :=
  claimed_value <- extract_number_of (claim c) ;;
  let actual_value := data_value data in
  let entity_exists :=
    a <- as_formatted actual_value ;;
    Ok {| result_claim := c; status := VERIFIED;
          source := Some defillama_name;
          verified_value := Some (Dollars0 a);
          original_value := None;
          notes := Some ProtocolExists |} in
  match claimed_value with
  | Some claimed =>
      if float_truthy claimed then
        ratio <- (if float_truthy claimed
                  then json_div_float actual_value claimed
                  else Ok (S754_zero false)) ;;
        if between (decimal 8 1) ratio (decimal 12 1) then
          a <- as_formatted actual_value ;;
          Ok {| result_claim := c; status := VERIFIED;
                source := Some defillama_name;
                verified_value := Some (Dollars0 a);
                original_value := Some (Dollars0 (NFloat claimed));
                notes := None |}
        else
          a <- as_formatted actual_value ;;
          Ok {| result_claim := c; status := OUTDATED;
                source := Some defillama_name;
                verified_value := Some (Dollars0 a);
                original_value := Some (Dollars0 (NFloat claimed));
                notes := Some (TvlDiffers ratio) |}
      else entity_exists
  | None => entity_exists
  end.

(** The body of [if data:] in [_verify_price_claim]. *)
Definition price_found (c : ExtractedClaim) (data : FactData)
  : result VerificationResult :=
  claimed_price <- extract_number_of (claim c) ;;
  let actual_price := data_value data in
  let entity_exists :=
    a <- as_formatted actual_price ;;
    Ok {| result_claim := c; status := VERIFIED;
          source := Some coingecko_name;
          verified_value := Some (Dollars2 a);
          original_value := None;
          notes := None |} in
  match claimed_price with
  | Some claimed =>
      if float_truthy claimed then
        ratio <- (if float_truthy claimed
                  then json_div_float actual_price claimed
                  else Ok (S754_zero false)) ;;
        if between (decimal 9 1) ratio (decimal 11 1) then
          a <- as_formatted actual_price ;;
          Ok {| result_claim := c; status := VERIFIED;
                source := Some coingecko_name;
                verified_value := Some (Dollars2 a);
                original_value := Some (Dollars2 (NFloat claimed));
                notes := None |}
        else
          a <- as_formatted actual_price ;;
          Ok {| result_claim := c; status := OUTDATED;
                source := Some coingecko_name;
                verified_value := Some (Dollars2 a);
                original_value := Some (Dollars2 (NFloat claimed));
                notes := Some (PriceChanged ratio) |}
      else entity_exists
  | None => entity_exists
  end.

(** [for pool in pools[:10]] of [_verify_yield_claim]: the first pool
    whose APY is within the band, if any. *)
Fixpoint match_pool (c : ExtractedClaim) (claimed_apy : option float)
  (pools : list dict) : result (option VerificationResult) :=
  match pools with
  | [] => Ok None
  | pool :: rest =>
      let pool_apy := dict_get pool (str_of "apy") (JInt 0) in
      match claimed_apy with
      | Some claimed =>
          if json_truthy pool_apy && float_truthy claimed then
            ratio <- (if float_truthy claimed
                      then json_div_float pool_apy claimed
                      else Ok (S754_zero false)) ;;
            if between (decimal 7 1) ratio (decimal 13 1) then
              p <- as_formatted pool_apy ;;
              Ok (Some
                {| result_claim := c; status := VERIFIED;
                   source := Some defillama_name;
                   verified_value := Some (Percent1 p);
                   original_value := Some (Percent1 (NFloat claimed));
                   notes := Some (PoolNote
                     (dict_get pool (str_of "pool") (JStr (str_of "unknown")))) |})
            else match_pool c claimed_apy rest
          else match_pool c claimed_apy rest
      | None => match_pool c claimed_apy rest
      end
  end.

(** [sum(p.get("apy", 0) for p in pools[:5]) / min(5, len(pools))] *)
Definition average_apy (pools : list dict) : result float :=
  total <- sum_from (NInt 0)
             (map (fun p => dict_get p (str_of "apy") (JInt 0))
                  (firstn 5 pools)) ;;
  number_div_int total (Z.min 5 (Z.of_nat (List.length pools))).

(** The body of [if pools:] in [_verify_yield_claim]; [None] when the
    loop over the entities goes on. *)
Definition yield_found (c : ExtractedClaim) (pools : list dict)
  : result (option VerificationResult) :=
  claimed_apy <- extract_percentage_of (claim c) ;;
  matched <- match_pool c claimed_apy (firstn 10 pools) ;;
  match matched with
  | Some r => Ok (Some r)
  | None =>
      match claimed_apy with
      | Some claimed =>
          if float_truthy claimed then
            avg_apy <- average_apy pools ;;
            Ok (Some
              {| result_claim := c; status := OUTDATED;
                 source := Some defillama_name;
                 verified_value := Some (AboutPercent1 avg_apy);
                 original_value := Some (Percent1 (NFloat claimed));
                 notes := Some ApyMayHaveChanged |})
          else Ok None
      | None => Ok None
      end
  end.
End Found.

Open Scope io_scope.

(** [for entity in claim.entities] of [_verify_tvl_claim] *)
Fixpoint tvl_loop (c : ExtractedClaim) (ents : list json)
  : io World VerificationResult :=
  match ents with
  | [] => ret (unverified c NoProtocolData)
  | entity :: rest =>
      data <- call (get_protocol_tvl entity) ;;
      match data with
      | Some d => lift (tvl_found c d)
      | None => tvl_loop c rest
      end
  end.

Definition _verify_tvl_claim (c : ExtractedClaim) : io World VerificationResult :=
  ents <- lift (iterate (entities c)) ;;
  tvl_loop c ents.

Fixpoint price_loop (c : ExtractedClaim) (ents : list json)
  : io World VerificationResult :=
  match ents with
  | [] => ret (unverified c NoTokenPrice)
  | entity :: rest =>
      data <- call (get_token_price entity) ;;
      match data with
      | Some d => lift (price_found c d)
      | None => price_loop c rest
      end
  end.

Definition _verify_price_claim (c : ExtractedClaim) : io World VerificationResult :=
  ents <- lift (iterate (entities c)) ;;
  price_loop c ents.

Fixpoint yield_loop (c : ExtractedClaim) (ents : list json)
  : io World VerificationResult :=
  match ents with
  | [] => ret (unverified c NoYieldData)
  | entity :: rest =>
      pools <- call (get_yields entity) ;;
      match pools with
      | [] => yield_loop c rest
      | _ :: _ =>
          found <- lift (yield_found c pools) ;;
          match found with
          | Some r => ret r
          | None => yield_loop c rest
          end
      end
  end.

Definition _verify_yield_claim (c : ExtractedClaim) : io World VerificationResult :=
  ents <- lift (iterate (entities c)) ;;
  yield_loop c ents.

Fixpoint general_loop (c : ExtractedClaim) (ents : list json)
  : io World VerificationResult :=
  match ents with
  | [] => ret (unverified c NoMatchingData)
  | entity :: rest =>
      data <- call (defillama_query entity) ;;
      match data with
      | Some d =>
          ret {| result_claim := c; status := VERIFIED;
                 source := Some defillama_name;
                 verified_value := Some (PlainStr (data_value d));
                 original_value := None;
                 notes := Some (EntityFound entity) |}
      | None =>
          data <- call (coingecko_query entity) ;;
          match data with
          | Some d =>
              a <- lift (as_formatted (data_value d)) ;;
              ret {| result_claim := c; status := VERIFIED;
                     source := Some coingecko_name;
                     verified_value := Some (Dollars2 a);
                     original_value := None;
                     notes := Some (TokenFound entity) |}
          | None => general_loop c rest
          end
      end
  end.

Definition _verify_general_claim (c : ExtractedClaim) : io World VerificationResult :=
  ents <- lift (iterate (entities c)) ;;
  general_loop c ents.

Definition verify_single_claim (c : ExtractedClaim) : io World VerificationResult :=
  if json_is_str (category c) "tvl" then _verify_tvl_claim c
  else if json_is_str (category c) "price" then _verify_price_claim c
  else if json_is_str (category c) "percentage" then _verify_yield_claim c
  else _verify_general_claim c.

Definition fact_of (video_id : str) (c : ExtractedClaim) (r : VerificationResult)
  : VerifiedFact :=
  {| fact_video_id := video_id;
     fact_claim := claim c;
     fact_status := status r;
     fact_source := source r;
     fact_verified_value := verified_value r |}.

(** [for claim in claims] of [verify_claims]; the log line of each
    claim slices its text. *)
Fixpoint verify_each (video_id : str) (claims : list ExtractedClaim)
  : io World (list VerifiedFact) :=
  match claims with
  | [] => ret []
  | c :: rest =>
      r <- verify_single_claim c ;;
      _ <- lift (sliceable (claim c)) ;;
      facts <- verify_each video_id rest ;;
      ret (fact_of video_id c r :: facts)
  end.

(** [verify_claims]; the status counts it logs at the end are not part
    of the value. *)
Definition verify_claims (transcript_text : str) (video_id : str)
  : io World (list VerifiedFact) :=
  claims <- call (extract_claims float_of_str World ask_model transcript_text 20) ;;
  match claims with
  | [] => ret []
  | _ :: _ => verify_each video_id claims
  end.

End FactVerifier.

(** ** The examples of the specification *)

(** The claim "Aave TVL is $10 billion", of category "tvl", about the
    entity "Aave". *)
Definition aave_tvl_claim : ExtractedClaim :=
  {| claim := JStr (str_of "Aave TVL is $10 billion");
     category := JStr (str_of "tvl");
     entities := JArr [JStr (str_of "Aave")];
     original_text := JStr (str_of "Aave TVL is $10 billion");
     confidence := decimal 9 1 |}.

(** A source that answers every query with [value], in a world without
    state, and sources that answer nothing. *)
Definition answers (name : string) (value : json)
  : json -> unit -> option FactData * unit :=
  fun query w =>
    (Some {| data_source := name; data_query := query; data_value := value |}, w).

Definition no_answer : json -> unit -> option FactData * unit :=
  fun _ w => (None, w).

Definition pools_are (pools : list dict) : json -> unit -> list dict * unit :=
  fun _ w => (pools, w).

(** ** The remaining functions of the three modules *)

(** [a == b] on [FactStatus] *)
Definition FactStatus_eqb (a b : FactStatus) : bool :=
  match a, b with
  | VERIFIED, VERIFIED | OUTDATED, OUTDATED
  | FALSE, FALSE | UNVERIFIED, UNVERIFIED => true
  | _, _ => false
  end.

(** [FactVerifier.get_only_verified] *)
Definition get_only_verified (facts : list VerifiedFact) : list VerifiedFact :=
  filter (fun f => FactStatus_eqb (fact_status f) VERIFIED) facts.

(** [needle in hay] for two strings *)
Fixpoint contains (needle hay : str) : bool :=
  match strip_prefix needle hay with
  | Some _ => true
  | None =>
      match hay with
      | [] => false
      | _ :: rest => contains needle rest
      end
  end.

(** The keyword lists of [categorize_claim], in the order of its tests. *)
Definition price_words : list str :=
  [ [1094; 1077; 1085; 1072]%N; str_of "price"; str_of "$"; str_of "usd";
    [1089; 1090; 1086; 1080; 1090]%N ].
Definition tvl_words : list str :=
  [ str_of "tvl";
    [1083; 1080; 1082; 1074; 1080; 1076; 1085; 1086; 1089; 1090]%N;
    str_of "liquidity"; str_of "locked" ].
Definition percentage_words : list str :=
  [ str_of "%"; protsent; str_of "apy"; str_of "apr";
    [1076; 1086; 1093; 1086; 1076; 1085; 1086; 1089; 1090]%N ].
Definition date_words : list str :=
  [ [1079; 1072; 1087; 1091; 1089; 1082]%N; str_of "launch";
    [1076; 1072; 1090; 1072]%N; [1075; 1086; 1076]%N;
    [1084; 1077; 1089; 1103; 1094]%N ].
Definition protocol_words : list str :=
  [ [1087; 1088; 1086; 1090; 1086; 1082; 1086; 1083]%N; str_of "protocol";
    [1089; 1077; 1090; 1100]%N; str_of "chain" ].

(** [any(w in text for w in words)] *)
Definition any_in (words : list str) (text : str) : bool :=
  existsb (fun w => contains w text) words.

(** [ClaimExtractor.categorize_claim] *)
Definition categorize_claim (U : Unicode) (claim : str) : string :=
  let claim_lower := lower U claim in
  if any_in price_words claim_lower then "price"
  else if any_in tvl_words claim_lower then "tvl"
  else if any_in percentage_words claim_lower then "percentage"
  else if any_in date_words claim_lower then "date"
  else if any_in protocol_words claim_lower then "protocol_info"
  else "other".

(** A video as [YouTubeClient.get_channel_videos] builds it: the keys
    [filter_viral_videos] reads are always present, and [views] went
    through [int]. *)
Record VideoData : Type := {
  data_id : str;
  data_title : str;
  data_published_at : str;
  data_views : Z
}.

(** [database.models.Channel], the fields that are read. *)
Record Channel : Type := {
  channel_id : str;
  channel_subscribers : Z
}.

(** [s.replace("Z", "+00:00")] *)
Definition replace_Z (s : str) : str :=
  flat_map (fun c => if N.eqb c 90 then str_of "+00:00" else [c]) s.

Section FilterViral.
Open Scope py_scope.

(** The values of [datetime], and [datetime.fromisoformat], which
    raises [ValueError] (here [None]) on a string it cannot read. *)
Variable datetime : Type.
Variable fromisoformat : str -> option datetime.

(** [database.models.Video], the fields set by [filter_viral_videos]. *)
Record Video : Type := {
  video_id : str;
  video_channel_id : str;
  video_title : str;
  video_views : Z;
  video_published_at : datetime;
  virality_score : float
}.

Variable thresholds : ViralityThresholds.

(** [ViralityChecker.filter_viral_videos] *)
Fixpoint filter_viral_videos (videos : list VideoData) (channel : Channel)
  : result (list Video) :=
  match videos with
  | [] => Ok []
  | video_data :: rest =>
      r <- check_virality thresholds (data_views video_data)
             (channel_subscribers channel) ;;
      if is_viral r then
        published <- match fromisoformat (replace_Z (data_published_at video_data)) with
                     | Some t => Ok t
                     | None => Raise ValueError
                     end ;;
        let video := {| video_id := data_id video_data;
                        video_channel_id := channel_id channel;
                        video_title := data_title video_data;
                        video_views := data_views video_data;
                        video_published_at := published;
                        virality_score := score r |} in
        viral_videos <- filter_viral_videos rest channel ;;
        Ok (video :: viral_videos)
      else filter_viral_videos rest channel
  end.
End FilterViral.
Arguments video_id {datetime} _.
Arguments video_channel_id {datetime} _.
Arguments video_title {datetime} _.
Arguments video_views {datetime} _.
Arguments video_published_at {datetime} _.
Arguments virality_score {datetime} _.

(** What a result carries with each status: an unverified result has
    no source and no value; a verified one names one of the two
    providers and has a value; an outdated one has, in addition, the
    claimed value and a note. *)
Definition backed_by_source (r : VerificationResult) : Prop :=
  match status r with
  | UNVERIFIED =>
      source r = None /\ verified_value r = None /\ original_value r = None
  | VERIFIED =>
      (source r = Some defillama_name \/ source r = Some coingecko_name) /\
      verified_value r <> None
  | OUTDATED =>
      (source r = Some defillama_name \/ source r = Some coingecko_name) /\
      verified_value r <> None /\ original_value r <> None /\ notes r <> None
  | FALSE => False
  end.

(** *** [ClaimExtractor._parse_json_response] *)

Definition backtick : char := 96%N.

(** The fences of a code block, ["```"] and ["```json"]. *)
Definition fence : str := [backtick; backtick; backtick].
Definition json_fence : str := fence ++ str_of "json".

(** [s.find(sub)], counted from the position [i] of the head of [s]:
    the index of the first occurrence, or [-1]. *)
Fixpoint find_at (sub s : str) (i : Z) : Z :=
  match strip_prefix sub s with
  | Some _ => i
  | None =>
      match s with
      | [] => -1
      | _ :: rest => find_at sub rest (i + 1)
      end
  end.

Definition find (sub s : str) : Z := find_at sub s 0.

(** [s.find(sub, start)] for [start >= 0] *)
Definition find_from (sub s : str) (start : Z) : Z :=
  if start <=? Z.of_nat (List.length s)
  then find_at sub (skipn (Z.to_nat start) s) start
  else -1.

(** [s.rfind(sub)]: the index of the last occurrence, or [-1]. *)
Fixpoint rfind_at (sub s : str) (i : Z) : Z :=
  match s with
  | [] => match strip_prefix sub [] with Some _ => i | None => -1 end
  | _ :: rest =>
      let later := rfind_at sub rest (i + 1) in
      if 0 <=? later then later
      else match strip_prefix sub s with Some _ => i | None => -1 end
  end.

Definition rfind (sub s : str) : Z := rfind_at sub s 0.

(** A bound of a slice: negative bounds count from the end, and every
    bound is clipped to the string. *)
Definition slice_bound (len i : Z) : Z :=
  if i <? 0 then Z.max 0 (len + i) else Z.min i len.

(** [s[start:stop]] *)
Definition slice (s : str) (start stop : Z) : str :=
  let len := Z.of_nat (List.length s) in
  let a := slice_bound len start in
  let b := slice_bound len stop in
  firstn (Z.to_nat (b - a)) (skipn (Z.to_nat a) s).

Fixpoint lstrip (p : char -> bool) (s : str) : str :=
  match s with
  | c :: rest => if p c then lstrip p rest else s
  | [] => []
  end.

Section ParseResponse.
Open Scope py_scope.
Variable U : Unicode.

(** [json.loads]; [Raise ValueError] stands for [JSONDecodeError]. *)
Variable loads : str -> result json.

(** [s.strip()] *)
Definition strip (s : str) : str :=
  rev (lstrip (is_space U) (rev (lstrip (is_space U) s))).

(** The code block of the response, if it has a fence. *)
Definition unfenced (text : str) : str :=
  if contains json_fence text then
    let start := find json_fence text + 7 in
    let stop := find_from fence text start in
    strip (slice text start stop)
  else if contains fence text then
    let start := find fence text + 3 in
    let stop := find_from fence text start in
    strip (slice text start stop)
  else text.

(** The part of the text from the first ["["] to the last ["]"]. *)
Definition bracketed (text : str) : str :=
  if contains (str_of "[") text then
    let start := find (str_of "[") text in
    let stop := rfind (str_of "]") text + 1 in
    slice text start stop
  else text.

(** The [try] around [json.loads]: a list is returned, any other value
    and a decoding error give the empty list. *)
Definition loaded_list (text : str) : result (list json) :=
  match loads text with
  | Ok (JArr data) => Ok data
  | Ok _ => Ok []
  | Raise ValueError => Ok []
  | Raise e => Raise e
  end.

Definition _parse_json_response (text : str) : result (list json) :=
  let text := strip text in
  let text := unfenced text in
  let text := bracketed text in
  loaded_list text.
End ParseResponse.

(** A string in which the character [x] does not occur. *)
Definition without (x : char) (s : str) : Prop := Forall (fun c => c <> x) s.

Definition open_bracket : char := 91%N.
Definition close_bracket : char := 93%N.
Definition newline : char := 10%N.

(** [s] is a contiguous part of [t]. *)
Definition part_of (s t : str) : Prop := exists l r, t = l ++ s ++ r.

(** A decoder for the examples: of all texts it decodes ["[1, 2]"] only. *)
Definition loads_example (s : str) : result json :=
  if str_eqb s (str_of "[1, 2]") then Ok (JArr [JInt 1; JInt 2])
  else Raise ValueError.

(** A returned video [v] and the data [vd] it was built from. *)
Definition built_from (datetime : Type) (fromisoformat : str -> option datetime)
  (thresholds : ViralityThresholds) (channel : Channel)
  (vd : VideoData) (v : Video datetime) : Prop :=
  video_id v = data_id vd /\
  video_channel_id v = channel_id channel /\
  video_title v = data_title vd /\
  video_views v = data_views vd /\
  fromisoformat (replace_Z (data_published_at vd)) = Some (video_published_at v) /\
  exists r,
    check_virality thresholds (data_views vd) (channel_subscribers channel) = Ok r /\
    is_viral r = true /\ virality_score v = score r.

(** One of [words] occurs somewhere in [text]. *)
Definition mentions (words : list str) (text : str) : Prop :=
  exists w before after, In w words /\ text = before ++ w ++ after.

(** The videos of a channel that pass the virality test. *)
Definition passes_test (thresholds : ViralityThresholds) (channel : Channel)
  (video_data : VideoData) : bool :=
  match check_virality thresholds (data_views video_data)
          (channel_subscribers channel) with
  | Ok r => is_viral r
  | Raise _ => false
  end.

(** *** The filter of [extract_claims], in the words of the specification *)

Section ClaimFilter.
Variable float_of_str : str -> option float.

(** An item satisfies the filter, and [c] is the claim built from it:
    the item is an object, its confidence (0.5 when absent) is accepted
    by [float] and is at least 0.5, and its claim value (the empty string
    when absent) is not empty. *)
Definition passes_filter (item : json) (c : ExtractedClaim) : Prop :=
  exists (d : dict) (x : float),
    item = JObj d /\
    py_float float_of_str (dict_get d (str_of "confidence") (JFloat (decimal 5 1)))
      = Ok x /\
    fge x (decimal 5 1) = true /\
    json_truthy (dict_get d (str_of "claim") (JStr [])) = true /\
    c = {| claim := dict_get d (str_of "claim") (JStr []);
           category := dict_get d (str_of "category") (JStr (str_of "other"));
           entities := dict_get d (str_of "entities") (JArr []);
           original_text := dict_get d (str_of "original_text") (JStr []);
           confidence := x |}.

(** An item that is not an object, or whose confidence makes [float]
    raise something other than [ValueError]. *)
Definition breaks_extraction (item : json) : Prop :=
  match item with
  | JObj d =>
      exists e : exn,
        py_float float_of_str (dict_get d (str_of "confidence") (JFloat (decimal 5 1)))
          = Raise e /\
        e <> ValueError
  | _ => True
  end.

(** [claims] are the claims of the items of [items] that satisfy the
    filter, one for one and in the same order. *)
Inductive filtered_in_order : list json -> list ExtractedClaim -> Prop :=
  | filtered_nil : filtered_in_order [] []
  | filtered_keep (item : json) (c : ExtractedClaim) (rest : list json)
      (claims : list ExtractedClaim) :
      passes_filter item c ->
      filtered_in_order rest claims ->
      filtered_in_order (item :: rest) (c :: claims)
  | filtered_drop (item : json) (rest : list json) (claims : list ExtractedClaim) :
      (forall c, ~ passes_filter item c) ->
      filtered_in_order rest claims ->
      filtered_in_order (item :: rest) claims.

(** The text that reaches the model. *)
Definition prompt_text (text : str) : str :=
  if 15000 <? Z.of_nat (List.length text)
  then firstn (Z.to_nat 15000) text ++ str_of "..."
  else text.
End ClaimFilter.

(* ================================================================== *)
(** * Part II: theorems *)
(* ================================================================== *)

(** ** Binary64 arithmetic *)

Lemma digits2_pos_spec (p : positive) :
  2 ^ (Zpos (digits2_pos p) - 1) <= Zpos p < 2 ^ Zpos (digits2_pos p).
Proof.
  induction p as [p IH | p IH |]; simpl digits2_pos.
  - rewrite Pos2Z.inj_succ. change (Zpos p~1) with (2 * Zpos p + 1).
    replace (Z.succ (Zpos (digits2_pos p)) - 1) with (Z.succ (Zpos (digits2_pos p) - 1)) by lia.
    rewrite !Z.pow_succ_r by lia.
    generalize dependent (2 ^ (Zpos (digits2_pos p) - 1)).
    generalize (2 ^ Zpos (digits2_pos p)). intros; lia.
  - rewrite Pos2Z.inj_succ. change (Zpos p~0) with (2 * Zpos p).
    replace (Z.succ (Zpos (digits2_pos p)) - 1) with (Z.succ (Zpos (digits2_pos p) - 1)) by lia.
    rewrite !Z.pow_succ_r by lia.
    generalize dependent (2 ^ (Zpos (digits2_pos p) - 1)).
    generalize (2 ^ Zpos (digits2_pos p)). intros; lia.
  - simpl. lia.
Qed.

Lemma Zdigits2_nonneg (m : Z) : 0 <= Zdigits2 m.
Proof. destruct m; simpl; lia. Qed.

Lemma Zdigits2_spec (m : Z) :
  0 < m -> 2 ^ (Zdigits2 m - 1) <= m < 2 ^ Zdigits2 m.
Proof.
  destruct m as [| p | p]; try lia. intros _. apply digits2_pos_spec.
Qed.

Lemma shr_1_m (mrs : shr_record) :
  0 <= shr_m mrs -> shr_m (shr_1 mrs) = shr_m mrs / 2.
Proof.
  destruct mrs as [m r s]. simpl. intros Hm.
  destruct m as [| p | p]; try lia.
  - reflexivity.
  - destruct p as [p | p |]; simpl.
    + change (Zpos p~1) with (2 * Zpos p + 1). apply Z.div_unique with 1; lia.
    + change (Zpos p~0) with (2 * Zpos p). apply Z.div_unique with 0; lia.
    + reflexivity.
Qed.

Lemma iter_shr_1_m (p : positive) :
  forall mrs, 0 <= shr_m mrs ->
    shr_m (iter_pos shr_1 p mrs) = shr_m mrs / 2 ^ Zpos p.
Proof.
  induction p as [p IH | p IH |]; intros mrs Hm; simpl iter_pos.
  - assert (H1 : 0 <= shr_m (shr_1 mrs)).
    { rewrite shr_1_m by assumption. apply Z.div_pos; lia. }
    assert (H2 : 0 <= shr_m (iter_pos shr_1 p (shr_1 mrs))).
    { rewrite IH by assumption. apply Z.div_pos; [assumption | apply Z.pow_pos_nonneg; lia]. }
    rewrite IH by assumption. rewrite IH by assumption. rewrite shr_1_m by assumption.
    assert (Hp : 0 < 2 ^ Zpos p) by (apply Z.pow_pos_nonneg; lia).
    rewrite !Z.div_div by lia.
    f_equal. change (Zpos p~1) with (2 * Zpos p + 1).
    replace (2 * Zpos p + 1) with (Z.succ (Zpos p + Zpos p)) by lia.
    rewrite Z.pow_succ_r, Z.pow_add_r by lia. lia.
  - assert (H2 : 0 <= shr_m (iter_pos shr_1 p mrs)).
    { rewrite IH by assumption. apply Z.div_pos; [assumption | apply Z.pow_pos_nonneg; lia]. }
    rewrite IH by assumption. rewrite IH by assumption.
    assert (Hp : 0 < 2 ^ Zpos p) by (apply Z.pow_pos_nonneg; lia).
    rewrite !Z.div_div by lia.
    f_equal. change (Zpos p~0) with (2 * Zpos p).
    replace (2 * Zpos p) with (Zpos p + Zpos p) by lia.
    rewrite Z.pow_add_r by lia. lia.
  - rewrite shr_1_m by assumption. reflexivity.
Qed.

Lemma shr_record_of_loc_m (m : Z) (l : location) :
  shr_m (shr_record_of_loc m l) = m.
Proof. destruct l as [| c]; [reflexivity | destruct c; reflexivity]. Qed.

(** What [shr_fexp] does to the mantissa and the exponent. *)
Lemma shr_fexp_spec (m e : Z) (l : location) :
  0 <= m ->
  let n := fexp prec emax (Zdigits2 m + e) - e in
  (n <= 0 /\ shr_m (fst (shr_fexp prec emax m e l)) = m /\
     snd (shr_fexp prec emax m e l) = e) \/
  (0 < n /\ shr_m (fst (shr_fexp prec emax m e l)) = m / 2 ^ n /\
     snd (shr_fexp prec emax m e l) = e + n).
Proof.
  intros Hm n. unfold shr_fexp. fold n. unfold shr.
  destruct n as [| p | p] eqn:En.
  - left. simpl. rewrite shr_record_of_loc_m. repeat split; lia.
  - right. simpl fst. simpl snd. rewrite iter_shr_1_m by (rewrite shr_record_of_loc_m; lia).
    rewrite shr_record_of_loc_m. repeat split; lia.
  - left. simpl. rewrite shr_record_of_loc_m. repeat split; lia.
Qed.

Lemma fexp_le (x : Z) : x <= 1024 -> fexp prec emax x <= 971.
Proof. unfold fexp, emin, prec, emax. lia. Qed.

Lemma round_nearest_even_bounds (m : Z) (l : location) :
  m <= round_nearest_even m l <= m + 1.
Proof.
  destruct l as [| c]; simpl; [lia |].
  destruct c; [destruct (Z.even m) | |]; lia.
Qed.

(** A positive number below [2^k] has at most [k] binary digits. *)
Lemma Zdigits2_le (m k : Z) : 0 <= k -> 0 <= m -> m < 2 ^ k -> Zdigits2 m <= k.
Proof.
  intros Hk Hm Hlt.
  destruct (Z.eq_dec m 0) as [-> | Hne]; [simpl; lia |].
  destruct (Zdigits2_spec m ltac:(lia)) as [Hlo _].
  assert (H : 2 ^ (Zdigits2 m - 1) < 2 ^ k) by lia.
  apply Z.pow_lt_mono_r_iff in H; lia.
Qed.

(** Rounding a mantissa [mx] at an exponent [ex <= 0] stays finite when
    the value [mx * 2^ex] is below [2^1023]. *)
Lemma binary_round_aux_not_infinity (sx : bool) (mx ex : Z) (lx : location) :
  0 <= mx -> ex <= 0 -> mx < 2 ^ (1023 - ex) ->
  forall s, binary_round_aux prec emax sx mx ex lx <> S754_infinity s.
Proof.
  intros Hmx Hex Hlt s. unfold binary_round_aux.
  pose proof (shr_fexp_spec mx ex lx Hmx) as H1. cbv zeta in H1.
  destruct (shr_fexp prec emax mx ex lx) as [mrs' e'] eqn:E1. simpl fst in H1. simpl snd in H1.
  assert (Hd : Zdigits2 mx + ex <= 1023).
  { pose proof (Zdigits2_le mx (1023 - ex) ltac:(lia) Hmx Hlt). lia. }
  assert (Hfe : fexp prec emax (Zdigits2 mx + ex) <= 971) by (apply fexp_le; lia).
  assert (He' : e' <= 971 /\ 0 <= shr_m mrs' /\ shr_m mrs' < 2 ^ (1023 - e')).
  { destruct H1 as [(Hn & Hm & He) | (Hn & Hm & He)].
    - rewrite Hm, He. repeat split; lia.
    - rewrite Hm, He.
      set (n := fexp prec emax (Zdigits2 mx + ex) - ex) in *.
      assert (Hp : 0 < 2 ^ n) by (apply Z.pow_pos_nonneg; lia).
      repeat split; try lia.
      + apply Z.div_pos; lia.
      + apply Z.div_lt_upper_bound; [lia |].
        rewrite <- Z.pow_add_r by lia.
        replace (n + (1023 - (ex + n))) with (1023 - ex) by lia. assumption. }
  destruct He' as (He' & HM0 & HM).
  set (m1 := round_nearest_even (shr_m mrs') (loc_of_shr_record mrs')).
  pose proof (round_nearest_even_bounds (shr_m mrs') (loc_of_shr_record mrs')) as Hr.
  fold m1 in Hr.
  assert (Hm1 : 0 <= m1) by lia.
  pose proof (shr_fexp_spec m1 e' loc_Exact Hm1) as H2. cbv zeta in H2.
  destruct (shr_fexp prec emax m1 e' loc_Exact) as [mrs'' e''] eqn:E2.
  simpl fst in H2. simpl snd in H2.
  assert (Hd1 : Zdigits2 m1 + e' <= 1024).
  { assert (Hlt1 : m1 < 2 ^ (1024 - e')).
    { replace (1024 - e') with (Z.succ (1023 - e')) by lia.
      rewrite Z.pow_succ_r by lia.
      assert (0 < 2 ^ (1023 - e')) by (apply Z.pow_pos_nonneg; lia).
      generalize dependent (2 ^ (1023 - e')). intros; lia. }
    pose proof (Zdigits2_le m1 (1024 - e') ltac:(lia) Hm1 Hlt1). lia. }
  assert (He'' : e'' <= 971).
  { pose proof (fexp_le _ Hd1).
    destruct H2 as [(Hn & Hm & He) | (Hn & Hm & He)]; lia. }
  destruct (shr_m mrs''); try discriminate.
  destruct (Z.leb_spec e'' (emax - prec)) as [_ | Hgt]; [discriminate |].
  unfold emax, prec in Hgt. lia.
Qed.

(** The division of two positive integers of any size stays finite when
    the quotient is below [2^1023]. *)
Lemma fdiv_integers_not_infinity (sa sb : bool) (a b : positive) :
  Zpos a < 2 ^ 1023 * Zpos b ->
  forall s, fdiv (S754_finite sa a 0) (S754_finite sb b 0) <> S754_infinity s.
Proof.
  intros Hlt s. unfold fdiv, SFdiv.
  destruct (SFdiv_core_binary prec emax (Zpos a) 0 (Zpos b) 0) as [[mz ez] lz] eqn:E.
  unfold SFdiv_core_binary in E.
  set (e' := Z.min (fexp prec emax (Zdigits2 (Zpos a) + 0 - (Zdigits2 (Zpos b) + 0))) (0 - 0)) in E.
  assert (He' : e' <= 0) by (unfold e'; lia).
  set (m' := match 0 - 0 - e' with Z.pos _ => Z.shiftl (Zpos a) (0 - 0 - e') | 0 => Zpos a | Z.neg _ => 0 end) in E.
  assert (Hm' : m' = Zpos a * 2 ^ (- e')).
  { unfold m'. destruct (0 - 0 - e') as [| p | p] eqn:Es.
    - replace (- e') with 0 by lia. simpl. lia.
    - rewrite Z.shiftl_mul_pow2 by lia. f_equal. f_equal. lia.
    - lia. }
  destruct (Z.div_eucl m' (Zpos b)) as [q r] eqn:Ed.
  injection E as <- <- <-.
  assert (Hq : q = m' / Zpos b) by (unfold Z.div; rewrite Ed; reflexivity).
  assert (Hp : 0 < 2 ^ (- e')) by (apply Z.pow_pos_nonneg; lia).
  apply binary_round_aux_not_infinity.
  - rewrite Hq. apply Z.div_pos; [rewrite Hm' | ]; lia.
  - assumption.
  - rewrite Hq. apply Z.div_lt_upper_bound; [lia |].
    rewrite Hm'. replace (1023 - e') with (1023 + - e') by lia.
    rewrite Z.pow_add_r by lia.
    generalize dependent (2 ^ (- e')). generalize dependent (2 ^ 1023). intros. nia.
Qed.

(** [v / s] exists for every count [v] whose ratio to [s > 0] is below
    [2^1023]. *)
Lemma int_truediv_total (v s : Z) :
  0 <= v -> 0 < s -> v < 2 ^ 1023 * s ->
  exists q, int_truediv v s = Ok q.
Proof.
  intros Hv Hs Hlt. unfold int_truediv.
  destruct s as [| sp | sp]; try lia.
  destruct v as [| vp | vp]; try lia.
  - eexists; reflexivity.
  - pose proof (fdiv_integers_not_infinity (Z.pos vp <? 0) (Z.pos sp <? 0)
                  (Z.to_pos (Z.abs (Z.pos vp))) (Z.to_pos (Z.abs (Z.pos sp)))) as H.
    simpl Z.abs in *. simpl Z.to_pos in *. specialize (H Hlt).
    destruct (fdiv _ _) eqn:E; try (eexists; reflexivity).
    exfalso. apply (H s). reflexivity.
Qed.

Lemma round_half_even_div_nearest (n d : Z) :
  0 < d -> Z.abs (2 * (round_half_even_div n d * d - n)) <= d.
Proof.
  intros Hd. unfold round_half_even_div.
  pose proof (Z.div_mod n d ltac:(lia)) as Hdm.
  pose proof (Z.mod_pos_bound n d Hd) as Hr.
  generalize dependent (n mod d). generalize dependent (n / d). intros q r Hdm Hr.
  destruct (Z.compare_spec (2 * r) d); [destruct (Z.even q) | |]; nia.
Qed.

(** [round(x, 3)] moves a finite [x = m * 2^e] by at most half a
    thousandth before the decimal is converted back: the integer [k] it
    selects satisfies [|k / 1000 - x| <= 1 / 2000]. *)
Lemma thousandths_nearest (m : positive) (e : Z) :
  match e with
  | Zneg p => Z.abs (2 * (thousandths m e * 2 ^ Zpos p - 1000 * Zpos m)) <= 2 ^ Zpos p
  | _ => thousandths m e = 1000 * Zpos m * 2 ^ e
  end.
Proof.
  destruct e as [| p | p]; unfold thousandths; try lia.
  pose proof (round_half_even_div_nearest (Zpos m * 1000) (2 ^ Zpos p)
                ltac:(apply Z.pow_pos_nonneg; lia)) as H.
  replace (1000 * Zpos m) with (Zpos m * 1000) by lia. exact H.
Qed.

Lemma int_truediv_nearest (v s : Z) (q : float) :
  0 <= v -> 0 < s -> int_truediv v s = Ok q -> q = float_of_ratio v (Z.to_pos s).
Proof.
  intros Hv Hs. unfold int_truediv, float_of_ratio.
  destruct s as [| sp | sp]; try lia.
  destruct v as [| vp | vp]; try lia.
  - simpl. intros H; injection H as <-. reflexivity.
  - simpl Z.abs. simpl Z.to_pos. simpl Z.ltb. fold (fdiv (S754_finite false vp 0) (S754_finite false sp 0)).
    destruct (fdiv _ _); intros H; try discriminate; injection H as <-; reflexivity.
Qed.

(** ** Virality checker *)

Section ViralityFacts.
Variable thresholds : ViralityThresholds.

Lemma get_channel_category_small (bound subs : Z) :
  max_subs (small thresholds) = Some bound ->
  subs <= bound ->
  get_channel_category thresholds subs = Ok "small"%string.
Proof.
  intros Hs Hle. unfold get_channel_category. rewrite Hs. simpl.
  destruct (Z.leb_spec subs bound); [reflexivity | lia].
Qed.

Lemma get_channel_category_medium (lo hi subs : Z) :
  max_subs (small thresholds) = Some lo ->
  max_subs (medium thresholds) = Some hi ->
  lo < subs <= hi ->
  get_channel_category thresholds subs = Ok "medium"%string.
Proof.
  intros Hs Hm [Hlo Hhi]. unfold get_channel_category. rewrite Hs, Hm. simpl.
  destruct (Z.leb_spec subs lo); [lia |].
  destruct (Z.leb_spec subs hi); [reflexivity | lia].
Qed.

Lemma get_channel_category_large (lo hi subs : Z) :
  max_subs (small thresholds) = Some lo ->
  max_subs (medium thresholds) = Some hi ->
  lo < subs -> hi < subs ->
  get_channel_category thresholds subs = Ok "large"%string.
Proof.
  intros Hs Hm Hlo Hhi. unfold get_channel_category. rewrite Hs, Hm. simpl.
  destruct (Z.leb_spec subs lo); [lia |].
  destruct (Z.leb_spec subs hi); [lia | reflexivity].
Qed.

(** With both breakpoints configured a category is always selected. *)
Lemma get_channel_category_total (lo hi subs : Z) :
  max_subs (small thresholds) = Some lo ->
  max_subs (medium thresholds) = Some hi ->
  exists category, get_channel_category thresholds subs = Ok category.
Proof.
  intros Hs Hm. unfold get_channel_category. rewrite Hs, Hm. simpl.
  destruct (subs <=? lo); [eexists; reflexivity |].
  destruct (subs <=? hi); eexists; reflexivity.
Qed.
End ViralityFacts.

(** C1, as amended.  With the breakpoints of the small and the medium
    tier configured, for every views count [v >= 0] and subscribers count
    [s > 0] whose quotient is in the range where the division of ints has
    a float result ([v < 2^1023 * s]), [check_virality] returns a result
    [r] such that, with [q] the value of [views / subscribers] (the
    binary64 nearest to the quotient): [r.score] is [round(q, 3)];
    [r.channel_category] is the category selected for [s], "small" up to
    the small breakpoint, "medium" above it up to the medium breakpoint,
    "large" above both; and [r.is_viral] is true exactly when [q >= ] the
    ratio of that very tier, which is also [r.threshold_used].  The
    function is a pure function of the thresholds and its two arguments,
    so it is deterministic and without effect. *)
Theorem check_virality_spec :
  forall (thresholds : ViralityThresholds) (small_max medium_max v s : Z),
    max_subs (small thresholds) = Some small_max ->
    max_subs (medium thresholds) = Some medium_max ->
    0 <= v -> 0 < s -> v < 2 ^ 1023 * s ->
    exists (q : float) (category : string) (tier : ViralityThreshold)
           (r : ViralityResult),
      check_virality thresholds v s = Ok r /\
      int_truediv v s = Ok q /\
      q = float_of_ratio v (Z.to_pos s) /\
      get_channel_category thresholds s = Ok category /\
      (category, tier) =
        (if s <=? small_max then ("small"%string, small thresholds)
         else if s <=? medium_max then ("medium"%string, medium thresholds)
         else ("large"%string, large thresholds)) /\
      score r = py_round3 q /\
      channel_category r = category /\
      threshold_used r = ratio tier /\
      (is_viral r = true <-> fge q (ratio tier) = true) /\
      get_threshold_ratio thresholds category = ratio tier /\
      views r = v /\ subscribers r = s.
Proof.
  intros th a b v s Ha Hb Hv Hs Hlt.
  destruct (int_truediv_total v s Hv Hs Hlt) as [q Hq].
  assert (Hcat : exists category tier,
             get_channel_category th s = Ok category /\
             (category, tier) =
               (if s <=? a then ("small"%string, small th)
                else if s <=? b then ("medium"%string, medium th)
                else ("large"%string, large th)) /\
             get_threshold_ratio th category = ratio tier).
  { unfold get_channel_category. rewrite Ha, Hb. simpl.
    destruct (s <=? a); [| destruct (s <=? b)]; simpl;
      eexists; eexists; (split; [reflexivity | split; reflexivity]). }
  destruct Hcat as (cat & tier & Hcat & Htier & Hratio).
  exists q, cat, tier. eexists. unfold check_virality.
  destruct (Z.leb_spec s 0); [lia |].
  rewrite Hcat, Hq. simpl. rewrite Hratio.
  split; [reflexivity |]. simpl.
  repeat split; try reflexivity; try tauto; try assumption.
  apply (int_truediv_nearest v s q Hv Hs Hq).
Qed.

(** A channel of 50001 subscribers is large: 15001 views are judged
    against the ratio 0.3 and are viral. *)
Lemma check_virality_spec_witness :
  exists r : ViralityResult,
    check_virality docstring_thresholds 15001 50001 = Ok r /\
    channel_category r = "large"%string /\
    threshold_used r = decimal 3 1 /\
    is_viral r = true /\
    score r = decimal 3 1.
Proof.
  destruct (check_virality_spec docstring_thresholds 5000 50000 15001 50001)
    as (q & category & tier & r & Hr & Hq & _ & _ & Htier & Hscore & Hcat & Hth & Hviral & _);
    [reflexivity | reflexivity | lia | lia | vm_compute; reflexivity |].
  exists r. injection Htier as -> ->.
  assert (Eq : q = float_of_ratio 15001 50001)
    by (vm_compute in Hq; injection Hq as <-; vm_compute; reflexivity).
  repeat split.
  - exact Hr.
  - exact Hcat.
  - exact Hth.
  - apply Hviral. rewrite Eq. vm_compute. reflexivity.
  - rewrite Hscore, Eq. vm_compute. reflexivity.
Defined.

(** C1, as stated, fails outside the range of the division and without
    configured breakpoints: [2^1024] views on one subscriber make the
    division raise [OverflowError], and with thresholds that leave
    [max_subs] at its default [None] the comparison of the category
    raises [TypeError]; no result is returned. *)
Lemma check_virality_outside_the_range :
  check_virality docstring_thresholds (2 ^ 1024) 1 = Raise OverflowError /\
  check_virality
    {| small := {| max_subs := None; ratio := decimal 15 1 |};
       medium := {| max_subs := None; ratio := decimal 10 1 |};
       large := {| max_subs := None; ratio := decimal 3 1 |} |} 7500 5000
    = Raise TypeError.
Proof. split; vm_compute; reflexivity. Qed.

(** C7.  For every views count and every subscribers count [s <= 0],
    [check_virality] raises nothing and returns the result of the guard
    branch: [is_viral = False], [score = 0.0], category ["unknown"] (and
    threshold 0.0, the arguments copied).  This holds for every
    configuration of the thresholds, since the guard comes first. *)
Theorem check_virality_no_subscribers :
  forall (thresholds : ViralityThresholds) (v s : Z),
    s <= 0 ->
    check_virality thresholds v s =
      Ok {| is_viral := false;
            score := S754_zero false;
            threshold_used := S754_zero false;
            channel_category := "unknown";
            views := v;
            subscribers := s |}.
Proof.
  intros th v s Hs. unfold check_virality.
  destruct (Z.leb_spec s 0); [reflexivity | lia].
Qed.

Lemma check_virality_no_subscribers_witness :
  0 <= 0 /\
  check_virality docstring_thresholds 1200 0 =
    Ok {| is_viral := false;
          score := S754_zero false;
          threshold_used := S754_zero false;
          channel_category := "unknown";
          views := 1200;
          subscribers := 0 |}.
Proof.
  split; [lia | apply (check_virality_no_subscribers docstring_thresholds 1200 0); lia].
Defined.

(** C8.  With breakpoints [small.max_subs < medium.max_subs], a channel
    with exactly [small.max_subs] subscribers is "small" and one more
    subscriber makes it "medium"; exactly [medium.max_subs] is "medium"
    and one more is "large". *)
Theorem category_boundaries :
  forall (thresholds : ViralityThresholds) (small_max medium_max : Z),
    max_subs (small thresholds) = Some small_max ->
    max_subs (medium thresholds) = Some medium_max ->
    small_max < medium_max ->
    get_channel_category thresholds small_max = Ok "small"%string /\
    get_channel_category thresholds (small_max + 1) = Ok "medium"%string /\
    get_channel_category thresholds medium_max = Ok "medium"%string /\
    get_channel_category thresholds (medium_max + 1) = Ok "large"%string.
Proof.
  intros th a b Ha Hb Hlt. repeat split.
  - apply (get_channel_category_small th a); [assumption | lia].
  - apply (get_channel_category_medium th a b); [assumption | assumption | lia].
  - apply (get_channel_category_medium th a b); [assumption | assumption | lia].
  - apply (get_channel_category_large th a b); [assumption | assumption | lia | lia].
Qed.

Lemma category_boundaries_witness :
  get_channel_category docstring_thresholds 5000 = Ok "small"%string /\
  get_channel_category docstring_thresholds (5000 + 1) = Ok "medium"%string /\
  get_channel_category docstring_thresholds 50000 = Ok "medium"%string /\
  get_channel_category docstring_thresholds (50000 + 1) = Ok "large"%string.
Proof.
  apply (category_boundaries docstring_thresholds 5000 50000);
    [reflexivity | reflexivity | lia].
Defined.

(** C9.  The comparison uses the unrounded ratio and the result carries
    the rounded one: with the thresholds of the docstring, 7498 views on
    5000 subscribers give the ratio 1.4996, below the threshold 1.5, so
    [is_viral] is false, while the returned score [round(1.4996, 3)] is
    1.5 and reaches the returned [threshold_used]. *)
Theorem rounded_score_can_reach_threshold :
  exists (thresholds : ViralityThresholds) (v s : Z) (r : ViralityResult),
    0 < s /\
    check_virality thresholds v s = Ok r /\
    is_viral r = false /\
    fge (score r) (threshold_used r) = true /\
    int_truediv v s = Ok (float_of_ratio 14996 10000) /\
    fge (float_of_ratio 14996 10000) (threshold_used r) = false.
Proof.
  exists docstring_thresholds, 7498, 5000.
  eexists. split; [lia |]. split; [vm_compute; reflexivity |].
  vm_compute. repeat split.
Qed.

(** ** Number extraction *)


Lemma strip_prefix_sound (l s s' : str) :
  strip_prefix l s = Some s' -> s = l ++ s'.
Proof.
  revert s. induction l as [| a l IH]; intros s H; simpl in H.
  - injection H as <-. reflexivity.
  - destruct s as [| b s]; [discriminate |].
    destruct (N.eqb_spec a b) as [-> | _]; [| discriminate].
    simpl. f_equal. apply IH. assumption.
Qed.

Lemma star_match_sound {A : Type} (p : char -> bool) (s : str)
  (k : str -> option A) (a : A) :
  star_match p s k = Some a ->
  exists s1 s2, s = s1 ++ s2 /\ Forall (fun c => p c = true) s1 /\ k s2 = Some a.
Proof.
  induction s as [| c s IH]; simpl; intros H.
  - exists [], []. auto.
  - destruct (p c) eqn:Hp.
    + destruct (star_match p s k) as [a0 |] eqn:Hs.
      * injection H as ->. destruct (IH eq_refl) as (s1 & s2 & -> & Hall & Hk).
        exists (c :: s1), s2. repeat split; auto.
      * exists [], (c :: s). auto.
    + exists [], (c :: s). auto.
Qed.

Lemma firstn_consumed (s1 s2 : str) :
  firstn (List.length (s1 ++ s2) - List.length s2) (s1 ++ s2) = s1.
Proof.
  rewrite length_app.
  replace (List.length s1 + List.length s2 - List.length s2)%nat
    with (List.length s1 + 0)%nat by lia.
  rewrite firstn_app_2. simpl. apply app_nil_r.
Qed.

(** Whatever the matcher accepts is a match in the declarative reading,
    and the continuation has seen the rest of the text with the group
    as the pattern leaves it. *)
Lemma rmatch_sound {A : Type} (r : regex) :
  forall (s : str) (g : option str) (k : str -> option str -> option A) (a : A),
    rmatch r s g k = Some a ->
    exists s1 s2 g', s = s1 ++ s2 /\ matches r s1 g g' /\ k s2 g' = Some a.
Proof.
  induction r as [l | r1 IH1 | p | p | r1 IH1 r2 IH2 | r1 IH1 r2 IH2 | r1 IH1];
    intros s g k a H; simpl in H.
  - destruct (strip_prefix l s) as [s' |] eqn:Hl; [| discriminate].
    apply strip_prefix_sound in Hl. exists l, s', g. simpl. auto.
  - destruct (rmatch r1 s g k) as [a0 |] eqn:Hr.
    + injection H as ->. destruct (IH1 _ _ _ _ Hr) as (s1 & s2 & g' & ? & ? & ?).
      exists s1, s2, g'. simpl. auto.
    + exists [], s, g. simpl. auto.
  - apply star_match_sound in H. destruct H as (s1 & s2 & ? & ? & ?).
    exists s1, s2, g. simpl. auto.
  - destruct s as [| c s]; [discriminate |].
    destruct (p c) eqn:Hp; [| discriminate].
    apply star_match_sound in H. destruct H as (s1 & s2 & -> & Hall & Hk).
    exists (c :: s1), s2, g. simpl. repeat split; auto. discriminate.
  - apply IH1 in H. destruct H as (s1 & s2 & gm & -> & Hm1 & H).
    apply IH2 in H. destruct H as (s3 & s4 & g' & -> & Hm2 & Hk).
    exists (s1 ++ s3), s4, g'. rewrite app_assoc. repeat split; auto.
    simpl. exists s1, s3, gm. auto.
  - destruct (rmatch r1 s g k) as [a0 |] eqn:Hr.
    + injection H as ->. destruct (IH1 _ _ _ _ Hr) as (s1 & s2 & g' & ? & ? & ?).
      exists s1, s2, g'. simpl. auto.
    + destruct (IH2 _ _ _ _ H) as (s1 & s2 & g' & ? & ? & ?).
      exists s1, s2, g'. simpl. auto.
  - apply IH1 in H. destruct H as (s1 & s2 & gi & -> & Hm & Hk).
    rewrite firstn_consumed in Hk.
    exists s1, s2, (Some s1). simpl. repeat split; eauto.
Qed.

Lemma re_search_sound (r : regex) (s : str) (g : option str) :
  re_search r s = Some g ->
  exists before s1 after, s = before ++ s1 ++ after /\ matches r s1 None g.
Proof.
  induction s as [| c s IH]; simpl; intros H.
  - destruct (match_here r []) as [g0 |] eqn:Hm; [| discriminate].
    injection H as ->. unfold match_here in Hm. apply rmatch_sound in Hm.
    destruct Hm as (s1 & s2 & g' & Hs & Hm & Hk). injection Hk as ->.
    exists [], s1, s2. auto.
  - destruct (match_here r (c :: s)) as [g0 |] eqn:Hm.
    + injection H as ->. unfold match_here in Hm. apply rmatch_sound in Hm.
      destruct Hm as (s1 & s2 & g' & Hs & Hm & Hk). injection Hk as ->.
      exists [], s1, s2. auto.
    + destruct (IH H) as (before & s1 & after & -> & Hm').
      exists (c :: before), s1, after. auto.
Qed.

Section ExtractorFacts.
Variable U : Unicode.

Lemma alternatives_matches (units : list str) (s : str) (g g' : option str) :
  units <> [] -> matches (alternatives units) s g g' -> In s units /\ g' = g.
Proof.
  induction units as [| u rest IH]; intros Hne H; [congruence |].
  destruct rest as [| u' rest'].
  - simpl in H. destruct H as [-> ->]. simpl. auto.
  - change (alternatives (u :: u' :: rest'))
      with (Alt (Lit u) (alternatives (u' :: rest'))) in H.
    simpl matches in H. destruct H as [[-> ->] | H].
    + simpl. auto.
    + destruct (IH ltac:(discriminate) H) as [Hin ->]. split; [right; exact Hin | reflexivity].
Qed.

(** A match of a number pattern puts the number in group 1 and has the
    unit right after it. *)
Lemma number_pattern_matches (units : list str) (s : str) (g : option str) :
  matches (number_pattern U units) s None g ->
  exists d grp ws u,
    s = d ++ grp ++ ws ++ u /\ g = Some grp /\
    grp <> [] /\ Forall (fun c => digit_or_dot U c = true) grp /\
    Forall (fun c => is_space U c = true) ws /\
    match units with
    | [] => ws = [] /\ u = []
    | _ => In u units
    end.
Proof.
  destruct units as [| u0 rest].
  - simpl. intros (d & grp & gm & -> & Hd & (gi & Hne & Hall & _) & ->).
    exists d, grp, [], []. rewrite !app_nil_r. repeat split; auto.
  - change (number_pattern U (u0 :: rest)) with
      (Seq (Opt (Lit [dollar]))
         (Seq (Group (Plus (digit_or_dot U)))
            (Seq (Star (is_space U)) (alternatives (u0 :: rest))))).
    intros (d & s2 & gm & -> & Hd & H).
    destruct H as (grp & s3 & g1 & -> & ((gi & Hne & Hall & _) & ->) & H).
    destruct H as (ws & u & g2 & -> & (Hws & ->) & H).
    apply alternatives_matches in H; [| discriminate]. destruct H as [Hin ->].
    exists d, grp, ws, u. repeat split; auto.
Qed.

Lemma number_pattern_attached (units : list str) (text g : str) :
  search_group1 (number_pattern U units) text = Some g ->
  attached U units g text.
Proof.
  unfold search_group1. intros H.
  destruct (re_search (number_pattern U units) text) as [og |] eqn:Hs; [| discriminate].
  apply re_search_sound in Hs. destruct Hs as (before & s1 & after & -> & Hm).
  apply number_pattern_matches in Hm.
  destruct Hm as (d & grp & ws & u & -> & -> & Hne & Hall & Hws & Hu).
  injection H as <-. unfold attached. repeat split; auto.
  exists (before ++ d), ws, u, after. repeat split; auto.
  rewrite <- !app_assoc. reflexivity.
Qed.

Lemma first_parsed_spec (ps : list (regex * float)) (text : str) :
  match first_parsed U ps text with
  | Some x =>
      exists before pattern multiplier after g y,
        ps = before ++ (pattern, multiplier) :: after /\
        Forall (fun p => skipped U p text) before /\
        search_group1 pattern text = Some g /\
        float_of_digits U g = Some y /\
        x = fmul y multiplier
  | None => Forall (fun p => skipped U p text) ps
  end.
Proof.
  induction ps as [| [pattern multiplier] rest IH]; simpl; [constructor |].
  destruct (search_group1 pattern text) as [g |] eqn:Hs.
  - destruct (float_of_digits U g) as [y |] eqn:Hf.
    + exists [], pattern, multiplier, rest, g, y. repeat split; auto.
    + destruct (first_parsed U rest text) as [x |].
      * destruct IH as (before & p & m & after & g' & y & -> & Hsk & ? & ? & ?).
        exists ((pattern, multiplier) :: before), p, m, after, g', y.
        repeat split; auto. constructor; [| assumption].
        unfold skipped. simpl. rewrite Hs. assumption.
      * constructor; [| assumption]. unfold skipped. simpl. rewrite Hs. assumption.
  - destruct (first_parsed U rest text) as [x |].
    + destruct IH as (before & p & m & after & g' & y & -> & Hsk & ? & ? & ?).
      exists ((pattern, multiplier) :: before), p, m, after, g', y.
      repeat split; auto. constructor; [| assumption].
      unfold skipped. simpl. rewrite Hs. exact I.
    + constructor; [| assumption]. unfold skipped. simpl. rewrite Hs. exact I.
Qed.

Lemma split_at_dot_spec (s a : str) (b : option str) :
  split_at_dot s = (a, b) ->
  (b = None /\ s = a) \/ (exists f, b = Some f /\ s = a ++ dot :: f).
Proof.
  revert a b. induction s as [| c s IH]; simpl; intros a b H.
  - injection H as <- <-. auto.
  - destruct (N.eqb_spec c dot) as [-> | Hne].
    + injection H as <- <-. right. exists s. auto.
    + destruct (split_at_dot s) as [a' b'] eqn:E. injection H as <- <-.
      destruct (IH a' b' eq_refl) as [[-> ->] | (f & -> & ->)]; [auto |].
      right. exists f. auto.
Qed.

Lemma digits_value_all_digits (s : str) :
  forall acc n, digits_value U s acc = Some n ->
    Forall (fun c => is_digit U c = true) s.
Proof.
  induction s as [| c s IH]; simpl; intros acc n H; [constructor |].
  unfold is_digit at 1.
  destruct (digit_value U c) as [d |] eqn:Hd; [| discriminate].
  constructor.
  - unfold is_digit. rewrite Hd. reflexivity.
  - eapply IH. eassumption.
Qed.

(** A string that [float] accepts contains a digit. *)
Lemma float_of_digits_has_digit (g : str) (y : float) :
  float_of_digits U g = Some y -> exists c, In c g /\ is_digit U c = true.
Proof.
  unfold float_of_digits. destruct (split_at_dot g) as [a b] eqn:E.
  apply split_at_dot_spec in E.
  set (f := match b with Some f => f | None => [] end).
  destruct (a ++ f) as [| c ds] eqn:Eds; [discriminate |].
  destruct (digits_value U (c :: ds) 0) as [n |] eqn:Hv; [| discriminate].
  intros _. apply digits_value_all_digits in Hv.
  assert (Hc : is_digit U c = true) by (inversion Hv; assumption).
  assert (Hin : In c (a ++ f)) by (rewrite Eds; left; reflexivity).
  exists c. split; [| assumption].
  destruct E as [[-> ->] | (f' & -> & ->)]; subst f.
  - rewrite app_nil_r in Hin. assumption.
  - apply in_app_or in Hin. apply in_or_app.
    destruct Hin; [left | right; right]; assumption.
Qed.
End ExtractorFacts.

(** The units and the multiplier of a pattern of [_extract_number]. *)
Lemma number_patterns_member (U : Unicode) (before after : list (regex * float))
  (pattern : regex) (multiplier : float) :
  number_patterns U = before ++ (pattern, multiplier) :: after ->
  exists units, pattern = number_pattern U units.
Proof.
  intros H.
  assert (Hin : In (pattern, multiplier) (number_patterns U)).
  { rewrite H. apply in_or_app. right. left. reflexivity. }
  destruct Hin as [E | [E | [E | [E | []]]]]; injection E as <- _.
  - exists billion_units. reflexivity.
  - exists million_units. reflexivity.
  - exists thousand_units. reflexivity.
  - exists []. reflexivity.
Qed.

Lemma extract_number_decided (U : Unicode) (text : str) :
  match _extract_number U text with
  | Some x =>
      exists before units multiplier after g y,
        number_patterns U =
          before ++ (number_pattern U units, multiplier) :: after /\
        Forall (fun p => skipped U p (normalize U text)) before /\
        search_group1 (number_pattern U units) (normalize U text) = Some g /\
        float_of_digits U g = Some y /\
        x = fmul y multiplier /\
        attached U units g (normalize U text)
  | None =>
      Forall (fun p => skipped U p (normalize U text)) (number_patterns U)
  end.
Proof.
  unfold _extract_number.
  pose proof (first_parsed_spec U (number_patterns U) (normalize U text)) as H.
  destruct (first_parsed U (number_patterns U) (normalize U text)) as [x |]; [| exact H].
  destruct H as (before & pattern & multiplier & after & g & y & Hps & Hsk & Hs & Hf & Hx).
  destruct (number_patterns_member U _ _ _ _ Hps) as [units ->].
  exists before, units, multiplier, after, g, y. repeat split; auto.
  - apply number_pattern_attached in Hs. apply Hs.
  - apply number_pattern_attached in Hs. apply Hs.
  - apply number_pattern_attached in Hs. apply Hs.
Qed.

Lemma extract_number_needs_digit (U : Unicode) (text : str) :
  Forall (fun c => is_digit U c = false) (normalize U text) ->
  _extract_number U text = None.
Proof.
  intros Hno. pose proof (extract_number_decided U text) as H.
  destruct (_extract_number U text) as [x |]; [| reflexivity].
  destruct H as (before & units & m & after & g & y & _ & _ & _ & Hf & _ & Hatt).
  apply float_of_digits_has_digit in Hf. destruct Hf as (c & Hin & Hc).
  destruct Hatt as (_ & _ & b & ws & u & a & Ht & _).
  rewrite Forall_forall in Hno. rewrite Ht in Hno.
  rewrite (Hno c) in Hc; [discriminate |].
  apply in_or_app. right. apply in_or_app. left. assumption.
Qed.

(** C5, as amended.  For every text, [_extract_number] goes through the
    billion, million, thousand and bare-number patterns in that order, on
    the text lower-cased and stripped of commas and spaces.  The result
    comes from the first pattern that matches AND whose matched number
    [float] accepts; every earlier pattern was skipped because it did
    not match or because its number was malformed.  The multiplier of a
    unit pattern is applied only when the matched number is directly
    followed, after optional white space, by one of the unit strings of
    that pattern; the bare pattern multiplies by one.  When no pattern
    yields a number the value is [None] (the function raises nothing),
    and this is the case whenever the stripped text has no digit.
    "$1.5 million" and "$1,500,000" give 1500000.0, "no numbers here"
    gives [None]. *)
Theorem extract_number_spec :
  (forall (U : Unicode) (text : str),
     number_patterns U =
       [ (number_pattern U billion_units, decimal 1000000000 0);
         (number_pattern U million_units, decimal 1000000 0);
         (number_pattern U thousand_units, decimal 1000 0);
         (number_pattern U [], decimal 1 0) ] /\
     match _extract_number U text with
     | Some x =>
         exists before units multiplier after g y,
           number_patterns U =
             before ++ (number_pattern U units, multiplier) :: after /\
           Forall (fun p => skipped U p (normalize U text)) before /\
           search_group1 (number_pattern U units) (normalize U text) = Some g /\
           float_of_digits U g = Some y /\
           x = fmul y multiplier /\
           attached U units g (normalize U text)
     | None =>
         Forall (fun p => skipped U p (normalize U text)) (number_patterns U)
     end) /\
  (forall (U : Unicode) (text : str),
     Forall (fun c => is_digit U c = false) (normalize U text) ->
     _extract_number U text = None) /\
  _extract_number ascii_unicode (str_of "$1.5 million") = Some (decimal 1500000 0) /\
  _extract_number ascii_unicode (str_of "$1,500,000") = Some (decimal 1500000 0) /\
  _extract_number ascii_unicode (str_of "no numbers here") = None.
Proof.
  split; [| split; [| split; [| split]]].
  - intros U text. split; [reflexivity | apply extract_number_decided].
  - apply extract_number_needs_digit.
  - vm_compute. reflexivity.
  - vm_compute. reflexivity.
  - vm_compute. reflexivity.
Qed.

Lemma extract_number_spec_witness :
  Forall (fun c => is_digit ascii_unicode c = false)
    (normalize ascii_unicode (str_of "no numbers here")) /\
  _extract_number ascii_unicode (str_of "no numbers here") = None.
Proof.
  assert (H : Forall (fun c => is_digit ascii_unicode c = false)
                (normalize ascii_unicode (str_of "no numbers here"))).
  { vm_compute. repeat constructor. }
  split; [exact H |].
  exact (proj1 (proj2 extract_number_spec) ascii_unicode (str_of "no numbers here") H).
Defined.

(** C5, as stated, fails on "1.2.3 billion 5k": the billion pattern is the
    first pattern that matches, with the malformed number "1.2.3"; the
    loop goes on after the [ValueError] and the thousand pattern gives
    5000.0, where "the first matching pattern wins" gives no number. *)
Lemma first_match_does_not_win :
  let text := str_of "1.2.3 billion 5k" in
  let normalized := normalize ascii_unicode text in
  search_group1 (number_pattern ascii_unicode billion_units) normalized
    = Some (str_of "1.2.3") /\
  first_match_wins ascii_unicode (number_patterns ascii_unicode) normalized = None /\
  _extract_number ascii_unicode text = Some (decimal 5000 0) /\
  _extract_number ascii_unicode text
    <> first_match_wins ascii_unicode (number_patterns ascii_unicode) normalized.
Proof.
  vm_compute. repeat split; discriminate.
Qed.

(** The unit letters [m] and [k] are matched without a word boundary and
    after the spaces are removed, so the first letter of a following word
    counts as a unit. *)
Example unit_letter_inside_word :
  _extract_number ascii_unicode (str_of "$100 monthly")
    = Some (decimal 100000000 0).
Proof. vm_compute. reflexivity. Qed.

(** ** Claim extractor *)

Section ClaimExtractorFacts.
Variable float_of_str : str -> option float.

Lemma collect_claims_result (items : list json) (claims : list ExtractedClaim) :
  collect_claims float_of_str items = Ok claims ->
  claims = kept_claims float_of_str items.
Proof.
  revert claims. induction items as [| item rest IH]; simpl; intros claims H.
  - injection H as <-. reflexivity.
  - unfold kept_claims. simpl. fold (kept_claims float_of_str rest).
    destruct (claim_of_item float_of_str item) as [[c |] | e].
    + destruct (collect_claims float_of_str rest) as [l |]; [| discriminate].
      simpl in H. injection H as <-. rewrite (IH l eq_refl). reflexivity.
    + simpl. apply IH. assumption.
    + destruct e; try discriminate. simpl. apply IH. assumption.
Qed.

Lemma collect_claims_total (items : list json) :
  Forall (fun item => aborts float_of_str item = false) items ->
  collect_claims float_of_str items = Ok (kept_claims float_of_str items).
Proof.
  induction 1 as [| item rest Hitem _ IH]; [reflexivity |].
  simpl. unfold kept_claims. simpl. fold (kept_claims float_of_str rest).
  unfold aborts in Hitem.
  destruct (claim_of_item float_of_str item) as [[c |] | e].
  - rewrite IH. reflexivity.
  - exact IH.
  - destruct e; try discriminate. exact IH.
Qed.

Lemma kept_claims_length (items : list json) :
  (List.length (kept_claims float_of_str items) <= List.length items)%nat.
Proof.
  induction items as [| item rest IH]; [simpl; lia |].
  unfold kept_claims. simpl. fold (kept_claims float_of_str rest).
  rewrite length_app.
  destruct (claim_of_item float_of_str item) as [[c |] | e]; simpl; lia.
Qed.

Lemma kept_claims_all (items : list json) :
  Forall (fun item => exists c, claim_of_item float_of_str item = Ok (Some c)) items ->
  List.length (kept_claims float_of_str items) = List.length items.
Proof.
  induction 1 as [| item rest [c Hc] _ IH]; [reflexivity |].
  unfold kept_claims. simpl. fold (kept_claims float_of_str rest).
  rewrite Hc. simpl. rewrite IH. reflexivity.
Qed.

Lemma slice_to_nonneg {A : Type} (l : list A) (n : Z) :
  0 <= n -> slice_to l n = firstn (Z.to_nat n) l.
Proof.
  intros Hn. unfold slice_to. destruct (Z.ltb_spec n 0); [lia | reflexivity].
Qed.

Lemma claims_from_data_result (claims_data : list json) (max_claims : Z)
  (claims : list ExtractedClaim) :
  claims_from_data float_of_str claims_data max_claims = Ok claims ->
  claims = kept_claims float_of_str (slice_to claims_data max_claims).
Proof.
  unfold claims_from_data.
  destruct (collect_claims float_of_str (slice_to claims_data max_claims)) as [l |] eqn:E;
    [| discriminate].
  simpl. destruct (log_claims_extracted l); [| discriminate].
  simpl. intros H. injection H as <-. apply collect_claims_result. assumption.
Qed.

Lemma claims_from_data_total (claims_data : list json) (max_claims : Z) :
  Forall (fun item => aborts float_of_str item = false)
    (slice_to claims_data max_claims) ->
  forallb (fun c => hashable (category c))
    (kept_claims float_of_str (slice_to claims_data max_claims)) = true ->
  claims_from_data float_of_str claims_data max_claims
    = Ok (kept_claims float_of_str (slice_to claims_data max_claims)).
Proof.
  intros Hno Hhash. unfold claims_from_data.
  rewrite (collect_claims_total _ Hno). simpl.
  unfold log_claims_extracted. rewrite Hhash. reflexivity.
Qed.
End ClaimExtractorFacts.

Section ClaimFilterFacts.
Variable float_of_str : str -> option float.

(** The test of the loop body is the filter. *)
Lemma claim_of_item_passes (item : json) (c : ExtractedClaim) :
  claim_of_item float_of_str item = Ok (Some c) <-> passes_filter float_of_str item c.
Proof.
  unfold claim_of_item, passes_filter. split.
  - destruct item as [| | | | | | d]; try discriminate.
    destruct (py_float float_of_str _) as [x |] eqn:Hx; [| discriminate].
    simpl.
    destruct (json_truthy _) eqn:Ht; [| discriminate].
    destruct (fge x (decimal 5 1)) eqn:Hge; [| discriminate].
    simpl. intros H. injection H as <-.
    exists d, x. auto.
  - intros (d & x & -> & Hx & Hge & Ht & ->).
    rewrite Hx. simpl. rewrite Ht, Hge. reflexivity.
Qed.

Lemma aborts_breaks (item : json) :
  aborts float_of_str item = true <-> breaks_extraction float_of_str item.
Proof.
  unfold aborts, claim_of_item, breaks_extraction.
  destruct item as [| | | | | | d]; simpl; try tauto.
  destruct (py_float float_of_str _) as [x | e]; simpl.
  - split; [| intros (e & H & _); discriminate].
    destruct (json_truthy _ && fge x (decimal 5 1)); discriminate.
  - split.
    + intros H. exists e. split; [reflexivity |]. intros ->. discriminate.
    + intros (e' & H & Hne). injection H as ->. destruct e'; congruence.
Qed.

Lemma kept_claims_cons (item : json) (rest : list json) :
  kept_claims float_of_str (item :: rest)
    = match claim_of_item float_of_str item with
      | Ok (Some c) => c :: kept_claims float_of_str rest
      | _ => kept_claims float_of_str rest
      end.
Proof.
  unfold kept_claims. simpl.
  destruct (claim_of_item float_of_str item) as [[c |] | e]; reflexivity.
Qed.

Lemma kept_claims_filtered (items : list json) :
  filtered_in_order float_of_str items (kept_claims float_of_str items).
Proof.
  induction items as [| item rest IH]; [constructor |].
  rewrite kept_claims_cons.
  destruct (claim_of_item float_of_str item) as [[c |] | e] eqn:E.
  - apply filtered_keep; [apply claim_of_item_passes; exact E | exact IH].
  - apply filtered_drop; [| exact IH].
    intros c Hc. apply claim_of_item_passes in Hc. congruence.
  - apply filtered_drop; [| exact IH].
    intros c Hc. apply claim_of_item_passes in Hc. congruence.
Qed.

Lemma kept_claims_in (items : list json) (c : ExtractedClaim) :
  In c (kept_claims float_of_str items) <->
  exists item, In item items /\ passes_filter float_of_str item c.
Proof.
  induction items as [| item rest IH].
  - simpl. split; [tauto | intros (i & [] & _)].
  - rewrite kept_claims_cons. split.
    + destruct (claim_of_item float_of_str item) as [[c0 |] | e] eqn:E.
      * intros [<- | Hin].
        -- exists item. split; [left; reflexivity | apply claim_of_item_passes; exact E].
        -- apply IH in Hin. destruct Hin as (i & Hi & Hp). exists i. split; [right |]; assumption.
      * intros Hin. apply IH in Hin. destruct Hin as (i & Hi & Hp).
        exists i. split; [right |]; assumption.
      * intros Hin. apply IH in Hin. destruct Hin as (i & Hi & Hp).
        exists i. split; [right |]; assumption.
    + intros (i & [<- | Hi] & Hp).
      * apply claim_of_item_passes in Hp. rewrite Hp. left. reflexivity.
      * assert (Hin : In c (kept_claims float_of_str rest))
          by (apply IH; exists i; split; assumption).
        destruct (claim_of_item float_of_str item) as [[c0 |] | e];
          [right |  |]; exact Hin.
Qed.

(** One item that breaks the extraction ends the loop with its
    exception. *)
Lemma collect_claims_broken (items : list json) :
  Exists (fun item => aborts float_of_str item = true) items ->
  exists e, collect_claims float_of_str items = Raise e.
Proof.
  induction items as [| item rest IH]; intros H; [inversion H |].
  simpl. unfold aborts in H.
  destruct (claim_of_item float_of_str item) as [[c |] | e] eqn:E.
  - inversion H as [? ? H0 | ? ? H0]; subst; [rewrite E in H0; discriminate |].
    destruct (IH H0) as [e He]. rewrite He. exists e. reflexivity.
  - inversion H as [? ? H0 | ? ? H0]; subst; [rewrite E in H0; discriminate |].
    exact (IH H0).
  - destruct e; try (eexists; reflexivity).
    inversion H as [? ? H0 | ? ? H0]; subst; [rewrite E in H0; discriminate |].
    exact (IH H0).
Qed.

Lemma claims_from_data_raises (claims_data : list json) (max_claims : Z) :
  Exists (fun item => aborts float_of_str item = true)
    (slice_to claims_data max_claims) \/
  forallb (fun c => hashable (category c))
    (kept_claims float_of_str (slice_to claims_data max_claims)) = false ->
  exists e, claims_from_data float_of_str claims_data max_claims = Raise e.
Proof.
  intros H. unfold claims_from_data.
  destruct (existsb (aborts float_of_str) (slice_to claims_data max_claims)) eqn:Ex.
  - apply existsb_exists in Ex. destruct Ex as (item & Hin & Hab).
    destruct (collect_claims_broken (slice_to claims_data max_claims)) as [e He].
    { apply Exists_exists. exists item. split; assumption. }
    rewrite He. exists e. reflexivity.
  - assert (Hno : Forall (fun item => aborts float_of_str item = false)
                    (slice_to claims_data max_claims)).
    { apply Forall_forall. intros item Hin.
      destruct (aborts float_of_str item) eqn:Hab; [| reflexivity].
      assert (existsb (aborts float_of_str) (slice_to claims_data max_claims) = true)
        by (apply existsb_exists; exists item; split; assumption).
      congruence. }
    destruct H as [H | H].
    + apply Exists_exists in H. destruct H as (item & Hin & Hab).
      rewrite Forall_forall in Hno. rewrite (Hno item Hin) in Hab. discriminate.
    + rewrite (collect_claims_total float_of_str _ Hno). simpl.
      unfold log_claims_extracted. rewrite H. exists TypeError. reflexivity.
Qed.
End ClaimFilterFacts.

(** C3, as amended.  For every response and every bound
    [max_claims >= 0], [extract_claims] first cuts the response to its
    first [max_claims] items and only then filters that prefix.  Provided
    every item of the prefix is an object whose confidence [float]
    accepts or rejects with [ValueError], and the category of every kept
    item can be put in a set, claims are returned, and whenever claims
    are returned they are the claims of the items of the prefix that
    satisfy the filter (a claim value that is not empty and a confidence
    of at least 0.5), one for one and in the order of the response, so at
    most [max_claims]; an item whose confidence is rejected with
    [ValueError] does not satisfy it and is skipped.  When the response
    has at least [max_claims] items and the first [max_claims] all
    satisfy the filter, exactly [max_claims] claims are returned.

    The fourth and fifth parts record what the code does outside the
    proviso: lines 110-133 raise, and [extract_claims] returns the empty
    list for the whole response. *)
Theorem claims_truncated_then_filtered :
  forall (float_of_str : str -> option float) (claims_data : list json)
         (max_claims : Z),
    0 <= max_claims ->
    let considered := firstn (Z.to_nat max_claims) claims_data in
    let hashable_categories :=
      forall item c, In item considered -> passes_filter float_of_str item c ->
                     hashable (category c) = true in
    (forall claims,
        claims_from_data float_of_str claims_data max_claims = Ok claims ->
        filtered_in_order float_of_str considered claims /\
        Z.of_nat (List.length claims) <= max_claims) /\
    (Forall (fun item => ~ breaks_extraction float_of_str item) considered ->
     hashable_categories ->
     exists claims,
       claims_from_data float_of_str claims_data max_claims = Ok claims) /\
    (Forall (fun item => exists c, passes_filter float_of_str item c) considered ->
     hashable_categories ->
     max_claims <= Z.of_nat (List.length claims_data) ->
     exists claims,
       claims_from_data float_of_str claims_data max_claims = Ok claims /\
       Z.of_nat (List.length claims) = max_claims) /\
    (Exists (breaks_extraction float_of_str) considered \/
     (exists item c, In item considered /\ passes_filter float_of_str item c /\
                     hashable (category c) = false) ->
     exists e, claims_from_data float_of_str claims_data max_claims = Raise e) /\
    (forall (World : Type) (ask_model : str -> World -> result (list json) * World)
            (text : str) (w w' : World),
        50 <= Z.of_nat (List.length text) ->
        ask_model (prompt_text text) w = (Ok claims_data, w') ->
        extract_claims float_of_str World ask_model text max_claims w =
          (match claims_from_data float_of_str claims_data max_claims with
           | Ok claims => claims
           | Raise _ => []
           end, w')) /\
    (forall s : str, json_truthy (JStr s) = true <-> s <> []).
Proof.
  intros fos data n Hn considered hashable_categories.
  assert (Hslice : slice_to data n = considered) by (apply slice_to_nonneg; assumption).
  assert (Hhash : hashable_categories ->
            forallb (fun c => hashable (category c)) (kept_claims fos considered) = true).
  { intros H. apply forallb_forall. intros c Hc.
    apply kept_claims_in in Hc. destruct Hc as (item & Hin & Hp).
    exact (H item c Hin Hp). }
  assert (Hsafe : Forall (fun item => ~ breaks_extraction fos item) considered ->
            Forall (fun item => aborts fos item = false) considered).
  { intros H. eapply Forall_impl; [| exact H]. intros item Hno.
    destruct (aborts fos item) eqn:E; [| reflexivity].
    exfalso. apply Hno. apply aborts_breaks. exact E. }
  split; [| split; [| split; [| split; [| split]]]].
  - intros claims H. apply claims_from_data_result in H. rewrite Hslice in H.
    subst claims. split; [apply kept_claims_filtered |].
    pose proof (kept_claims_length fos considered) as Hlen.
    pose proof (firstn_le_length (Z.to_nat n) data) as Hle.
    fold considered in Hle. lia.
  - intros Hno Hh. exists (kept_claims fos considered).
    rewrite <- Hslice in *. apply claims_from_data_total; auto.
  - intros Hall Hh Hlen. exists (kept_claims fos considered). split.
    + rewrite <- Hslice in *. apply claims_from_data_total; [| auto].
      apply Forall_forall. intros item Hin.
      rewrite Forall_forall in Hall. destruct (Hall item Hin) as [c Hc].
      apply claim_of_item_passes in Hc. unfold aborts. rewrite Hc. reflexivity.
    + rewrite (kept_claims_all fos considered).
      * unfold considered. rewrite length_firstn. lia.
      * eapply Forall_impl; [| exact Hall]. intros item [c Hc]. exists c.
        apply claim_of_item_passes. exact Hc.
  - intros H. apply claims_from_data_raises. rewrite Hslice.
    destruct H as [H | H].
    + left. apply Exists_exists in H. destruct H as (item & Hin & Hb).
      apply Exists_exists. exists item. split; [exact Hin |].
      apply aborts_breaks. exact Hb.
    + right. destruct H as (item & c & Hin & Hp & Hc).
      destruct (forallb _ _) eqn:E; [| reflexivity].
      rewrite forallb_forall in E. rewrite E in Hc; [discriminate |].
      apply kept_claims_in. exists item. split; assumption.
  - intros World ask_model text w w' Hlen Hask. unfold extract_claims.
    destruct (Z.ltb_spec (Z.of_nat (List.length text)) 50); [lia |].
    cbv zeta.
    destruct (ask_model _ w) as [answer w0] eqn:E.
    injection Hask as -> ->. simpl.
    destruct (claims_from_data fos data n); reflexivity.
  - intros s. destruct s; simpl; split; intros H; congruence.
Qed.

(** Of a response of four items with [max_claims = 3], the first three
    are looked at: one is kept, one has a confidence that [float] rejects
    and is skipped, one has a low confidence.  A [null] confidence among
    the items looked at ends the extraction. *)
Lemma claims_truncated_then_filtered_witness :
  let high := JObj [(str_of "claim", JStr (str_of "Aave TVL is $10 billion"));
                    (str_of "category", JStr (str_of "tvl"));
                    (str_of "confidence", JFloat (decimal 9 1))] in
  let shaky := JObj [(str_of "claim", JStr (str_of "ETH is up"));
                     (str_of "confidence", JStr (str_of "high"))] in
  let low := JObj [(str_of "claim", JStr (str_of "maybe"));
                   (str_of "confidence", JFloat (decimal 3 1))] in
  let broken := JObj [(str_of "claim", JStr (str_of "Aave exists"));
                      (str_of "confidence", JNull)] in
  (exists claims,
     claims_from_data (fun _ => None) [high; shaky; low; high] 3 = Ok claims /\
     filtered_in_order (fun _ => None) [high; shaky; low] claims /\
     List.length claims = 1%nat) /\
  (exists e, claims_from_data (fun _ => None) [high; broken] 2 = Raise e).
Proof.
  intros high shaky low broken.
  pose proof (claims_truncated_then_filtered (fun _ => None) [high; shaky; low; high] 3
                ltac:(lia)) as (Hresult & Hproduced & _).
  pose proof (claims_truncated_then_filtered (fun _ => None) [high; broken] 2
                ltac:(lia)) as (_ & _ & _ & Hraise & _).
  split.
  - destruct Hproduced as [claims Hclaims].
    + repeat constructor.
      * intros (e & H & _). vm_compute in H. discriminate.
      * intros (e & H & Hne). vm_compute in H. injection H as <-. apply Hne. reflexivity.
      * intros (e & H & _). vm_compute in H. discriminate.
    + intros item c [<- | [<- | [<- | []]]] (d & x & E & _ & _ & _ & ->);
        injection E as <-; vm_compute; reflexivity.
    + exists claims. split; [exact Hclaims |]. split.
      * exact (proj1 (Hresult claims Hclaims)).
      * vm_compute in Hclaims. injection Hclaims as <-. reflexivity.
  - apply Hraise. left. apply Exists_cons_tl, Exists_cons_hd.
    exists TypeError. split; [vm_compute; reflexivity | discriminate].
Defined.

(** C3, as stated, fails on a response whose first item has confidence
    0.3 and whose second has 0.9, with [max_claims = 1]: one item passes
    the filter, so filtering first would return one claim, while the code
    looks at the first item only and returns none. *)
Lemma filter_is_after_truncation :
  let low := JObj [(str_of "claim", JStr (str_of "maybe"));
                   (str_of "confidence", JFloat (decimal 3 1))] in
  let high := JObj [(str_of "claim", JStr (str_of "Aave TVL is $10 billion"));
                    (str_of "category", JStr (str_of "tvl"));
                    (str_of "confidence", JFloat (decimal 9 1))] in
  let response := [low; high] in
  let text := repeat 97%N 50 in
  List.length (kept_claims (fun _ => None) response) = 1%nat /\
  List.length (filter_then_truncate (fun _ => None) response 1) = 1%nat /\
  claims_from_data (fun _ => None) response 1 = Ok [] /\
  fst (extract_claims (fun _ => None) unit (fun _ w => (Ok response, w)) text 1 tt) = [] /\
  claims_from_data (fun _ => None) response 1
    <> Ok (filter_then_truncate (fun _ => None) response 1).
Proof.
  vm_compute. repeat split; discriminate.
Qed.

(** [extract_claims] returns the claims of lines 110-133 when they are
    produced, and the empty list when anything was raised. *)
Lemma extract_claims_from_data (float_of_str : str -> option float)
  (World : Type) (ask_model : str -> World -> result (list json) * World)
  (text : str) (max_claims : Z) (w w' : World) (claims_data : list json) :
  50 <= Z.of_nat (List.length text) <= 15000 ->
  ask_model text w = (Ok claims_data, w') ->
  extract_claims float_of_str World ask_model text max_claims w =
    (match claims_from_data float_of_str claims_data max_claims with
     | Ok claims => claims
     | Raise _ => []
     end, w').
Proof.
  intros [Hlo Hhi] Hask. unfold extract_claims.
  destruct (Z.ltb_spec (Z.of_nat (List.length text)) 50); [lia |].
  destruct (Z.ltb_spec 15000 (Z.of_nat (List.length text))); [lia |].
  rewrite Hask. simpl.
  destruct (claims_from_data float_of_str claims_data max_claims); reflexivity.
Qed.

(** ** Fact verifier *)

Section VerifierFacts.
Variable U : Unicode.
Variable float_of_str : str -> option float.
Variable World : Type.
Variable ask_model : str -> World -> result (list json) * World.
Variable get_protocol_tvl : json -> World -> option FactData * World.
Variable get_chain_tvl : json -> World -> option FactData * World.
Variable get_token_price : json -> World -> option FactData * World.
Variable get_yields : json -> World -> list dict * World.

Local Notation "'verify_one'" :=
  (verify_single_claim U World get_protocol_tvl get_chain_tvl get_token_price
     get_yields).

(** The loop over the entities stops at the first entity with data and
    returns what the body of [if data:] returns for it. *)
Lemma tvl_loop_first_answer (c : ExtractedClaim) (ents : list json)
  (w w' : World) (entity : json) (d : FactData) :
  first_answer get_protocol_tvl ents w entity d w' ->
  tvl_loop U World get_protocol_tvl c ents w = (tvl_found U c d, w').
Proof.
  induction 1 as [entity rest w w' d Hd | e rest w w1 w' entity d Hnone _ IH];
    simpl; unfold io_bind, call.
  - rewrite Hd. reflexivity.
  - rewrite Hnone. exact IH.
Qed.

Lemma price_loop_first_answer (c : ExtractedClaim) (ents : list json)
  (w w' : World) (entity : json) (d : FactData) :
  first_answer get_token_price ents w entity d w' ->
  price_loop U World get_token_price c ents w = (price_found U c d, w').
Proof.
  induction 1 as [entity rest w w' d Hd | e rest w w1 w' entity d Hnone _ IH];
    simpl; unfold io_bind, call.
  - rewrite Hd. reflexivity.
  - rewrite Hnone. exact IH.
Qed.

Lemma verify_tvl_first_answer (c : ExtractedClaim) (ents : list json)
  (w w' : World) (entity : json) (d : FactData) :
  json_is_str (category c) "tvl" = true ->
  iterate (entities c) = Ok ents ->
  first_answer get_protocol_tvl ents w entity d w' ->
  verify_one c w = (tvl_found U c d, w').
Proof.
  intros Hcat Hents Hfirst. unfold verify_single_claim. rewrite Hcat.
  unfold _verify_tvl_claim, io_bind, lift. rewrite Hents.
  apply tvl_loop_first_answer with (entity := entity). assumption.
Qed.

Lemma verify_price_first_answer (c : ExtractedClaim) (ents : list json)
  (w w' : World) (entity : json) (d : FactData) :
  json_is_str (category c) "price" = true ->
  iterate (entities c) = Ok ents ->
  first_answer get_token_price ents w entity d w' ->
  verify_one c w = (price_found U c d, w').
Proof.
  intros Hcat Hents Hfirst. unfold verify_single_claim.
  assert (Hnot : json_is_str (category c) "tvl" = false).
  { unfold json_is_str in *. destruct (category c); try discriminate.
    unfold str_eqb in *.
    destruct (list_eq_dec N.eq_dec s (str_of "price")) as [-> |]; [| discriminate].
    reflexivity. }
  rewrite Hnot, Hcat.
  unfold _verify_price_claim, io_bind, lift. rewrite Hents.
  apply price_loop_first_answer with (entity := entity). assumption.
Qed.

(** A quotient exists only for a divisor that is not zero. *)
Lemma number_div_float_truthy (a : number) (y ratio : float) :
  number_div_float a y = Ok ratio -> float_truthy y = true.
Proof.
  unfold number_div_float, float_truediv, float_truthy.
  destruct (float_of_number a); simpl; [| discriminate].
  destruct (is_zero y); [discriminate | reflexivity].
Qed.

(** A number that could be divided can be formatted. *)
Lemma as_number_formatted (j : json) (a : number) (y ratio : float) :
  as_number j = Ok a -> number_div_float a y = Ok ratio -> as_formatted j = Ok a.
Proof.
  destruct j; simpl; intros H Hdiv; try discriminate; try exact H.
  injection H as <-. unfold number_div_float in Hdiv. simpl in Hdiv.
  destruct (float_of_int n); [reflexivity | discriminate].
Qed.

(** The comparison branch of [_verify_tvl_claim]. *)
Lemma tvl_found_compared (c : ExtractedClaim) (d : FactData) (text : str)
  (claimed ratio : float) (observed : number) :
  claim c = JStr text ->
  _extract_number U text = Some claimed ->
  as_number (data_value d) = Ok observed ->
  number_div_float observed claimed = Ok ratio ->
  tvl_found U c d =
    Ok {| result_claim := c;
          status := if between (decimal 8 1) ratio (decimal 12 1)
                    then VERIFIED else OUTDATED;
          source := Some defillama_name;
          verified_value := Some (Dollars0 observed);
          original_value := Some (Dollars0 (NFloat claimed));
          notes := if between (decimal 8 1) ratio (decimal 12 1)
                   then None else Some (TvlDiffers ratio) |}.
Proof.
  intros Hc Hx Hobs Hdiv. unfold tvl_found, extract_number_of.
  rewrite Hc, Hx. simpl.
  rewrite (number_div_float_truthy _ _ _ Hdiv).
  unfold json_div_float. rewrite Hobs. simpl. rewrite Hdiv. simpl.
  rewrite (as_number_formatted _ _ _ _ Hobs Hdiv).
  destruct (between (decimal 8 1) ratio (decimal 12 1)); reflexivity.
Qed.
End VerifierFacts.

(** The band test is the chained comparison [lo <= x <= hi]: both bounds
    belong to the band, and a NaN is in no band. *)
Lemma between_spec (lo x hi : float) :
  between lo x hi = true <-> SFleb lo x = true /\ SFleb x hi = true.
Proof. unfold between, fle. apply andb_true_iff. Qed.

(** C2.  For a claim of category "tvl", let [d] be the data of the first
    entity for which the TVL lookup answers, [claimed] the number
    extracted from the claim text, and [ratio] the quotient observed /
    claimed (it exists when the observed value is a number and the
    claimed one is not zero).  If [0.8 <= ratio <= 1.2] the status is
    "verified", otherwise it is "outdated"; the source is the TVL
    provider.  For "Aave TVL is $10 billion" the claimed number is 1e10;
    an observed 1.1e10 has ratio 1.1 and is verified, an observed 6e9
    has ratio 0.6 and is outdated. *)
Theorem tvl_claim_within_band :
  (forall (U : Unicode) (World : Type)
          (get_protocol_tvl get_chain_tvl get_token_price
             : json -> World -> option FactData * World)
          (get_yields : json -> World -> list dict * World)
          (c : ExtractedClaim) (ents : list json) (w w' : World)
          (entity : json) (d : FactData) (text : str)
          (claimed ratio : float) (observed : number),
      json_is_str (category c) "tvl" = true ->
      iterate (entities c) = Ok ents ->
      first_answer get_protocol_tvl ents w entity d w' ->
      claim c = JStr text ->
      _extract_number U text = Some claimed ->
      as_number (data_value d) = Ok observed ->
      number_div_float observed claimed = Ok ratio ->
      exists r : VerificationResult,
        verify_single_claim U World get_protocol_tvl get_chain_tvl
          get_token_price get_yields c w = (Ok r, w') /\
        (between (decimal 8 1) ratio (decimal 12 1) = true ->
         status r = VERIFIED) /\
        (between (decimal 8 1) ratio (decimal 12 1) = false ->
         status r = OUTDATED) /\
        source r = Some defillama_name /\
        verified_value r = Some (Dollars0 observed) /\
        original_value r = Some (Dollars0 (NFloat claimed))) /\
  (_extract_number ascii_unicode (str_of "Aave TVL is $10 billion")
     = Some (decimal 10000000000 0) /\
   number_div_float (NFloat (decimal 11000000000 0)) (decimal 10000000000 0)
     = Ok (decimal 11 1) /\
   exists r,
     verify_single_claim ascii_unicode unit
       (answers defillama_name (JFloat (decimal 11000000000 0)))
       no_answer no_answer (pools_are []) aave_tvl_claim tt = (Ok r, tt) /\
     status r = VERIFIED) /\
  (number_div_float (NFloat (decimal 6000000000 0)) (decimal 10000000000 0)
     = Ok (decimal 6 1) /\
   exists r,
     verify_single_claim ascii_unicode unit
       (answers defillama_name (JFloat (decimal 6000000000 0)))
       no_answer no_answer (pools_are []) aave_tvl_claim tt = (Ok r, tt) /\
     status r = OUTDATED).
Proof.
  split; [| split].
  - intros U World tvl chain price yields c ents w w' entity d text claimed ratio
      observed Hcat Hents Hfirst Hc Hx Hobs Hdiv.
    eexists. split.
    + rewrite (verify_tvl_first_answer U World tvl chain price yields
                 c ents w w' entity d Hcat Hents Hfirst).
      rewrite (tvl_found_compared U c d text claimed ratio observed Hc Hx Hobs Hdiv).
      reflexivity.
    + simpl. repeat split.
      * intros ->. reflexivity.
      * intros ->. reflexivity.
  - split; [vm_compute; reflexivity |]. split; [vm_compute; reflexivity |].
    eexists. split; vm_compute; reflexivity.
  - split; [vm_compute; reflexivity |].
    eexists. split; vm_compute; reflexivity.
Qed.

Lemma tvl_claim_within_band_witness :
  exists r : VerificationResult,
    verify_single_claim ascii_unicode unit
      (answers defillama_name (JFloat (decimal 11000000000 0)))
      no_answer no_answer (pools_are []) aave_tvl_claim tt = (Ok r, tt) /\
    (between (decimal 8 1) (decimal 11 1) (decimal 12 1) = true ->
     status r = VERIFIED) /\
    (between (decimal 8 1) (decimal 11 1) (decimal 12 1) = false ->
     status r = OUTDATED) /\
    source r = Some defillama_name /\
    verified_value r = Some (Dollars0 (NFloat (decimal 11000000000 0))) /\
    original_value r = Some (Dollars0 (NFloat (decimal 10000000000 0))).
Proof.
  apply (proj1 tvl_claim_within_band ascii_unicode unit
           (answers defillama_name (JFloat (decimal 11000000000 0)))
           no_answer no_answer (pools_are []) aave_tvl_claim
           [JStr (str_of "Aave")] tt tt (JStr (str_of "Aave"))
           {| data_source := defillama_name;
              data_query := JStr (str_of "Aave");
              data_value := JFloat (decimal 11000000000 0) |}
           (str_of "Aave TVL is $10 billion")).
  - vm_compute. reflexivity.
  - reflexivity.
  - apply answer_here. reflexivity.
  - reflexivity.
  - vm_compute. reflexivity.
  - reflexivity.
  - vm_compute. reflexivity.
Defined.

(** *** No division by zero *)

Lemma bind_not_raise {A B : Type} (m : result A) (f : A -> result B) (e : exn) :
  m <> Raise e -> (forall a, m = Ok a -> f a <> Raise e) -> bind m f <> Raise e.
Proof.
  intros Hm Hf. destruct m as [a | e']; simpl.
  - apply Hf. reflexivity.
  - intros H. apply Hm. injection H as ->. reflexivity.
Qed.

Lemma float_of_int_no_zero_division (n : Z) :
  float_of_int n <> Raise ZeroDivisionError.
Proof. unfold float_of_int. destruct (float_of_ratio n 1); discriminate. Qed.

Lemma float_of_number_no_zero_division (a : number) :
  float_of_number a <> Raise ZeroDivisionError.
Proof.
  destruct a; simpl; [apply float_of_int_no_zero_division | discriminate].
Qed.

Lemma as_number_no_zero_division (j : json) :
  as_number j <> Raise ZeroDivisionError.
Proof. destruct j; discriminate. Qed.

Lemma as_formatted_no_zero_division (j : json) :
  as_formatted j <> Raise ZeroDivisionError.
Proof.
  destruct j; try discriminate. simpl.
  pose proof (float_of_int_no_zero_division n) as Hn.
  destruct (float_of_int n) as [x | e]; [discriminate |].
  intros H. apply Hn. injection H as ->. reflexivity.
Qed.

(** The division is reached with a divisor that is not zero only. *)
Lemma json_div_float_no_zero_division (j : json) (y : float) :
  float_truthy y = true -> json_div_float j y <> Raise ZeroDivisionError.
Proof.
  intros Hy. unfold json_div_float.
  apply bind_not_raise; [apply as_number_no_zero_division | intros a _].
  unfold number_div_float.
  apply bind_not_raise; [apply float_of_number_no_zero_division | intros x _].
  unfold float_truediv. unfold float_truthy in Hy.
  destruct (is_zero y); [discriminate | discriminate].
Qed.

Section NoZeroDivision.
Variable U : Unicode.

Lemma extract_number_of_no_zero_division (text : json) :
  extract_number_of U text <> Raise ZeroDivisionError.
Proof. destruct text; discriminate. Qed.

Lemma extract_percentage_of_no_zero_division (text : json) :
  extract_percentage_of U text <> Raise ZeroDivisionError.
Proof. destruct text; discriminate. Qed.

Lemma tvl_found_no_zero_division (c : ExtractedClaim) (d : FactData) :
  tvl_found U c d <> Raise ZeroDivisionError.
Proof.
  unfold tvl_found.
  apply bind_not_raise; [apply extract_number_of_no_zero_division | intros claimed _].
  destruct claimed as [x |]; [destruct (float_truthy x) eqn:Hx |].
  - apply bind_not_raise; [apply json_div_float_no_zero_division; exact Hx |].
    intros ratio _.
    destruct (between (decimal 8 1) ratio (decimal 12 1));
      (apply bind_not_raise; [apply as_formatted_no_zero_division | discriminate]).
  - apply bind_not_raise; [apply as_formatted_no_zero_division | discriminate].
  - apply bind_not_raise; [apply as_formatted_no_zero_division | discriminate].
Qed.

Lemma price_found_no_zero_division (c : ExtractedClaim) (d : FactData) :
  price_found U c d <> Raise ZeroDivisionError.
Proof.
  unfold price_found.
  apply bind_not_raise; [apply extract_number_of_no_zero_division | intros claimed _].
  destruct claimed as [x |]; [destruct (float_truthy x) eqn:Hx |].
  - apply bind_not_raise; [apply json_div_float_no_zero_division; exact Hx |].
    intros ratio _.
    destruct (between (decimal 9 1) ratio (decimal 11 1));
      (apply bind_not_raise; [apply as_formatted_no_zero_division | discriminate]).
  - apply bind_not_raise; [apply as_formatted_no_zero_division | discriminate].
  - apply bind_not_raise; [apply as_formatted_no_zero_division | discriminate].
Qed.

Lemma match_pool_no_zero_division (c : ExtractedClaim)
  (claimed_apy : option float) (pools : list dict) :
  match_pool c claimed_apy pools <> Raise ZeroDivisionError.
Proof.
  induction pools as [| pool rest IH]; simpl; [discriminate |].
  destruct claimed_apy as [claimed |]; [| exact IH].
  destruct (json_truthy (dict_get pool (str_of "apy") (JInt 0))); simpl; [| exact IH].
  destruct (float_truthy claimed) eqn:Hc; [| exact IH].
  apply bind_not_raise; [apply json_div_float_no_zero_division; exact Hc |].
  intros ratio _.
  destruct (between (decimal 7 1) ratio (decimal 13 1)); [| exact IH].
  apply bind_not_raise; [apply as_formatted_no_zero_division | discriminate].
Qed.

Lemma number_add_no_zero_division (a b : number) :
  number_add a b <> Raise ZeroDivisionError.
Proof.
  destruct a as [m | x], b as [n | y]; simpl; try discriminate;
    (apply bind_not_raise;
     [apply float_of_int_no_zero_division | intros ? _; discriminate]).
Qed.

Lemma sum_from_no_zero_division (js : list json) :
  forall acc, sum_from acc js <> Raise ZeroDivisionError.
Proof.
  induction js as [| j rest IH]; intros acc; simpl; [discriminate |].
  apply bind_not_raise; [apply as_number_no_zero_division | intros a _].
  apply bind_not_raise; [apply number_add_no_zero_division | intros acc' _].
  apply IH.
Qed.

(** [min(5, len(pools))] is between 1 and 5 for a list that is not
    empty, and dividing by such an int never divides by zero. *)
Lemma number_div_int_no_zero_division (a : number) (n : Z) :
  1 <= n <= 5 -> number_div_int a n <> Raise ZeroDivisionError.
Proof.
  intros Hn. destruct a as [m | x]; simpl.
  - unfold int_truediv. destruct n as [| p | p]; try lia.
    destruct m; try discriminate;
      match goal with |- context [fdiv ?a ?b] => destruct (fdiv a b) end;
      discriminate.
  - assert (Hy : exists y, float_of_int n = Ok y /\ is_zero y = false).
    { assert (Hcases : n = 1 \/ n = 2 \/ n = 3 \/ n = 4 \/ n = 5) by lia.
      destruct Hcases as [-> | [-> | [-> | [-> | ->]]]];
        eexists; split; vm_compute; reflexivity. }
    destruct Hy as (y & -> & Hy). simpl. unfold float_truediv. rewrite Hy. discriminate.
Qed.

Lemma average_apy_no_zero_division (pool : dict) (rest : list dict) :
  average_apy (pool :: rest) <> Raise ZeroDivisionError.
Proof.
  unfold average_apy.
  apply bind_not_raise; [apply sum_from_no_zero_division | intros total _].
  apply number_div_int_no_zero_division.
  change (List.length (pool :: rest)) with (S (List.length rest)). lia.
Qed.

Lemma yield_found_no_zero_division (c : ExtractedClaim) (pool : dict)
  (rest : list dict) :
  yield_found U c (pool :: rest) <> Raise ZeroDivisionError.
Proof.
  unfold yield_found.
  apply bind_not_raise; [apply extract_percentage_of_no_zero_division |].
  intros claimed_apy _.
  apply bind_not_raise; [apply match_pool_no_zero_division | intros matched _].
  destruct matched; [discriminate |].
  destruct claimed_apy as [claimed |]; [| discriminate].
  destruct (float_truthy claimed); [| discriminate].
  apply bind_not_raise; [apply average_apy_no_zero_division | discriminate].
Qed.
End NoZeroDivision.

Section NoZeroDivisionLoops.
Variable U : Unicode.
Variable World : Type.
Variable get_protocol_tvl : json -> World -> option FactData * World.
Variable get_chain_tvl : json -> World -> option FactData * World.
Variable get_token_price : json -> World -> option FactData * World.
Variable get_yields : json -> World -> list dict * World.

Lemma tvl_loop_no_zero_division (c : ExtractedClaim) (ents : list json) :
  forall w, fst (tvl_loop U World get_protocol_tvl c ents w)
            <> Raise ZeroDivisionError.
Proof.
  induction ents as [| entity rest IH]; intros w; simpl; [discriminate |].
  unfold io_bind, call. destruct (get_protocol_tvl entity w) as [[d |] w1].
  - unfold lift. simpl. apply tvl_found_no_zero_division.
  - apply IH.
Qed.

Lemma price_loop_no_zero_division (c : ExtractedClaim) (ents : list json) :
  forall w, fst (price_loop U World get_token_price c ents w)
            <> Raise ZeroDivisionError.
Proof.
  induction ents as [| entity rest IH]; intros w; simpl; [discriminate |].
  unfold io_bind, call. destruct (get_token_price entity w) as [[d |] w1].
  - unfold lift. simpl. apply price_found_no_zero_division.
  - apply IH.
Qed.

Lemma yield_loop_no_zero_division (c : ExtractedClaim) (ents : list json) :
  forall w, fst (yield_loop U World get_yields c ents w)
            <> Raise ZeroDivisionError.
Proof.
  induction ents as [| entity rest IH]; intros w; simpl; [discriminate |].
  unfold io_bind, call. destruct (get_yields entity w) as [[| pool pools] w1].
  - apply IH.
  - unfold lift.
    pose proof (yield_found_no_zero_division U c pool pools) as Hf.
    destruct (yield_found U c (pool :: pools)) as [[r |] | e].
    + discriminate.
    + apply IH.
    + simpl. intros H. apply Hf. injection H as ->. reflexivity.
Qed.

Lemma general_loop_no_zero_division (c : ExtractedClaim) (ents : list json) :
  forall w, fst (general_loop World get_protocol_tvl get_chain_tvl
                   get_token_price c ents w)
            <> Raise ZeroDivisionError.
Proof.
  induction ents as [| entity rest IH]; intros w; simpl; [discriminate |].
  unfold io_bind, call.
  destruct (defillama_query World get_protocol_tvl get_chain_tvl entity w)
    as [[d |] w1].
  - discriminate.
  - destruct (coingecko_query World get_token_price entity w1) as [[d |] w2].
    + unfold lift.
      pose proof (as_formatted_no_zero_division (data_value d)) as Hf.
      destruct (as_formatted (data_value d)); [discriminate |].
      simpl. intros H. apply Hf. injection H as ->. reflexivity.
    + apply IH.
Qed.

Lemma verify_single_claim_no_zero_division (c : ExtractedClaim) (w : World) :
  fst (verify_single_claim U World get_protocol_tvl get_chain_tvl
         get_token_price get_yields c w)
    <> Raise ZeroDivisionError.
Proof.
  unfold verify_single_claim, _verify_tvl_claim, _verify_price_claim,
    _verify_yield_claim, _verify_general_claim, io_bind, lift.
  destruct (json_is_str (category c) "tvl");
    [| destruct (json_is_str (category c) "price");
       [| destruct (json_is_str (category c) "percentage")]];
    (destruct (iterate (entities c)) as [ents | e] eqn:Hents;
     [| destruct (entities c); simpl in Hents; try discriminate;
        injection Hents as <-; discriminate]).
  - apply tvl_loop_no_zero_division.
  - apply price_loop_no_zero_division.
  - apply yield_loop_no_zero_division.
  - apply general_loop_no_zero_division.
Qed.

(** The truth test sends a claimed zero, like an absent number, to the
    branch that only confirms the entity. *)
Lemma tvl_found_without_number (c : ExtractedClaim) (d : FactData)
  (claimed : option float) :
  extract_number_of U (claim c) = Ok claimed ->
  claimed_truthy claimed = false ->
  tvl_found U c d =
    bind (as_formatted (data_value d))
      (fun a => Ok {| result_claim := c; status := VERIFIED;
                      source := Some defillama_name;
                      verified_value := Some (Dollars0 a);
                      original_value := None;
                      notes := Some ProtocolExists |}).
Proof.
  intros Hx Hfalse. unfold tvl_found. rewrite Hx. simpl.
  destruct claimed as [x |]; [| reflexivity].
  simpl in Hfalse. rewrite Hfalse. reflexivity.
Qed.

Lemma price_found_without_number (c : ExtractedClaim) (d : FactData)
  (claimed : option float) :
  extract_number_of U (claim c) = Ok claimed ->
  claimed_truthy claimed = false ->
  price_found U c d =
    bind (as_formatted (data_value d))
      (fun a => Ok {| result_claim := c; status := VERIFIED;
                      source := Some coingecko_name;
                      verified_value := Some (Dollars2 a);
                      original_value := None;
                      notes := None |}).
Proof.
  intros Hx Hfalse. unfold price_found. rewrite Hx. simpl.
  destruct claimed as [x |]; [| reflexivity].
  simpl in Hfalse. rewrite Hfalse. reflexivity.
Qed.
End NoZeroDivisionLoops.

(** C10.  In the TVL and the price verification, when the number
    extracted from the claim text is zero ("$0" extracts to 0.0), the
    test [if claimed_value:] fails as it does for an absent number: the
    claim of the first entity with data gets the result of the branch
    that only confirms the entity, and the quotient observed / claimed is
    not computed.  No path of [verify_single_claim] raises
    [ZeroDivisionError], whatever the claim and the answers of the
    sources. *)
Theorem zero_claim_takes_existence_branch :
  (forall (U : Unicode) (World : Type)
          (get_protocol_tvl get_chain_tvl get_token_price
             : json -> World -> option FactData * World)
          (get_yields : json -> World -> list dict * World)
          (c : ExtractedClaim) (ents : list json) (w w' : World)
          (entity : json) (d : FactData) (text : str) (zero : float),
      claim c = JStr text ->
      _extract_number U text = Some zero ->
      is_zero zero = true ->
      iterate (entities c) = Ok ents ->
      (json_is_str (category c) "tvl" = true ->
       first_answer get_protocol_tvl ents w entity d w' ->
       verify_single_claim U World get_protocol_tvl get_chain_tvl
         get_token_price get_yields c w =
         (bind (as_formatted (data_value d))
            (fun a => Ok {| result_claim := c; status := VERIFIED;
                            source := Some defillama_name;
                            verified_value := Some (Dollars0 a);
                            original_value := None;
                            notes := Some ProtocolExists |}), w')) /\
      (json_is_str (category c) "price" = true ->
       first_answer get_token_price ents w entity d w' ->
       verify_single_claim U World get_protocol_tvl get_chain_tvl
         get_token_price get_yields c w =
         (bind (as_formatted (data_value d))
            (fun a => Ok {| result_claim := c; status := VERIFIED;
                            source := Some coingecko_name;
                            verified_value := Some (Dollars2 a);
                            original_value := None;
                            notes := None |}), w'))) /\
  (forall (U : Unicode) (World : Type)
          (get_protocol_tvl get_chain_tvl get_token_price
             : json -> World -> option FactData * World)
          (get_yields : json -> World -> list dict * World)
          (c : ExtractedClaim) (w : World),
      fst (verify_single_claim U World get_protocol_tvl get_chain_tvl
             get_token_price get_yields c w)
        <> Raise ZeroDivisionError) /\
  _extract_number ascii_unicode (str_of "$0") = Some (S754_zero false).
Proof.
  split; [| split].
  - intros U World tvl chain price yields c ents w w' entity d text zero
      Hc Hx Hz Hents.
    assert (Hnum : extract_number_of U (claim c) = Ok (Some zero))
      by (rewrite Hc; simpl; rewrite Hx; reflexivity).
    assert (Hfalse : claimed_truthy (Some zero) = false)
      by (simpl; unfold float_truthy; rewrite Hz; reflexivity).
    split; intros Hcat Hfirst.
    + rewrite (verify_tvl_first_answer U World tvl chain price yields
                 c ents w w' entity d Hcat Hents Hfirst).
      rewrite (tvl_found_without_number U c d (Some zero) Hnum Hfalse). reflexivity.
    + rewrite (verify_price_first_answer U World tvl chain price yields
                 c ents w w' entity d Hcat Hents Hfirst).
      rewrite (price_found_without_number U c d (Some zero) Hnum Hfalse). reflexivity.
  - intros. apply verify_single_claim_no_zero_division.
  - vm_compute. reflexivity.
Qed.

Lemma zero_claim_takes_existence_branch_witness :
  let c := {| claim := JStr (str_of "Aave TVL is $0");
              category := JStr (str_of "tvl");
              entities := JArr [JStr (str_of "Aave")];
              original_text := JStr [];
              confidence := decimal 9 1 |} in
  verify_single_claim ascii_unicode unit
    (answers defillama_name (JFloat (decimal 6000000000 0)))
    no_answer no_answer (pools_are []) c tt =
    (Ok {| result_claim := c; status := VERIFIED;
           source := Some defillama_name;
           verified_value := Some (Dollars0 (NFloat (decimal 6000000000 0)));
           original_value := None;
           notes := Some ProtocolExists |}, tt).
Proof.
  intros c.
  apply (proj1 (proj1 zero_claim_takes_existence_branch ascii_unicode unit
                  (answers defillama_name (JFloat (decimal 6000000000 0)))
                  no_answer no_answer (pools_are []) c
                  [JStr (str_of "Aave")] tt tt (JStr (str_of "Aave"))
                  {| data_source := defillama_name;
                     data_query := JStr (str_of "Aave");
                     data_value := JFloat (decimal 6000000000 0) |}
                  (str_of "Aave TVL is $0") (S754_zero false)
                  eq_refl ltac:(vm_compute; reflexivity) eq_refl eq_refl)).
  - vm_compute. reflexivity.
  - apply answer_here. reflexivity.
Defined.

(** The value of the existence branch is formatted: an int beyond the
    range of [float] makes the format specification raise
    [OverflowError], also when the claimed number is zero. *)
Example huge_value_is_not_formatted :
  fst (verify_single_claim ascii_unicode unit
         (answers defillama_name (JInt (10 ^ 400)))
         no_answer no_answer (pools_are [])
         {| claim := JStr (str_of "Aave TVL is $0");
            category := JStr (str_of "tvl");
            entities := JArr [JStr (str_of "Aave")];
            original_text := JStr [];
            confidence := decimal 9 1 |} tt)
    = Raise OverflowError.
Proof. vm_compute. reflexivity. Qed.

(** *** The statuses that are assigned *)

Section Statuses.
Variable U : Unicode.
Variable float_of_str : str -> option float.
Variable World : Type.
Variable ask_model : str -> World -> result (list json) * World.
Variable get_protocol_tvl : json -> World -> option FactData * World.
Variable get_chain_tvl : json -> World -> option FactData * World.
Variable get_token_price : json -> World -> option FactData * World.
Variable get_yields : json -> World -> list dict * World.

Local Notation "'assigned' s" := (In s [VERIFIED; OUTDATED; UNVERIFIED])
  (at level 10, only parsing).

(** Takes apart every [match] of a hypothesis that equates a computation
    with [Ok r] and closes the cases by the record that was built. *)
Ltac by_cases_of H :=
  repeat match type of H with
         | context [match ?x with _ => _ end] => destruct x eqn:?
         end;
  try discriminate;
  try (injection H as <-; simpl; auto).

Lemma tvl_found_status (c : ExtractedClaim) (d : FactData)
  (r : VerificationResult) :
  tvl_found U c d = Ok r -> assigned (status r).
Proof.
  unfold tvl_found, bind. intros H. by_cases_of H.
Qed.

Lemma price_found_status (c : ExtractedClaim) (d : FactData)
  (r : VerificationResult) :
  price_found U c d = Ok r -> assigned (status r).
Proof.
  unfold price_found, bind. intros H. by_cases_of H.
Qed.

Lemma match_pool_status (c : ExtractedClaim) (claimed_apy : option float)
  (pools : list dict) (r : VerificationResult) :
  match_pool c claimed_apy pools = Ok (Some r) -> assigned (status r).
Proof.
  induction pools as [| pool rest IH]; simpl; [discriminate |].
  unfold bind. intros H.
  repeat match type of H with
         | context [match ?x with _ => _ end] => destruct x eqn:?
         end;
    try discriminate; try (apply IH; assumption).
  injection H as <-. simpl. auto.
Qed.

Lemma yield_found_status (c : ExtractedClaim) (pools : list dict)
  (r : VerificationResult) :
  yield_found U c pools = Ok (Some r) -> assigned (status r).
Proof.
  unfold yield_found, bind. intros H.
  destruct (extract_percentage_of U (claim c)) as [claimed_apy |]; [| discriminate].
  destruct (match_pool c claimed_apy (firstn 10 pools)) as [[r' |] |] eqn:Hm;
    [| | discriminate].
  - injection H as <-. eapply match_pool_status. eassumption.
  - by_cases_of H.
Qed.

Lemma tvl_loop_status (c : ExtractedClaim) (ents : list json) :
  forall w r w',
    tvl_loop U World get_protocol_tvl c ents w = (Ok r, w') ->
    assigned (status r).
Proof.
  induction ents as [| entity rest IH]; intros w r w'; simpl.
  - unfold ret. intros H. injection H as <- _. simpl. auto.
  - unfold io_bind, call, lift.
    destruct (get_protocol_tvl entity w) as [[d |] w1]; [| apply IH].
    intros H. injection H as H _. eapply tvl_found_status. eassumption.
Qed.

Lemma price_loop_status (c : ExtractedClaim) (ents : list json) :
  forall w r w',
    price_loop U World get_token_price c ents w = (Ok r, w') ->
    assigned (status r).
Proof.
  induction ents as [| entity rest IH]; intros w r w'; simpl.
  - unfold ret. intros H. injection H as <- _. simpl. auto.
  - unfold io_bind, call, lift.
    destruct (get_token_price entity w) as [[d |] w1]; [| apply IH].
    intros H. injection H as H _. eapply price_found_status. eassumption.
Qed.

Lemma yield_loop_status (c : ExtractedClaim) (ents : list json) :
  forall w r w',
    yield_loop U World get_yields c ents w = (Ok r, w') ->
    assigned (status r).
Proof.
  induction ents as [| entity rest IH]; intros w r w'; simpl.
  - unfold ret. intros H. injection H as <- _. simpl. auto.
  - unfold io_bind, call, lift.
    destruct (get_yields entity w) as [[| pool pools] w1]; [apply IH |].
    destruct (yield_found U c (pool :: pools)) as [[r' |] | e] eqn:Hf.
    + unfold ret. intros H. injection H as <- _.
      eapply yield_found_status. eassumption.
    + apply IH.
    + discriminate.
Qed.

Lemma general_loop_status (c : ExtractedClaim) (ents : list json) :
  forall w r w',
    general_loop World get_protocol_tvl get_chain_tvl get_token_price
      c ents w = (Ok r, w') ->
    assigned (status r).
Proof.
  induction ents as [| entity rest IH]; intros w r w'; simpl.
  - unfold ret. intros H. injection H as <- _. simpl. auto.
  - unfold io_bind, call, lift, ret.
    destruct (defillama_query World get_protocol_tvl get_chain_tvl entity w)
      as [[d |] w1].
    + intros H. injection H as <- _. simpl. auto.
    + destruct (coingecko_query World get_token_price entity w1) as [[d |] w2];
        [| apply IH].
      destruct (as_formatted (data_value d)); [| discriminate].
      intros H. injection H as <- _. simpl. auto.
Qed.

Lemma verify_single_claim_status (c : ExtractedClaim) (w w' : World)
  (r : VerificationResult) :
  verify_single_claim U World get_protocol_tvl get_chain_tvl get_token_price
    get_yields c w = (Ok r, w') ->
  assigned (status r).
Proof.
  unfold verify_single_claim, _verify_tvl_claim, _verify_price_claim,
    _verify_yield_claim, _verify_general_claim, io_bind, lift.
  destruct (json_is_str (category c) "tvl");
    [| destruct (json_is_str (category c) "price");
       [| destruct (json_is_str (category c) "percentage")]];
    (destruct (iterate (entities c)) as [ents | e]; [| discriminate]).
  - apply tvl_loop_status.
  - apply price_loop_status.
  - apply yield_loop_status.
  - apply general_loop_status.
Qed.

Lemma verify_each_status (video_id : str) (claims : list ExtractedClaim) :
  forall w facts w',
    verify_each U World get_protocol_tvl get_chain_tvl get_token_price
      get_yields video_id claims w = (Ok facts, w') ->
    Forall (fun f => assigned (fact_status f)) facts.
Proof.
  induction claims as [| c rest IH]; intros w facts w'; simpl.
  - unfold ret. intros H. injection H as <- _. constructor.
  - unfold io_bind, lift, ret.
    destruct (verify_single_claim U World get_protocol_tvl get_chain_tvl
                get_token_price get_yields c w) as [[r | e] w1] eqn:Hr;
      [| discriminate].
    destruct (sliceable (claim c)); [| discriminate].
    destruct (verify_each U World get_protocol_tvl get_chain_tvl get_token_price
                get_yields video_id rest w1) as [[fs | e] w2] eqn:Hrest;
      [| discriminate].
    intros H. injection H as <- _. constructor.
    + simpl. eapply verify_single_claim_status. eassumption.
    + eapply IH. eassumption.
Qed.
End Statuses.

(** C6.  For every transcript, every answer of the generative
    collaborator and every behaviour of the sources, each fact that
    [verify_claims] returns has the status verified, outdated or
    unverified; the status "false" of the enumeration is not assigned. *)
Theorem false_status_never_assigned :
  forall (U : Unicode) (float_of_str : str -> option float) (World : Type)
         (ask_model : str -> World -> result (list json) * World)
         (get_protocol_tvl get_chain_tvl get_token_price
            : json -> World -> option FactData * World)
         (get_yields : json -> World -> list dict * World)
         (transcript_text video_id : str) (w w' : World)
         (facts : list VerifiedFact),
    verify_claims U float_of_str World ask_model get_protocol_tvl get_chain_tvl
      get_token_price get_yields transcript_text video_id w = (Ok facts, w') ->
    Forall (fun f => In (fact_status f) [VERIFIED; OUTDATED; UNVERIFIED] /\
                     fact_status f <> FALSE) facts.
Proof.
  intros U fos World ask tvl chain price yields text video w w' facts.
  unfold verify_claims, io_bind, call.
  destruct (extract_claims fos World ask text 20 w) as [claims w1].
  intros H.
  assert (Hall : Forall (fun f => In (fact_status f) [VERIFIED; OUTDATED; UNVERIFIED])
                   facts).
  { destruct claims as [| c rest].
    - unfold ret in H. injection H as <- _. constructor.
    - eapply verify_each_status. eassumption. }
  eapply Forall_impl; [| exact Hall].
  intros f Hin. cbv beta in Hin. split; [exact Hin |].
  intros Hf. rewrite Hf in Hin. simpl in Hin.
  destruct Hin as [E | [E | [E | []]]]; discriminate.
Qed.

Lemma false_status_never_assigned_witness :
  exists facts : list VerifiedFact,
    verify_claims ascii_unicode (fun _ => None) unit
      (fun _ w =>
         (Ok [JObj [(str_of "claim", JStr (str_of "Aave TVL is $10 billion"));
                    (str_of "category", JStr (str_of "tvl"));
                    (str_of "entities", JArr [JStr (str_of "Aave")]);
                    (str_of "confidence", JFloat (decimal 9 1))]], w))
      (answers defillama_name (JFloat (decimal 11000000000 0)))
      no_answer no_answer (pools_are [])
      (repeat 97%N 50) (str_of "video") tt = (Ok facts, tt) /\
    List.length facts = 1%nat /\
    Forall (fun f => In (fact_status f) [VERIFIED; OUTDATED; UNVERIFIED] /\
                     fact_status f <> FALSE) facts.
Proof.
  eexists. split; [vm_compute; reflexivity |]. split; [reflexivity |].
  eapply (false_status_never_assigned ascii_unicode (fun _ => None) unit
            (fun _ w =>
               (Ok [JObj [(str_of "claim", JStr (str_of "Aave TVL is $10 billion"));
                          (str_of "category", JStr (str_of "tvl"));
                          (str_of "entities", JArr [JStr (str_of "Aave")]);
                          (str_of "confidence", JFloat (decimal 9 1))]], w))
            (answers defillama_name (JFloat (decimal 11000000000 0)))
            no_answer no_answer (pools_are [])
            (repeat 97%N 50) (str_of "video") tt tt).
  vm_compute. reflexivity.
Defined.

(** C4 at the input on which the code departs from it.  The claim "Aave
    has great yields" has no number and no percentage; the yields lookup
    returns a pool for its entity, so the entity is confirmed to exist.
    In the category "percentage" the result is "unverified" with the
    note "Could not verify yield data"; the same text in the category
    "tvl", with data for the entity, is "verified" with the note
    "Protocol exists, TVL confirmed". *)
Theorem yield_claim_without_percentage_unverified :
  let c := {| claim := JStr (str_of "Aave has great yields");
              category := JStr (str_of "percentage");
              entities := JArr [JStr (str_of "Aave")];
              original_text := JStr [];
              confidence := decimal 9 1 |} in
  let pool := [(str_of "project", JStr (str_of "aave"));
               (str_of "pool", JStr (str_of "aave-usdc"));
               (str_of "apy", JFloat (decimal 5 0))] in
  _extract_number ascii_unicode (str_of "Aave has great yields") = None /\
  _extract_percentage ascii_unicode (str_of "Aave has great yields") = None /\
  pools_are [pool] (JStr (str_of "Aave")) tt = ([pool], tt) /\
  verify_single_claim ascii_unicode unit no_answer no_answer no_answer
    (pools_are [pool]) c tt = (Ok (unverified c NoYieldData), tt) /\
  (let tvl_claim :=
     {| claim := JStr (str_of "Aave has great yields");
        category := JStr (str_of "tvl");
        entities := JArr [JStr (str_of "Aave")];
        original_text := JStr [];
        confidence := decimal 9 1 |} in
   verify_single_claim ascii_unicode unit
     (answers defillama_name (JFloat (decimal 11000000000 0)))
     no_answer no_answer (pools_are []) tvl_claim tt =
     (Ok {| result_claim := tvl_claim; status := VERIFIED;
            source := Some defillama_name;
            verified_value := Some (Dollars0 (NFloat (decimal 11000000000 0)));
            original_value := None;
            notes := Some ProtocolExists |}, tt)).
Proof.
  vm_compute. repeat split.
Qed.

(** The price path confirms the entity as well, but leaves [notes]
    empty. *)
Example price_claim_without_number_has_no_note :
  let c := {| claim := JStr (str_of "Bitcoin is expensive");
              category := JStr (str_of "price");
              entities := JArr [JStr (str_of "bitcoin")];
              original_text := JStr [];
              confidence := decimal 9 1 |} in
  verify_single_claim ascii_unicode unit no_answer no_answer
    (answers coingecko_name (JInt 97000)) (pools_are []) c tt =
    (Ok {| result_claim := c; status := VERIFIED;
           source := Some coingecko_name;
           verified_value := Some (Dollars2 (NInt 97000));
           original_value := None;
           notes := None |}, tt).
Proof. vm_compute. reflexivity. Qed.

(* ================================================================== *)
(** * Part III: further properties of the code *)
(* ================================================================== *)

(** ** Fact verifier: the paths and their results *)

Section PathFacts.
Variable U : Unicode.
Variable World : Type.
Variable get_protocol_tvl : json -> World -> option FactData * World.
Variable get_chain_tvl : json -> World -> option FactData * World.
Variable get_token_price : json -> World -> option FactData * World.
Variable get_yields : json -> World -> list dict * World.

Local Notation "'verify_one'" :=
  (verify_single_claim U World get_protocol_tvl get_chain_tvl get_token_price
     get_yields).

(** The comparison branch of [_verify_price_claim]. *)
Lemma price_found_compared (c : ExtractedClaim) (d : FactData) (text : str)
  (claimed ratio : float) (observed : number) :
  claim c = JStr text ->
  _extract_number U text = Some claimed ->
  as_number (data_value d) = Ok observed ->
  number_div_float observed claimed = Ok ratio ->
  price_found U c d =
    Ok {| result_claim := c;
          status := if between (decimal 9 1) ratio (decimal 11 1)
                    then VERIFIED else OUTDATED;
          source := Some coingecko_name;
          verified_value := Some (Dollars2 observed);
          original_value := Some (Dollars2 (NFloat claimed));
          notes := if between (decimal 9 1) ratio (decimal 11 1)
                   then None else Some (PriceChanged ratio) |}.
Proof.
  intros Hc Hx Hobs Hdiv. unfold price_found, extract_number_of.
  rewrite Hc, Hx. simpl.
  rewrite (number_div_float_truthy _ _ _ Hdiv).
  unfold json_div_float. rewrite Hobs. simpl. rewrite Hdiv. simpl.
  rewrite (as_number_formatted _ _ _ _ Hobs Hdiv).
  destruct (between (decimal 9 1) ratio (decimal 11 1)); reflexivity.
Qed.

Lemma first_answer_app {D : Type} (service : json -> World -> option D * World)
  (ents more : list json) (w w' : World) (entity : json) (d : D) :
  first_answer service ents w entity d w' ->
  first_answer service (ents ++ more) w entity d w'.
Proof.
  induction 1 as [entity rest w w' d Hd | e rest w w1 w' entity d Hnone _ IH]; simpl.
  - apply answer_here. assumption.
  - eapply answer_later; eassumption.
Qed.

Lemma is_price_not_tvl (j : json) :
  json_is_str j "price" = true -> json_is_str j "tvl" = false.
Proof.
  unfold json_is_str. destruct j; try discriminate. unfold str_eqb.
  destruct (list_eq_dec N.eq_dec s (str_of "price")) as [-> |]; [| discriminate].
  reflexivity.
Qed.

Lemma is_percentage_not_others (j : json) :
  json_is_str j "percentage" = true ->
  json_is_str j "tvl" = false /\ json_is_str j "price" = false.
Proof.
  unfold json_is_str. destruct j; try discriminate. unfold str_eqb.
  destruct (list_eq_dec N.eq_dec s (str_of "percentage")) as [-> |]; [| discriminate].
  split; reflexivity.
Qed.

(** Sources that never answer leave every loop at its last line. *)
Lemma tvl_loop_silent (c : ExtractedClaim) (ents : list json) :
  (forall e w, In e ents -> fst (get_protocol_tvl e w) = None) ->
  forall w, exists w',
    tvl_loop U World get_protocol_tvl c ents w = (Ok (unverified c NoProtocolData), w').
Proof.
  induction ents as [| e rest IH]; intros Hnone w; simpl.
  - exists w. reflexivity.
  - unfold io_bind, call. pose proof (Hnone e w (or_introl eq_refl)) as H.
    destruct (get_protocol_tvl e w) as [o w1]. simpl in H. subst o.
    apply IH. intros e' w0 Hin. apply Hnone. right. exact Hin.
Qed.

Lemma price_loop_silent (c : ExtractedClaim) (ents : list json) :
  (forall e w, In e ents -> fst (get_token_price e w) = None) ->
  forall w, exists w',
    price_loop U World get_token_price c ents w = (Ok (unverified c NoTokenPrice), w').
Proof.
  induction ents as [| e rest IH]; intros Hnone w; simpl.
  - exists w. reflexivity.
  - unfold io_bind, call. pose proof (Hnone e w (or_introl eq_refl)) as H.
    destruct (get_token_price e w) as [o w1]. simpl in H. subst o.
    apply IH. intros e' w0 Hin. apply Hnone. right. exact Hin.
Qed.

Lemma yield_loop_silent (c : ExtractedClaim) (ents : list json) :
  (forall e w, In e ents -> fst (get_yields e w) = []) ->
  forall w, exists w',
    yield_loop U World get_yields c ents w = (Ok (unverified c NoYieldData), w').
Proof.
  induction ents as [| e rest IH]; intros Hnone w; simpl.
  - exists w. reflexivity.
  - unfold io_bind, call. pose proof (Hnone e w (or_introl eq_refl)) as H.
    destruct (get_yields e w) as [o w1]. simpl in H. subst o.
    apply IH. intros e' w0 Hin. apply Hnone. right. exact Hin.
Qed.

Lemma general_loop_silent (c : ExtractedClaim) (ents : list json) :
  (forall e w, In e ents -> fst (get_protocol_tvl e w) = None) ->
  (forall e w, In e ents -> fst (get_chain_tvl e w) = None) ->
  (forall e w, In e ents -> fst (get_token_price e w) = None) ->
  forall w, exists w',
    general_loop World get_protocol_tvl get_chain_tvl get_token_price c ents w
      = (Ok (unverified c NoMatchingData), w').
Proof.
  induction ents as [| e rest IH]; intros Ht Hc Hp w; simpl.
  - exists w. reflexivity.
  - unfold io_bind, call, defillama_query, coingecko_query.
    pose proof (Ht e w (or_introl eq_refl)) as H1.
    destruct (get_protocol_tvl e w) as [o1 w1]. simpl in H1. subst o1.
    pose proof (Hc e w1 (or_introl eq_refl)) as H2.
    destruct (get_chain_tvl e w1) as [o2 w2]. simpl in H2. subst o2.
    pose proof (Hp e w2 (or_introl eq_refl)) as H3.
    destruct (get_token_price e w2) as [o3 w3]. simpl in H3. subst o3.
    apply IH; intros e' w0 Hin; [apply Ht | apply Hc | apply Hp]; right; exact Hin.
Qed.
End PathFacts.

(** X1.  [_verify_price_claim]: for a claim of category "price", with [d]
    the data of the first entity for which the price lookup answers and
    [ratio] the quotient observed / claimed, the status is "verified"
    when [0.9 <= ratio <= 1.1] and "outdated" otherwise; the source is
    the price provider and both values are reported. *)
Theorem price_claim_within_band :
  forall (U : Unicode) (World : Type)
         (get_protocol_tvl get_chain_tvl get_token_price
            : json -> World -> option FactData * World)
         (get_yields : json -> World -> list dict * World)
         (c : ExtractedClaim) (ents : list json) (w w' : World)
         (entity : json) (d : FactData) (text : str)
         (claimed ratio : float) (observed : number),
    json_is_str (category c) "price" = true ->
    iterate (entities c) = Ok ents ->
    first_answer get_token_price ents w entity d w' ->
    claim c = JStr text ->
    _extract_number U text = Some claimed ->
    as_number (data_value d) = Ok observed ->
    number_div_float observed claimed = Ok ratio ->
    exists r : VerificationResult,
      verify_single_claim U World get_protocol_tvl get_chain_tvl
        get_token_price get_yields c w = (Ok r, w') /\
      (between (decimal 9 1) ratio (decimal 11 1) = true ->
       status r = VERIFIED /\ notes r = None) /\
      (between (decimal 9 1) ratio (decimal 11 1) = false ->
       status r = OUTDATED /\ notes r = Some (PriceChanged ratio)) /\
      source r = Some coingecko_name /\
      verified_value r = Some (Dollars2 observed) /\
      original_value r = Some (Dollars2 (NFloat claimed)).
Proof.
  intros U World tvl chain price yields c ents w w' entity d text claimed ratio
    observed Hcat Hents Hfirst Hc Hx Hobs Hdiv.
  eexists. split.
  - rewrite (verify_price_first_answer U World tvl chain price yields
               c ents w w' entity d Hcat Hents Hfirst).
    rewrite (price_found_compared U c d text claimed ratio observed Hc Hx Hobs Hdiv).
    reflexivity.
  - simpl. split; [intros ->; split; reflexivity |].
    split; [intros ->; split; reflexivity |]. repeat split.
Qed.

Lemma price_claim_within_band_witness :
  let c := {| claim := JStr (str_of "Bitcoin costs $100,000");
              category := JStr (str_of "price");
              entities := JArr [JStr (str_of "dogecoin"); JStr (str_of "bitcoin")];
              original_text := JStr [];
              confidence := decimal 9 1 |} in
  let only_bitcoin : json -> unit -> option FactData * unit :=
    fun q w => if json_is_str q "bitcoin"
               then answers coingecko_name (JInt 97000) q w
               else (None, w) in
  exists r : VerificationResult,
    verify_single_claim ascii_unicode unit no_answer no_answer only_bitcoin
      (pools_are []) c tt = (Ok r, tt) /\
    (between (decimal 9 1) (decimal 97 2) (decimal 11 1) = true ->
     status r = VERIFIED /\ notes r = None) /\
    (between (decimal 9 1) (decimal 97 2) (decimal 11 1) = false ->
     status r = OUTDATED /\ notes r = Some (PriceChanged (decimal 97 2))) /\
    source r = Some coingecko_name /\
    verified_value r = Some (Dollars2 (NInt 97000)) /\
    original_value r = Some (Dollars2 (NFloat (decimal 100000 0))).
Proof.
  intros c only_bitcoin.
  apply (price_claim_within_band ascii_unicode unit no_answer no_answer only_bitcoin
           (pools_are []) c
           [JStr (str_of "dogecoin"); JStr (str_of "bitcoin")] tt tt
           (JStr (str_of "bitcoin"))
           {| data_source := coingecko_name;
              data_query := JStr (str_of "bitcoin");
              data_value := JInt 97000 |}
           (str_of "Bitcoin costs $100,000")).
  - vm_compute. reflexivity.
  - reflexivity.
  - eapply answer_later; [vm_compute; reflexivity |].
    apply answer_here. vm_compute. reflexivity.
  - reflexivity.
  - vm_compute. reflexivity.
  - reflexivity.
  - vm_compute. reflexivity.
Defined.

(** X2.  [_verify_tvl_claim] and [_verify_price_claim] stop at the first
    entity for which the source has data: the result is the one computed
    from that data, the world is the one right after that lookup, and
    the entities listed after it are not looked up, whatever they are. *)
Theorem later_entities_not_consulted :
  forall (U : Unicode) (World : Type)
         (get_protocol_tvl get_chain_tvl get_token_price
            : json -> World -> option FactData * World)
         (get_yields : json -> World -> list dict * World)
         (c : ExtractedClaim) (ents more : list json) (w w' : World)
         (entity : json) (d : FactData),
    iterate (entities c) = Ok (ents ++ more) ->
    (json_is_str (category c) "tvl" = true ->
     first_answer get_protocol_tvl ents w entity d w' ->
     verify_single_claim U World get_protocol_tvl get_chain_tvl
       get_token_price get_yields c w = (tvl_found U c d, w')) /\
    (json_is_str (category c) "price" = true ->
     first_answer get_token_price ents w entity d w' ->
     verify_single_claim U World get_protocol_tvl get_chain_tvl
       get_token_price get_yields c w = (price_found U c d, w')).
Proof.
  intros U World tvl chain price yields c ents more w w' entity d Hents.
  split; intros Hcat Hfirst.
  - apply (verify_tvl_first_answer U World tvl chain price yields
             c (ents ++ more) w w' entity d Hcat Hents).
    apply first_answer_app. assumption.
  - apply (verify_price_first_answer U World tvl chain price yields
             c (ents ++ more) w w' entity d Hcat Hents).
    apply first_answer_app. assumption.
Qed.

(** Of the entities Maker, Aave and Compound the provider knows Aave
    only and keeps a list of what it was asked: Maker and Aave are looked
    up, Compound is not. *)
Lemma later_entities_not_consulted_witness :
  let c := {| claim := JStr (str_of "Aave TVL is $10 billion");
              category := JStr (str_of "tvl");
              entities := JArr [JStr (str_of "Maker"); JStr (str_of "Aave");
                                JStr (str_of "Compound")];
              original_text := JStr [];
              confidence := decimal 9 1 |} in
  let only_aave : json -> list json -> option FactData * list json :=
    fun q asked =>
      (if json_is_str q "Aave"
       then Some {| data_source := defillama_name; data_query := q;
                    data_value := JFloat (decimal 11000000000 0) |}
       else None, asked ++ [q]) in
  let silent : json -> list json -> option FactData * list json :=
    fun q asked => (None, asked ++ [q]) in
  let no_pools : json -> list json -> list dict * list json :=
    fun q asked => ([], asked ++ [q]) in
  exists r : VerificationResult,
    verify_single_claim ascii_unicode (list json) only_aave silent silent no_pools c []
      = (Ok r, [JStr (str_of "Maker"); JStr (str_of "Aave")]) /\
    status r = VERIFIED.
Proof.
  intros c only_aave silent no_pools.
  pose proof (proj1 (later_entities_not_consulted ascii_unicode (list json)
                       only_aave silent silent no_pools c
                       [JStr (str_of "Maker"); JStr (str_of "Aave")]
                       [JStr (str_of "Compound")]
                       [] [JStr (str_of "Maker"); JStr (str_of "Aave")]
                       (JStr (str_of "Aave"))
                       {| data_source := defillama_name;
                          data_query := JStr (str_of "Aave");
                          data_value := JFloat (decimal 11000000000 0) |}
                       eq_refl)) as H.
  rewrite H.
  - eexists. split; vm_compute; reflexivity.
  - vm_compute. reflexivity.
  - eapply answer_later; [vm_compute; reflexivity |].
    apply answer_here. vm_compute. reflexivity.
Defined.

(** X3.  Whatever the text of a claim, when the sources that its
    category consults have no data for any of its entities,
    [verify_single_claim] raises nothing and returns the status
    "unverified" with no source and no value: the protocol lookup for
    "tvl", the price lookup for "price", the yield pools for
    "percentage", and the protocol, chain and price lookups for any other
    category.  What the sources hold for other entities, and what the
    sources that are not consulted hold, does not matter.  Entities that
    cannot be iterated raise their exception before any lookup. *)
Theorem no_data_is_unverified :
  forall (U : Unicode) (World : Type)
         (get_protocol_tvl get_chain_tvl get_token_price
            : json -> World -> option FactData * World)
         (get_yields : json -> World -> list dict * World)
         (c : ExtractedClaim) (w : World),
    (forall e : exn,
        iterate (entities c) = Raise e ->
        verify_single_claim U World get_protocol_tvl get_chain_tvl
          get_token_price get_yields c w = (Raise e, w)) /\
    (forall ents : list json,
        iterate (entities c) = Ok ents ->
        let silent (service : json -> World -> option FactData * World) :=
          forall e w0, In e ents -> fst (service e w0) = None in
        (if json_is_str (category c) "tvl" then silent get_protocol_tvl
         else if json_is_str (category c) "price" then silent get_token_price
         else if json_is_str (category c) "percentage"
              then forall e w0, In e ents -> fst (get_yields e w0) = []
         else silent get_protocol_tvl /\ silent get_chain_tvl /\
              silent get_token_price) ->
        exists (r : VerificationResult) (w' : World),
          verify_single_claim U World get_protocol_tvl get_chain_tvl
            get_token_price get_yields c w = (Ok r, w') /\
          result_claim r = c /\ status r = UNVERIFIED /\ source r = None /\
          verified_value r = None /\ original_value r = None).
Proof.
  intros U World tvl chain price yields c w. split.
  - intros e He.
    unfold verify_single_claim, _verify_tvl_claim, _verify_price_claim,
      _verify_yield_claim, _verify_general_claim, io_bind, lift.
    rewrite He.
    destruct (json_is_str (category c) "tvl");
      [| destruct (json_is_str (category c) "price");
         [| destruct (json_is_str (category c) "percentage")]]; reflexivity.
  - intros ents Hents silent Hsilent.
    unfold verify_single_claim, _verify_tvl_claim, _verify_price_claim,
      _verify_yield_claim, _verify_general_claim, io_bind, lift.
    rewrite Hents.
    destruct (json_is_str (category c) "tvl");
      [| destruct (json_is_str (category c) "price");
         [| destruct (json_is_str (category c) "percentage")]].
    + destruct (tvl_loop_silent U World tvl c ents Hsilent w) as [w' ->].
      eexists; eexists; repeat split.
    + destruct (price_loop_silent U World price c ents Hsilent w) as [w' ->].
      eexists; eexists; repeat split.
    + destruct (yield_loop_silent U World yields c ents Hsilent w) as [w' ->].
      eexists; eexists; repeat split.
    + destruct Hsilent as (Ht & Hc & Hp).
      destruct (general_loop_silent World tvl chain price c ents Ht Hc Hp w) as [w' ->].
      eexists; eexists; repeat split.
Qed.

(** A "tvl" claim about Aave is unverified when the protocol lookup
    knows Maker only, although every other source answers. *)
Lemma no_data_is_unverified_witness :
  let only_maker : json -> unit -> option FactData * unit :=
    fun q w => if json_is_str q "Maker"
               then answers defillama_name (JInt 5000000000) q w
               else (None, w) in
  exists (r : VerificationResult) (w' : unit),
    verify_single_claim ascii_unicode unit only_maker
      (answers defillama_name (JInt 1)) (answers coingecko_name (JInt 100))
      (pools_are [[(str_of "apy", JInt 3)]]) aave_tvl_claim tt = (Ok r, w') /\
    result_claim r = aave_tvl_claim /\ status r = UNVERIFIED /\ source r = None /\
    verified_value r = None /\ original_value r = None.
Proof.
  intros only_maker.
  apply (proj2 (no_data_is_unverified ascii_unicode unit only_maker
                  (answers defillama_name (JInt 1)) (answers coingecko_name (JInt 100))
                  (pools_are [[(str_of "apy", JInt 3)]]) aave_tvl_claim tt)
           [JStr (str_of "Aave")] eq_refl).
  intros e w0 [<- | []]. reflexivity.
Defined.

Section GeneralAndYield.
Variable U : Unicode.
Variable World : Type.
Variable get_protocol_tvl : json -> World -> option FactData * World.
Variable get_chain_tvl : json -> World -> option FactData * World.
Variable get_token_price : json -> World -> option FactData * World.
Variable get_yields : json -> World -> list dict * World.


(** What [for pool in pools[:10]] returns. *)
Lemma match_pool_verified (c : ExtractedClaim) (claimed_apy : option float)
  (pools : list dict) (r : VerificationResult) :
  match_pool c claimed_apy pools = Ok (Some r) ->
  exists pool claimed ratio p,
    In pool pools /\ claimed_apy = Some claimed /\
    json_div_float (dict_get pool (str_of "apy") (JInt 0)) claimed = Ok ratio /\
    between (decimal 7 1) ratio (decimal 13 1) = true /\
    as_formatted (dict_get pool (str_of "apy") (JInt 0)) = Ok p /\
    r = {| result_claim := c; status := VERIFIED;
           source := Some defillama_name;
           verified_value := Some (Percent1 p);
           original_value := Some (Percent1 (NFloat claimed));
           notes := Some (PoolNote
             (dict_get pool (str_of "pool") (JStr (str_of "unknown")))) |}.
Proof.
  induction pools as [| pool rest IH]; simpl; [discriminate |].
  intros H.
  assert (Hrest : match_pool c claimed_apy rest = Ok (Some r) ->
                  exists pool0 claimed ratio p,
                    (pool = pool0 \/ In pool0 rest) /\ claimed_apy = Some claimed /\
                    json_div_float (dict_get pool0 (str_of "apy") (JInt 0)) claimed
                      = Ok ratio /\
                    between (decimal 7 1) ratio (decimal 13 1) = true /\
                    as_formatted (dict_get pool0 (str_of "apy") (JInt 0)) = Ok p /\
                    r = {| result_claim := c; status := VERIFIED;
                           source := Some defillama_name;
                           verified_value := Some (Percent1 p);
                           original_value := Some (Percent1 (NFloat claimed));
                           notes := Some (PoolNote
                             (dict_get pool0 (str_of "pool")
                                (JStr (str_of "unknown")))) |}).
  { intros H'. destruct (IH H') as (pool0 & cl & ratio & p & Hin & Hrestq).
    exists pool0, cl, ratio, p. split; [right; assumption | assumption]. }
  destruct claimed_apy as [claimed |]; [| apply Hrest; assumption].
  destruct (json_truthy (dict_get pool (str_of "apy") (JInt 0))); simpl in H;
    [| apply Hrest; assumption].
  destruct (float_truthy claimed) eqn:Hc; [| apply Hrest; assumption].
  destruct (json_div_float (dict_get pool (str_of "apy") (JInt 0)) claimed)
    as [ratio |] eqn:Hdiv; simpl in H; [| discriminate].
  destruct (between (decimal 7 1) ratio (decimal 13 1)) eqn:Hb;
    [| apply Hrest; assumption].
  destruct (as_formatted (dict_get pool (str_of "apy") (JInt 0))) as [p |] eqn:Hp;
    simpl in H; [| discriminate].
  injection H as <-.
  exists pool, claimed, ratio, p. repeat split; auto.
Qed.

(** What the body of [if pools:] returns when it returns a result. *)
Lemma yield_found_result (c : ExtractedClaim) (pools : list dict)
  (r : VerificationResult) :
  yield_found U c pools = Ok (Some r) ->
  exists claimed,
    extract_percentage_of U (claim c) = Ok (Some claimed) /\
    ((exists pool ratio,
        In pool (firstn 10 pools) /\
        json_div_float (dict_get pool (str_of "apy") (JInt 0)) claimed = Ok ratio /\
        between (decimal 7 1) ratio (decimal 13 1) = true /\
        status r = VERIFIED /\
        notes r = Some (PoolNote
          (dict_get pool (str_of "pool") (JStr (str_of "unknown"))))) \/
     (match_pool c (Some claimed) (firstn 10 pools) = Ok None /\
      float_truthy claimed = true /\
      exists avg_apy,
        average_apy pools = Ok avg_apy /\
        status r = OUTDATED /\
        verified_value r = Some (AboutPercent1 avg_apy) /\
        notes r = Some ApyMayHaveChanged)).
Proof.
  unfold yield_found, bind. intros H.
  destruct (extract_percentage_of U (claim c)) as [claimed_apy |]; [| discriminate].
  destruct (match_pool c claimed_apy (firstn 10 pools)) as [[r' |] |] eqn:Hm;
    [| | discriminate].
  - injection H as <-.
    destruct (match_pool_verified _ _ _ _ Hm)
      as (pool & claimed & ratio & p & Hin & -> & Hdiv & Hb & Hp & ->).
    exists claimed. split; [reflexivity |]. left.
    exists pool, ratio. repeat split; auto.
  - destruct claimed_apy as [claimed |]; [| discriminate].
    destruct (float_truthy claimed) eqn:Hc; [| discriminate].
    destruct (average_apy pools) as [avg |] eqn:Havg; [| discriminate].
    injection H as <-.
    exists claimed. split; [reflexivity |]. right.
    repeat split; auto. exists avg. repeat split.
Qed.

Lemma yield_loop_result (c : ExtractedClaim) (ents : list json) :
  forall w r w',
    yield_loop U World get_yields c ents w = (Ok r, w') ->
    r = unverified c NoYieldData \/
    exists entity w0 w1 pools,
      In entity ents /\ get_yields entity w0 = (pools, w1) /\
      yield_found U c pools = Ok (Some r).
Proof.
  induction ents as [| e rest IH]; intros w r w'; simpl.
  - unfold ret. intros H. injection H as <- _. left. reflexivity.
  - unfold io_bind, call, lift.
    destruct (get_yields e w) as [[| pool pools] w1] eqn:Hy.
    + intros H. destruct (IH _ _ _ H) as [-> | (entity & w0 & w2 & ps & Hin & Hq & Hf)].
      * left. reflexivity.
      * right. exists entity, w0, w2, ps.
        split; [right; assumption | split; assumption].
    + destruct (yield_found U c (pool :: pools)) as [[r' |] | ex] eqn:Hf.
      * unfold ret. intros H. injection H as <- _. right.
        exists e, w, w1, (pool :: pools).
        split; [left; reflexivity | split; assumption].
      * intros H.
        destruct (IH _ _ _ H) as [-> | (entity & w0 & w2 & ps & Hin & Hq & Hf')].
        -- left. reflexivity.
        -- right. exists entity, w0, w2, ps.
        split; [right; assumption | split; assumption].
      * discriminate.
Qed.
End GeneralAndYield.

(** No pool of the list is within the band when the loop over the pools
    ends without a result. *)
Lemma match_pool_none (c : ExtractedClaim) (claimed : float) (pools : list dict) :
  match_pool c (Some claimed) pools = Ok None ->
  float_truthy claimed = true ->
  forall pool ratio,
    In pool pools ->
    json_truthy (dict_get pool (str_of "apy") (JInt 0)) = true ->
    json_div_float (dict_get pool (str_of "apy") (JInt 0)) claimed = Ok ratio ->
    between (decimal 7 1) ratio (decimal 13 1) = false.
Proof.
  intros H Hc. induction pools as [| p rest IH]; intros pool ratio Hin Ht Hdiv;
    [destruct Hin |].
  simpl in H. rewrite Hc in H.
  destruct (json_truthy (dict_get p (str_of "apy") (JInt 0))) eqn:Hp; simpl in H.
  - destruct (json_div_float (dict_get p (str_of "apy") (JInt 0)) claimed)
      as [r0 |] eqn:Hd; simpl in H; [| discriminate].
    destruct (between (decimal 7 1) r0 (decimal 13 1)) eqn:Hb.
    + destruct (as_formatted (dict_get p (str_of "apy") (JInt 0))); discriminate.
    + destruct Hin as [<- | Hin].
      * rewrite Hd in Hdiv. injection Hdiv as <-. assumption.
      * apply (IH H pool ratio Hin Ht Hdiv).
  - destruct Hin as [<- | Hin].
    + rewrite Hp in Ht. discriminate.
    + apply (IH H pool ratio Hin Ht Hdiv).
Qed.



(** X5.  [_verify_yield_claim]: a result other than "unverified" comes
    from the pools of one of the claim's entities and from a percentage
    read in the claim text.  It is "verified" only through one of the
    first ten pools, whose APY divided by the claimed one is within
    [0.7, 1.3]; it is "outdated" when the claimed percentage is not zero
    and none of the first ten pools with an APY is within the band, and
    then the reported value is the average of the first five. *)
Theorem yield_result_explained :
  forall (U : Unicode) (World : Type)
         (get_protocol_tvl get_chain_tvl get_token_price
            : json -> World -> option FactData * World)
         (get_yields : json -> World -> list dict * World)
         (c : ExtractedClaim) (ents : list json) (w w' : World)
         (r : VerificationResult),
    json_is_str (category c) "percentage" = true ->
    iterate (entities c) = Ok ents ->
    verify_single_claim U World get_protocol_tvl get_chain_tvl
      get_token_price get_yields c w = (Ok r, w') ->
    r = unverified c NoYieldData \/
    exists entity w0 w1 pools text claimed,
      In entity ents /\ get_yields entity w0 = (pools, w1) /\
      claim c = JStr text /\ _extract_percentage U text = Some claimed /\
      ((status r = VERIFIED /\
        exists pool ratio,
          In pool (firstn 10 pools) /\
          json_div_float (dict_get pool (str_of "apy") (JInt 0)) claimed
            = Ok ratio /\
          between (decimal 7 1) ratio (decimal 13 1) = true /\
          notes r = Some (PoolNote
            (dict_get pool (str_of "pool") (JStr (str_of "unknown"))))) \/
       (status r = OUTDATED /\ float_truthy claimed = true /\
        (forall pool ratio,
            In pool (firstn 10 pools) ->
            json_truthy (dict_get pool (str_of "apy") (JInt 0)) = true ->
            json_div_float (dict_get pool (str_of "apy") (JInt 0)) claimed
              = Ok ratio ->
            between (decimal 7 1) ratio (decimal 13 1) = false) /\
        exists avg_apy,
          average_apy pools = Ok avg_apy /\
          verified_value r = Some (AboutPercent1 avg_apy))).
Proof.
  intros U World tvl chain price yields c ents w w' r Hcat Hents.
  destruct (is_percentage_not_others _ Hcat) as [H1 H2].
  unfold verify_single_claim. rewrite H1, H2, Hcat.
  unfold _verify_yield_claim, io_bind, lift. rewrite Hents. intros H.
  destruct (yield_loop_result U World yields c ents w r w' H)
    as [-> | (entity & w0 & w1 & pools & Hin & Hq & Hf)]; [left; reflexivity |].
  right. apply yield_found_result in Hf.
  destruct Hf as (claimed & Hx & Hcases).
  assert (Htext : exists text, claim c = JStr text /\
                               _extract_percentage U text = Some claimed).
  { unfold extract_percentage_of in Hx. destruct (claim c); try discriminate.
    injection Hx as Hx. eexists. split; [reflexivity | assumption]. }
  destruct Htext as (text & Hc & Hp).
  exists entity, w0, w1, pools, text, claimed. repeat split; auto.
  destruct Hcases as [(pool & ratio & Hpin & Hdiv & Hb & Hs & Hn)
                     | (Hnone & Ht & avg & Havg & Hs & Hv & Hn)].
  - left. split; [assumption |]. exists pool, ratio. repeat split; auto.
  - right. split; [assumption |]. split; [assumption |]. split.
    + apply (match_pool_none c claimed (firstn 10 pools) Hnone Ht).
    + exists avg. split; assumption.
Qed.

Section Backed.
Variable U : Unicode.
Variable World : Type.
Variable get_protocol_tvl : json -> World -> option FactData * World.
Variable get_chain_tvl : json -> World -> option FactData * World.
Variable get_token_price : json -> World -> option FactData * World.
Variable get_yields : json -> World -> list dict * World.

(** Goes through the branches of a computation known to equal [Ok r] and
    checks the record each branch builds. *)
Ltac check_branches H :=
  repeat match type of H with
         | context [match ?x with _ => _ end] => destruct x eqn:?
         end;
  try discriminate;
  try (injection H as <-; unfold backed_by_source; simpl;
       repeat split; auto; discriminate).

Lemma tvl_found_backed (c : ExtractedClaim) (d : FactData)
  (r : VerificationResult) :
  tvl_found U c d = Ok r -> backed_by_source r.
Proof. unfold tvl_found, bind. intros H. check_branches H. Qed.

Lemma price_found_backed (c : ExtractedClaim) (d : FactData)
  (r : VerificationResult) :
  price_found U c d = Ok r -> backed_by_source r.
Proof. unfold price_found, bind. intros H. check_branches H. Qed.

Lemma yield_found_backed (c : ExtractedClaim) (pools : list dict)
  (r : VerificationResult) :
  yield_found U c pools = Ok (Some r) -> backed_by_source r.
Proof.
  unfold yield_found, bind. intros H.
  destruct (extract_percentage_of U (claim c)) as [claimed_apy |]; [| discriminate].
  destruct (match_pool c claimed_apy (firstn 10 pools)) as [[r' |] |] eqn:Hm;
    [| | discriminate].
  - injection H as <-.
    destruct (match_pool_verified _ _ _ _ Hm)
      as (pool & claimed & ratio & p & _ & _ & _ & _ & _ & ->).
    unfold backed_by_source. simpl. split; [left; reflexivity | discriminate].
  - check_branches H.
Qed.

Lemma tvl_loop_backed (c : ExtractedClaim) (ents : list json) :
  forall w r w',
    tvl_loop U World get_protocol_tvl c ents w = (Ok r, w') -> backed_by_source r.
Proof.
  induction ents as [| entity rest IH]; intros w r w'; simpl.
  - unfold ret. intros H. injection H as <- _. unfold backed_by_source. simpl. auto.
  - unfold io_bind, call, lift.
    destruct (get_protocol_tvl entity w) as [[d |] w1]; [| apply IH].
    intros H. injection H as H _. eapply tvl_found_backed. eassumption.
Qed.

Lemma price_loop_backed (c : ExtractedClaim) (ents : list json) :
  forall w r w',
    price_loop U World get_token_price c ents w = (Ok r, w') -> backed_by_source r.
Proof.
  induction ents as [| entity rest IH]; intros w r w'; simpl.
  - unfold ret. intros H. injection H as <- _. unfold backed_by_source. simpl. auto.
  - unfold io_bind, call, lift.
    destruct (get_token_price entity w) as [[d |] w1]; [| apply IH].
    intros H. injection H as H _. eapply price_found_backed. eassumption.
Qed.

Lemma yield_loop_backed (c : ExtractedClaim) (ents : list json) :
  forall w r w',
    yield_loop U World get_yields c ents w = (Ok r, w') -> backed_by_source r.
Proof.
  intros w r w' H.
  destruct (yield_loop_result U World get_yields c ents w r w' H)
    as [-> | (entity & w0 & w1 & pools & _ & _ & Hf)].
  - unfold backed_by_source. simpl. auto.
  - eapply yield_found_backed. eassumption.
Qed.

Lemma general_loop_backed (c : ExtractedClaim) (ents : list json) :
  forall w r w',
    general_loop World get_protocol_tvl get_chain_tvl get_token_price
      c ents w = (Ok r, w') -> backed_by_source r.
Proof.
  induction ents as [| entity rest IH]; intros w r w'; simpl.
  - unfold ret. intros H. injection H as <- _. unfold backed_by_source. simpl. auto.
  - unfold io_bind, call, lift, ret.
    destruct (defillama_query World get_protocol_tvl get_chain_tvl entity w)
      as [[d |] w1].
    + intros H. injection H as <- _. unfold backed_by_source. simpl.
      split; [left; reflexivity | discriminate].
    + destruct (coingecko_query World get_token_price entity w1) as [[d |] w2];
        [| apply IH].
      destruct (as_formatted (data_value d)); [| discriminate].
      intros H. injection H as <- _. unfold backed_by_source. simpl.
      split; [right; reflexivity | discriminate].
Qed.

Lemma verify_single_claim_backed (c : ExtractedClaim) (w w' : World)
  (r : VerificationResult) :
  verify_single_claim U World get_protocol_tvl get_chain_tvl get_token_price
    get_yields c w = (Ok r, w') ->
  backed_by_source r.
Proof.
  unfold verify_single_claim, _verify_tvl_claim, _verify_price_claim,
    _verify_yield_claim, _verify_general_claim, io_bind, lift.
  destruct (json_is_str (category c) "tvl");
    [| destruct (json_is_str (category c) "price");
       [| destruct (json_is_str (category c) "percentage")]];
    (destruct (iterate (entities c)) as [ents | e]; [| discriminate]).
  - apply tvl_loop_backed.
  - apply price_loop_backed.
  - apply yield_loop_backed.
  - apply general_loop_backed.
Qed.

(** The facts of [verify_each] are the results of the claims, one for
    one and in their order. *)
Lemma verify_each_facts (video_id : str) (claims : list ExtractedClaim) :
  forall w facts w',
    verify_each U World get_protocol_tvl get_chain_tvl get_token_price
      get_yields video_id claims w = (Ok facts, w') ->
    map fact_claim facts = map claim claims /\
    Forall (fun f => fact_video_id f = video_id) facts /\
    Forall (fun f => exists r, backed_by_source r /\
                               fact_status f = status r /\
                               fact_source f = source r /\
                               fact_verified_value f = verified_value r) facts.
Proof.
  induction claims as [| c rest IH]; intros w facts w'; simpl.
  - unfold ret. intros H. injection H as <- _. repeat split; constructor.
  - unfold io_bind, lift, ret.
    destruct (verify_single_claim U World get_protocol_tvl get_chain_tvl
                get_token_price get_yields c w) as [[r | e] w1] eqn:Hr;
      [| discriminate].
    destruct (sliceable (claim c)); [| discriminate].
    destruct (verify_each U World get_protocol_tvl get_chain_tvl get_token_price
                get_yields video_id rest w1) as [[fs | e] w2] eqn:Hrest;
      [| discriminate].
    intros H. injection H as <- _.
    destruct (IH _ _ _ Hrest) as (Hmap & Hvid & Hback).
    repeat split.
    + simpl. rewrite Hmap. reflexivity.
    + constructor; [reflexivity | assumption].
    + constructor; [| assumption].
      exists r. simpl. repeat split.
      eapply verify_single_claim_backed. eassumption.
Qed.
End Backed.

Section ExtractBounds.
Variable float_of_str : str -> option float.
Variable World : Type.

Lemma extract_claims_length
  (ask_model : str -> World -> result (list json) * World)
  (text : str) (max_claims : Z) (w : World) :
  0 <= max_claims ->
  Z.of_nat (List.length (fst (extract_claims float_of_str World ask_model
                                text max_claims w))) <= max_claims.
Proof.
  intros Hmax. unfold extract_claims.
  destruct (Z.of_nat (List.length text) <? 50); [simpl; lia |].
  destruct (ask_model _ w) as [[data | e] w1]; simpl; [| lia].
  destruct (claims_from_data float_of_str data max_claims) as [claims | e] eqn:Hc;
    simpl; [| lia].
  apply claims_from_data_result in Hc. subst claims.
  rewrite slice_to_nonneg by assumption.
  pose proof (kept_claims_length float_of_str (firstn (Z.to_nat max_claims) data)).
  pose proof (firstn_le_length (Z.to_nat max_claims) data). lia.
Qed.
End ExtractBounds.

Lemma yield_result_explained_witness :
  let c := {| claim := JStr (str_of "Aave yields 5.5%");
              category := JStr (str_of "percentage");
              entities := JArr [JStr (str_of "Aave")];
              original_text := JStr [];
              confidence := decimal 9 1 |} in
  let pool := [(str_of "project", JStr (str_of "aave"));
               (str_of "pool", JStr (str_of "aave-usdc"));
               (str_of "apy", JFloat (decimal 5 0))] in
  let r := {| result_claim := c; status := VERIFIED;
              source := Some defillama_name;
              verified_value := Some (Percent1 (NFloat (decimal 5 0)));
              original_value := Some (Percent1 (NFloat (decimal 55 1)));
              notes := Some (PoolNote (JStr (str_of "aave-usdc"))) |} in
  r = unverified c NoYieldData \/
  exists entity w0 w1 pools text claimed,
    In entity [JStr (str_of "Aave")] /\ pools_are [pool] entity w0 = (pools, w1) /\
    claim c = JStr text /\ _extract_percentage ascii_unicode text = Some claimed /\
    ((status r = VERIFIED /\
      exists pool ratio,
        In pool (firstn 10 pools) /\
        json_div_float (dict_get pool (str_of "apy") (JInt 0)) claimed = Ok ratio /\
        between (decimal 7 1) ratio (decimal 13 1) = true /\
        notes r = Some (PoolNote
          (dict_get pool (str_of "pool") (JStr (str_of "unknown"))))) \/
     (status r = OUTDATED /\ float_truthy claimed = true /\
      (forall pool ratio,
          In pool (firstn 10 pools) ->
          json_truthy (dict_get pool (str_of "apy") (JInt 0)) = true ->
          json_div_float (dict_get pool (str_of "apy") (JInt 0)) claimed
            = Ok ratio ->
          between (decimal 7 1) ratio (decimal 13 1) = false) /\
      exists avg_apy,
        average_apy pools = Ok avg_apy /\
        verified_value r = Some (AboutPercent1 avg_apy))).
Proof.
  intros c pool r.
  apply (yield_result_explained ascii_unicode unit no_answer no_answer no_answer
           (pools_are [pool]) c [JStr (str_of "Aave")] tt tt r);
    vm_compute; reflexivity.
Defined.

Lemma get_only_verified_In (facts : list VerifiedFact) (f : VerifiedFact) :
  In f (get_only_verified facts) <-> In f facts /\ fact_status f = VERIFIED.
Proof.
  unfold get_only_verified. rewrite filter_In.
  split; intros [Hin Hs]; (split; [assumption |]).
  - destruct (fact_status f); simpl in Hs; try discriminate. reflexivity.
  - rewrite Hs. reflexivity.
Qed.

(** X6.  The facts [verify_claims] returns, as [get_only_verified] hands
    them to the script writer: [get_only_verified] keeps exactly the
    facts whose status is "verified"; each of them names one of the two
    providers as its source and has a verified value; and among all the
    returned facts, the ones without a source are exactly the
    "unverified" ones. *)
Theorem verified_facts_carry_source :
  forall (U : Unicode) (float_of_str : str -> option float) (World : Type)
         (ask_model : str -> World -> result (list json) * World)
         (get_protocol_tvl get_chain_tvl get_token_price
            : json -> World -> option FactData * World)
         (get_yields : json -> World -> list dict * World)
         (transcript_text video_id : str) (w w' : World)
         (facts : list VerifiedFact),
    verify_claims U float_of_str World ask_model get_protocol_tvl get_chain_tvl
      get_token_price get_yields transcript_text video_id w = (Ok facts, w') ->
    (forall f, In f (get_only_verified facts) <->
               In f facts /\ fact_status f = VERIFIED) /\
    Forall (fun f =>
              (fact_source f = Some defillama_name \/
               fact_source f = Some coingecko_name) /\
              fact_verified_value f <> None)
      (get_only_verified facts) /\
    Forall (fun f => fact_status f = UNVERIFIED <-> fact_source f = None) facts.
Proof.
  intros U fos World ask tvl chain price yields text video w w' facts.
  unfold verify_claims, io_bind, call.
  destruct (extract_claims fos World ask text 20 w) as [claims w1].
  intros H.
  assert (Hback : Forall (fun f => exists r, backed_by_source r /\
                                            fact_status f = status r /\
                                            fact_source f = source r /\
                                            fact_verified_value f = verified_value r)
                    facts).
  { destruct claims as [| c rest].
    - unfold ret in H. injection H as <- _. constructor.
    - eapply verify_each_facts. eassumption. }
  split; [apply get_only_verified_In |]. split.
  - rewrite Forall_forall in *. intros f Hf.
    apply get_only_verified_In in Hf. destruct Hf as [Hin Hs].
    destruct (Hback f Hin) as (r & Hb & Es & Eso & Ev).
    unfold backed_by_source in Hb. rewrite <- Es, Hs in Hb.
    rewrite Eso, Ev. exact Hb.
  - eapply Forall_impl; [| exact Hback].
    intros f (r & Hb & Es & Eso & Ev). cbv beta.
    unfold backed_by_source in Hb. rewrite Es, Eso.
    destruct (status r); split; intros E; try discriminate; try tauto.
    + destruct Hb as [[E1 | E1] _]; rewrite E1 in E; discriminate.
    + destruct Hb as [[E1 | E1] _]; rewrite E1 in E; discriminate.
Qed.

(** X7.  [verify_claims] returns one fact for each claim the extractor
    returned, in the same order, with the claim's text and the video id,
    and never more than twenty facts. *)
Theorem one_fact_per_claim :
  forall (U : Unicode) (float_of_str : str -> option float) (World : Type)
         (ask_model : str -> World -> result (list json) * World)
         (get_protocol_tvl get_chain_tvl get_token_price
            : json -> World -> option FactData * World)
         (get_yields : json -> World -> list dict * World)
         (transcript_text video_id : str) (w w' : World)
         (facts : list VerifiedFact),
    verify_claims U float_of_str World ask_model get_protocol_tvl get_chain_tvl
      get_token_price get_yields transcript_text video_id w = (Ok facts, w') ->
    map fact_claim facts =
      map claim (fst (extract_claims float_of_str World ask_model
                        transcript_text 20 w)) /\
    Forall (fun f => fact_video_id f = video_id) facts /\
    (List.length facts <= 20)%nat.
Proof.
  intros U fos World ask tvl chain price yields text video w w' facts.
  unfold verify_claims, io_bind, call.
  pose proof (extract_claims_length fos World ask text 20 w ltac:(lia)) as Hlen.
  destruct (extract_claims fos World ask text 20 w) as [claims w1].
  simpl fst in *. intros H.
  assert (Hfacts : map fact_claim facts = map claim claims /\
                   Forall (fun f => fact_video_id f = video) facts).
  { destruct claims as [| c rest].
    - unfold ret in H. injection H as <- _. split; [reflexivity | constructor].
    - destruct (verify_each_facts U World tvl chain price yields video
                  (c :: rest) w1 facts w' H) as (Hm & Hv & _).
      split; assumption. }
  destruct Hfacts as [Hm Hv]. repeat split; try assumption.
  assert (Hl : List.length facts = List.length claims).
  { rewrite <- (length_map fact_claim facts), Hm. apply length_map. }
  lia.
Qed.

(** X8.  A transcript of fewer than 50 characters yields no fact, and
    neither the generative collaborator nor any source is called: the
    world is left as it was, whatever they would have answered. *)
Theorem short_transcript_no_calls :
  forall (U : Unicode) (float_of_str : str -> option float) (World : Type)
         (ask_model : str -> World -> result (list json) * World)
         (get_protocol_tvl get_chain_tvl get_token_price
            : json -> World -> option FactData * World)
         (get_yields : json -> World -> list dict * World)
         (transcript_text video_id : str) (w : World),
    (List.length transcript_text < 50)%nat ->
    verify_claims U float_of_str World ask_model get_protocol_tvl get_chain_tvl
      get_token_price get_yields transcript_text video_id w = (Ok [], w).
Proof.
  intros U fos World ask tvl chain price yields text video w Hlen.
  unfold verify_claims, io_bind, call, extract_claims.
  destruct (Z.ltb_spec (Z.of_nat (List.length text)) 50) as [_ | Hge]; [| lia].
  reflexivity.
Qed.

(** X9.  The generative collaborator is never shown more than 15003
    characters: two collaborators that answer alike on every text of at
    most that length give the same extracted claims on every
    transcript. *)
Theorem model_sees_bounded_text :
  forall (float_of_str : str -> option float) (World : Type)
         (ask_model ask_model' : str -> World -> result (list json) * World)
         (text : str) (max_claims : Z) (w : World),
    (forall t w0, Z.of_nat (List.length t) <= 15003 ->
                  ask_model t w0 = ask_model' t w0) ->
    extract_claims float_of_str World ask_model text max_claims w =
    extract_claims float_of_str World ask_model' text max_claims w.
Proof.
  intros fos World ask ask' text max w Hagree. unfold extract_claims.
  destruct (Z.of_nat (List.length text) <? 50); [reflexivity |].
  destruct (Z.ltb_spec 15000 (Z.of_nat (List.length text))) as [Hlong | Hshort].
  - rewrite Hagree; [reflexivity |].
    rewrite length_app, length_firstn.
    change (List.length (str_of "...")) with 3%nat. lia.
  - rewrite Hagree; [reflexivity | lia].
Qed.

Lemma verified_facts_carry_source_witness :
  exists facts : list VerifiedFact,
    verify_claims ascii_unicode (fun _ => None) unit
      (fun _ w =>
         (Ok [JObj [(str_of "claim", JStr (str_of "Aave TVL is $10 billion"));
                    (str_of "category", JStr (str_of "tvl"));
                    (str_of "entities", JArr [JStr (str_of "Aave")]);
                    (str_of "confidence", JFloat (decimal 9 1))];
              JObj [(str_of "claim", JStr (str_of "Nobody knows this one"));
                    (str_of "category", JStr (str_of "other"));
                    (str_of "entities", JArr []);
                    (str_of "confidence", JFloat (decimal 8 1))]], w))
      (answers defillama_name (JFloat (decimal 11000000000 0)))
      no_answer no_answer (pools_are [])
      (repeat 97%N 50) (str_of "video") tt = (Ok facts, tt) /\
    List.length facts = 2%nat /\
    List.length (get_only_verified facts) = 1%nat /\
    (forall f, In f (get_only_verified facts) <->
               In f facts /\ fact_status f = VERIFIED) /\
    Forall (fun f =>
              (fact_source f = Some defillama_name \/
               fact_source f = Some coingecko_name) /\
              fact_verified_value f <> None)
      (get_only_verified facts) /\
    Forall (fun f => fact_status f = UNVERIFIED <-> fact_source f = None) facts.
Proof.
  eexists. split; [vm_compute; reflexivity |].
  split; [reflexivity |]. split; [reflexivity |].
  eapply (verified_facts_carry_source ascii_unicode (fun _ => None) unit
            (fun _ w =>
               (Ok [JObj [(str_of "claim", JStr (str_of "Aave TVL is $10 billion"));
                          (str_of "category", JStr (str_of "tvl"));
                          (str_of "entities", JArr [JStr (str_of "Aave")]);
                          (str_of "confidence", JFloat (decimal 9 1))];
                    JObj [(str_of "claim", JStr (str_of "Nobody knows this one"));
                          (str_of "category", JStr (str_of "other"));
                          (str_of "entities", JArr []);
                          (str_of "confidence", JFloat (decimal 8 1))]], w))
            (answers defillama_name (JFloat (decimal 11000000000 0)))
            no_answer no_answer (pools_are [])
            (repeat 97%N 50) (str_of "video") tt tt).
  vm_compute. reflexivity.
Defined.

Lemma one_fact_per_claim_witness :
  exists facts : list VerifiedFact,
    verify_claims ascii_unicode (fun _ => None) unit
      (fun _ w =>
         (Ok [JObj [(str_of "claim", JStr (str_of "Aave TVL is $10 billion"));
                    (str_of "category", JStr (str_of "tvl"));
                    (str_of "entities", JArr [JStr (str_of "Aave")]);
                    (str_of "confidence", JFloat (decimal 9 1))]], w))
      (answers defillama_name (JFloat (decimal 11000000000 0)))
      no_answer no_answer (pools_are [])
      (repeat 97%N 50) (str_of "video") tt = (Ok facts, tt) /\
    map fact_claim facts =
      map claim
        (fst (extract_claims (fun _ => None) unit
                (fun _ w =>
                   (Ok [JObj [(str_of "claim",
                               JStr (str_of "Aave TVL is $10 billion"));
                              (str_of "category", JStr (str_of "tvl"));
                              (str_of "entities", JArr [JStr (str_of "Aave")]);
                              (str_of "confidence", JFloat (decimal 9 1))]], w))
                (repeat 97%N 50) 20 tt)) /\
    Forall (fun f => fact_video_id f = str_of "video") facts /\
    (List.length facts <= 20)%nat.
Proof.
  eexists. split; [vm_compute; reflexivity |].
  eapply (one_fact_per_claim ascii_unicode (fun _ => None) unit
            (fun _ w =>
               (Ok [JObj [(str_of "claim", JStr (str_of "Aave TVL is $10 billion"));
                          (str_of "category", JStr (str_of "tvl"));
                          (str_of "entities", JArr [JStr (str_of "Aave")]);
                          (str_of "confidence", JFloat (decimal 9 1))]], w))
            (answers defillama_name (JFloat (decimal 11000000000 0)))
            no_answer no_answer (pools_are [])
            (repeat 97%N 50) (str_of "video") tt tt).
  vm_compute. reflexivity.
Defined.

Lemma short_transcript_no_calls_witness :
  verify_claims ascii_unicode (fun _ => None) unit
    (fun _ w => (Ok [JObj [(str_of "claim", JStr (str_of "Aave TVL is $10 billion"));
                           (str_of "confidence", JFloat (decimal 9 1))]], w))
    (answers defillama_name (JFloat (decimal 11000000000 0)))
    no_answer no_answer (pools_are [])
    (str_of "Aave TVL is $10 billion") (str_of "video") tt = (Ok [], tt).
Proof.
  apply (short_transcript_no_calls ascii_unicode (fun _ => None) unit).
  vm_compute. lia.
Defined.

Lemma model_sees_bounded_text_witness :
  extract_claims (fun _ => None) unit
    (fun t w => (Ok [JObj [(str_of "claim", JStr t)]], w)) (repeat 97%N 60) 20 tt =
  extract_claims (fun _ => None) unit
    (fun t w => if (Z.of_nat (List.length t) <=? 15003)
                then (Ok [JObj [(str_of "claim", JStr t)]], w)
                else (Raise TypeError, w))
    (repeat 97%N 60) 20 tt.
Proof.
  apply (model_sees_bounded_text (fun _ => None) unit
           (fun t w => (Ok [JObj [(str_of "claim", JStr t)]], w))
           (fun t w => if (Z.of_nat (List.length t) <=? 15003)
                       then (Ok [JObj [(str_of "claim", JStr t)]], w)
                       else (Raise TypeError, w))).
  intros t w0 Hlen.
  destruct (Z.leb_spec (Z.of_nat (List.length t)) 15003); [reflexivity | lia].
Defined.

(** ** Keyword categories *)

Lemma strip_prefix_complete (l s : str) : strip_prefix l (l ++ s) = Some s.
Proof.
  induction l as [| a l IH]; simpl; [reflexivity |].
  rewrite N.eqb_refl. exact IH.
Qed.

(** [needle in hay] is true exactly when [needle] occurs in [hay]. *)
Lemma contains_spec (needle hay : str) :
  contains needle hay = true <->
  exists before after, hay = before ++ needle ++ after.
Proof.
  split.
  - induction hay as [| c rest IH]; simpl.
    + destruct (strip_prefix needle []) as [s' |] eqn:Hp; [| discriminate].
      intros _. apply strip_prefix_sound in Hp. exists [], s'. exact Hp.
    + destruct (strip_prefix needle (c :: rest)) as [s' |] eqn:Hp.
      * intros _. apply strip_prefix_sound in Hp. exists [], s'. exact Hp.
      * intros H. destruct (IH H) as (b & a & ->). exists (c :: b), a. reflexivity.
  - intros (before & after & ->).
    induction before as [| c b IH]; simpl.
    + destruct needle; simpl.
      * destruct after; reflexivity.
      * rewrite N.eqb_refl.
        rewrite (strip_prefix_complete needle after). reflexivity.
    + destruct (strip_prefix needle (c :: b ++ needle ++ after)); [reflexivity | exact IH].
Qed.

Lemma any_in_spec (words : list str) (text : str) :
  any_in words text = true <-> mentions words text.
Proof.
  unfold any_in, mentions. rewrite existsb_exists. split.
  - intros (w & Hin & Hc). apply contains_spec in Hc.
    destruct Hc as (b & a & ->). exists w, b, a. auto.
  - intros (w & b & a & Hin & ->). exists w. split; [assumption |].
    apply contains_spec. exists b, a. reflexivity.
Qed.

Lemma any_in_false (words : list str) (text : str) :
  any_in words text = false <-> ~ mentions words text.
Proof.
  rewrite <- any_in_spec. destruct (any_in words text); split; intros H;
    try discriminate; try reflexivity; try (intros E; discriminate).
  exfalso. apply H. reflexivity.
Qed.

(** X10.  [categorize_claim] tests the keyword lists in the order price,
    tvl, percentage, date, protocol_info on the lower-cased text, and the
    first list with a word occurring anywhere in it decides: a text that
    mentions a price word (a dollar sign, for one) is "price" whatever
    else it mentions; a later category requires that no word of the
    earlier lists occurs; "other" is returned exactly when no keyword
    occurs at all. *)
Theorem categorize_claim_priority :
  forall (U : Unicode) (text : str),
    let t := lower U text in
    (mentions price_words t -> categorize_claim U text = "price"%string) /\
    (~ mentions price_words t -> mentions tvl_words t ->
     categorize_claim U text = "tvl"%string) /\
    (~ mentions price_words t -> ~ mentions tvl_words t ->
     mentions percentage_words t ->
     categorize_claim U text = "percentage"%string) /\
    (~ mentions price_words t -> ~ mentions tvl_words t ->
     ~ mentions percentage_words t -> mentions date_words t ->
     categorize_claim U text = "date"%string) /\
    (~ mentions price_words t -> ~ mentions tvl_words t ->
     ~ mentions percentage_words t -> ~ mentions date_words t ->
     mentions protocol_words t ->
     categorize_claim U text = "protocol_info"%string) /\
    (categorize_claim U text = "other"%string <->
     ~ mentions (price_words ++ tvl_words ++ percentage_words ++ date_words
                   ++ protocol_words) t).
Proof.
  intros U text t. unfold categorize_claim. fold t.
  assert (Happ : forall a b, mentions (a ++ b) t <-> mentions a t \/ mentions b t).
  { intros a b. unfold mentions. split.
    - intros (w & x & y & Hin & E). apply in_app_or in Hin.
      destruct Hin; [left | right]; exists w, x, y; auto.
    - intros [(w & x & y & Hin & E) | (w & x & y & Hin & E)];
        exists w, x, y; (split; [apply in_or_app; auto | assumption]). }
  pose proof (any_in_spec price_words t) as P1.
  pose proof (any_in_spec tvl_words t) as P2.
  pose proof (any_in_spec percentage_words t) as P3.
  pose proof (any_in_spec date_words t) as P4.
  pose proof (any_in_spec protocol_words t) as P5.
  rewrite !Happ.
  destruct (any_in price_words t); [| destruct (any_in tvl_words t);
    [| destruct (any_in percentage_words t); [| destruct (any_in date_words t);
      [| destruct (any_in protocol_words t)]]]];
    repeat split; intros; try reflexivity; try discriminate;
    try (exfalso; intuition congruence); intuition congruence.
Qed.

Lemma categorize_claim_priority_witness :
  mentions price_words (lower ascii_unicode (str_of "Aave TVL is $10 billion")) /\
  mentions tvl_words (lower ascii_unicode (str_of "Aave TVL is $10 billion")) /\
  categorize_claim ascii_unicode (str_of "Aave TVL is $10 billion") = "price"%string.
Proof.
  assert (H : mentions price_words
                (lower ascii_unicode (str_of "Aave TVL is $10 billion"))).
  { exists (str_of "$"), (str_of "aave tvl is "), (str_of "10 billion").
    split; [vm_compute; tauto | vm_compute; reflexivity]. }
  split; [exact H |]. split.
  - exists (str_of "tvl"), (str_of "aave "), (str_of " is $10 billion").
    split; [vm_compute; tauto | vm_compute; reflexivity].
  - exact (proj1 (categorize_claim_priority ascii_unicode
                    (str_of "Aave TVL is $10 billion")) H).
Defined.

(** ** Percentage extraction *)

Section PercentageFacts.
Variable U : Unicode.

Lemma percent_pattern_matches (word s : str) (g : option str) :
  matches (percent_pattern U word) s None g ->
  exists grp ws,
    s = grp ++ ws ++ word /\ g = Some grp /\ grp <> [] /\
    Forall (fun c => digit_or_dot U c = true) grp /\
    Forall (fun c => is_space U c = true) ws.
Proof.
  unfold percent_pattern. simpl.
  intros (grp & s2 & g1 & -> & ((gi & Hne & Hall & _) & ->) & H).
  destruct H as (ws & w' & g2 & -> & (Hws & ->) & (-> & ->)).
  exists grp, ws. repeat split; auto.
Qed.

Lemma first_parsed_plain_spec (ps : list regex) (text : str) (x : float) :
  first_parsed_plain U ps text = Some x ->
  exists pattern g,
    In pattern ps /\ search_group1 pattern text = Some g /\
    float_of_digits U g = Some x.
Proof.
  induction ps as [| pattern rest IH]; simpl; [discriminate |].
  destruct (search_group1 pattern text) as [g |] eqn:Hs.
  - destruct (float_of_digits U g) as [y |] eqn:Hf.
    + intros H. injection H as <-. exists pattern, g. auto.
    + intros H. destruct (IH H) as (p & g' & Hin & ? & ?). exists p, g'. auto.
  - intros H. destruct (IH H) as (p & g' & Hin & ? & ?). exists p, g'. auto.
Qed.
End PercentageFacts.

(** X11.  [_extract_percentage] returns a number only when, in the
    lower-cased text, a run of digits and dots is directly followed,
    after optional white space, by a percent sign or by the word
    "percent" in Russian or English, and the number is [float] of that
    run, unscaled; a text without a digit has no percentage.  "APY of
    15.5%" and "15.5 percent" give 15.5. *)
Theorem extract_percentage_spec :
  (forall (U : Unicode) (text : str) (x : float),
     _extract_percentage U text = Some x ->
     exists g ws word before after,
       In word [[percent_sign]; protsent; str_of "percent"] /\
       lower U text = before ++ g ++ ws ++ word ++ after /\
       g <> [] /\
       Forall (fun c => digit_or_dot U c = true) g /\
       Forall (fun c => is_space U c = true) ws /\
       float_of_digits U g = Some x) /\
  (forall (U : Unicode) (text : str),
     Forall (fun c => is_digit U c = false) (lower U text) ->
     _extract_percentage U text = None) /\
  _extract_percentage ascii_unicode (str_of "APY of 15.5%") = Some (decimal 155 1) /\
  _extract_percentage ascii_unicode (str_of "15.5 percent") = Some (decimal 155 1).
Proof.
  assert (Hsound : forall (U : Unicode) (text : str) (x : float),
             _extract_percentage U text = Some x ->
             exists g ws word before after,
               In word [[percent_sign]; protsent; str_of "percent"] /\
               lower U text = before ++ g ++ ws ++ word ++ after /\
               g <> [] /\
               Forall (fun c => digit_or_dot U c = true) g /\
               Forall (fun c => is_space U c = true) ws /\
               float_of_digits U g = Some x).
  { intros U text x H. unfold _extract_percentage in H.
    apply first_parsed_plain_spec in H. destruct H as (pattern & g & Hin & Hs & Hf).
    assert (Hword : exists word, In word [[percent_sign]; protsent; str_of "percent"] /\
                                 pattern = percent_pattern U word).
    { unfold percent_patterns in Hin. simpl in Hin.
      destruct Hin as [<- | [<- | [<- | []]]]; eexists; (split; [| reflexivity]);
        simpl; auto. }
    destruct Hword as (word & Hw & ->).
    unfold search_group1 in Hs.
    destruct (re_search (percent_pattern U word) (lower U text)) as [og |] eqn:Hr;
      [| discriminate].
    apply re_search_sound in Hr. destruct Hr as (before & s1 & after & Ht & Hm).
    apply percent_pattern_matches in Hm.
    destruct Hm as (grp & ws & -> & -> & Hne & Hall & Hws).
    injection Hs as <-.
    exists grp, ws, word, before, after. repeat split; auto.
    rewrite Ht. rewrite <- !app_assoc. reflexivity. }
  split; [exact Hsound |]. split; [| split; vm_compute; reflexivity].
  intros U text Hno.
  destruct (_extract_percentage U text) as [x |] eqn:E; [| reflexivity].
  destruct (Hsound U text x E) as (g & ws & word & b & a & _ & Ht & _ & _ & _ & Hf).
  apply float_of_digits_has_digit in Hf. destruct Hf as (c & Hin & Hc).
  rewrite Forall_forall in Hno. rewrite Ht in Hno.
  rewrite (Hno c) in Hc; [discriminate |].
  apply in_or_app. right. apply in_or_app. left. assumption.
Qed.

Lemma extract_percentage_spec_witness :
  exists g ws word before after,
    In word [[percent_sign]; protsent; str_of "percent"] /\
    lower ascii_unicode (str_of "APY of 15.5%") = before ++ g ++ ws ++ word ++ after /\
    g <> [] /\
    Forall (fun c => digit_or_dot ascii_unicode c = true) g /\
    Forall (fun c => is_space ascii_unicode c = true) ws /\
    float_of_digits ascii_unicode g = Some (decimal 155 1).
Proof.
  apply (proj1 extract_percentage_spec ascii_unicode (str_of "APY of 15.5%")).
  vm_compute. reflexivity.
Defined.

(** ** Filtering the viral videos of a channel *)

Lemma check_virality_total (thresholds : ViralityThresholds)
  (small_max medium_max v s : Z) :
  max_subs (small thresholds) = Some small_max ->
  max_subs (medium thresholds) = Some medium_max ->
  0 <= v -> v < 2 ^ 1023 * Z.max s 1 ->
  exists r, check_virality thresholds v s = Ok r.
Proof.
  intros Ha Hb Hv Hlt. unfold check_virality.
  destruct (Z.leb_spec s 0) as [Hs | Hs]; [eexists; reflexivity |].
  destruct (get_channel_category_total thresholds small_max medium_max s Ha Hb)
    as [cat ->].
  replace (Z.max s 1) with s in Hlt by lia.
  destruct (int_truediv_total v s Hv Hs Hlt) as [q ->].
  simpl. eexists; reflexivity.
Qed.

Section FilterFacts.
Variable datetime : Type.
Variable fromisoformat : str -> option datetime.
Variable thresholds : ViralityThresholds.

Local Notation "'filter_viral'" :=
  (filter_viral_videos datetime fromisoformat thresholds).

(** X12.  For a channel without subscribers [filter_viral_videos]
    returns no video and raises nothing, whatever the views, the
    thresholds and the dates of the videos. *)
Theorem no_subscribers_no_viral_videos :
  forall (videos : list VideoData) (channel : Channel),
    channel_subscribers channel <= 0 ->
    filter_viral videos channel = Ok [].
Proof.
  intros videos channel Hs. induction videos as [| vd rest IH]; simpl; [reflexivity |].
  unfold check_virality.
  destruct (Z.leb_spec (channel_subscribers channel) 0); [| lia].
  simpl. exact IH.
Qed.

(** X13.  When [filter_viral_videos] returns, the videos it returns are
    the ones that pass the virality test, in the order of the input and
    one for one: each carries the id, title and views of its data, the
    id of the channel, the parsed publication date and the rounded score
    of the test.  It does return when the breakpoints are configured,
    the views are counts in the range of the division, and the date of
    every passing video can be parsed; the dates of the other videos are
    not parsed. *)
Theorem viral_videos_are_the_passing_ones :
  forall (videos : list VideoData) (channel : Channel),
    (forall vids,
        filter_viral videos channel = Ok vids ->
        Forall2 (built_from datetime fromisoformat thresholds channel)
          (filter (passes_test thresholds channel) videos) vids) /\
    (forall small_max medium_max,
        max_subs (small thresholds) = Some small_max ->
        max_subs (medium thresholds) = Some medium_max ->
        (forall vd, In vd videos ->
                    0 <= data_views vd <
                    2 ^ 1023 * Z.max (channel_subscribers channel) 1) ->
        (forall vd, In vd videos -> passes_test thresholds channel vd = true ->
                    fromisoformat (replace_Z (data_published_at vd)) <> None) ->
        exists vids, filter_viral videos channel = Ok vids).
Proof.
  intros videos channel. split.
  - induction videos as [| vd rest IH]; intros vids; simpl.
    + intros H. injection H as <-. constructor.
    + unfold passes_test at 1.
      destruct (check_virality thresholds (data_views vd) (channel_subscribers channel))
        as [r | e] eqn:Hr; simpl; [| discriminate].
      destruct (is_viral r) eqn:Hv; [| apply IH].
      destruct (fromisoformat (replace_Z (data_published_at vd))) as [t |] eqn:Ht;
        simpl; [| discriminate].
      destruct (filter_viral rest channel) as [l |]; simpl; [| discriminate].
      intros H. injection H as <-. constructor; [| apply IH; reflexivity].
      unfold built_from. simpl. repeat split; auto. exists r. auto.
  - intros a b Ha Hb Hviews Hdates.
    induction videos as [| vd rest IH]; simpl; [eexists; reflexivity |].
    destruct (Hviews vd (or_introl eq_refl)) as [Hv0 Hv1].
    destruct (check_virality_total thresholds a b (data_views vd)
                (channel_subscribers channel) Ha Hb Hv0 Hv1) as [r Hr].
    destruct IH as [l Hl].
    { intros vd' Hin. apply Hviews. right. assumption. }
    { intros vd' Hin. apply Hdates. right. assumption. }
    rewrite Hr. simpl. destruct (is_viral r) eqn:Hviral.
    + pose proof (Hdates vd (or_introl eq_refl)) as Hd.
      unfold passes_test in Hd. rewrite Hr in Hd. specialize (Hd Hviral).
      destruct (fromisoformat (replace_Z (data_published_at vd))) as [t |];
        [| contradiction].
      simpl. rewrite Hl. simpl. eexists; reflexivity.
    + rewrite Hl. eexists; reflexivity.
Qed.
End FilterFacts.

Lemma no_subscribers_no_viral_videos_witness :
  filter_viral_videos unit (fun _ => None) docstring_thresholds
    [ {| data_id := str_of "a1"; data_title := str_of "first";
         data_published_at := str_of "not a date"; data_views := 1000000 |} ]
    {| channel_id := str_of "UC1"; channel_subscribers := 0 |} = Ok [].
Proof.
  apply (no_subscribers_no_viral_videos unit (fun _ => None) docstring_thresholds).
  simpl. lia.
Defined.

Lemma viral_videos_are_the_passing_ones_witness :
  let channel := {| channel_id := str_of "UC1"; channel_subscribers := 5000 |} in
  let videos :=
    [ {| data_id := str_of "a1"; data_title := str_of "quiet";
         data_published_at := str_of "not a date"; data_views := 7498 |};
      {| data_id := str_of "a2"; data_title := str_of "loud";
         data_published_at := str_of "2024-05-01T10:00:00Z"; data_views := 7500 |} ] in
  let parse : str -> option str :=
    fun s => if str_eqb s (str_of "2024-05-01T10:00:00+00:00") then Some s
             else None in
  exists vids,
    filter_viral_videos str parse docstring_thresholds videos channel = Ok vids /\
    List.length vids = 1%nat /\
    Forall2 (built_from str parse docstring_thresholds channel)
      (filter (passes_test docstring_thresholds channel) videos) vids.
Proof.
  intros channel videos parse.
  destruct (proj2 (viral_videos_are_the_passing_ones str parse docstring_thresholds
                     videos channel) 5000 50000 eq_refl eq_refl) as [vids Hv].
  - intros vd [<- | [<- | []]]; vm_compute; split; try discriminate; reflexivity.
  - intros vd [<- | [<- | []]]; vm_compute; discriminate.
  - exists vids. split; [exact Hv |]. split.
    + vm_compute in Hv. injection Hv as <-. reflexivity.
    + apply (proj1 (viral_videos_are_the_passing_ones str parse docstring_thresholds
                      videos channel) vids Hv).
Defined.

(** ** Parsing the answer of the model *)

Lemma strip_prefix_head (x : char) (sub s : str) (c : char) :
  c <> x -> strip_prefix (x :: sub) (c :: s) = None.
Proof.
  intros Hne. simpl. destruct (N.eqb_spec x c) as [-> |]; [congruence | reflexivity].
Qed.

(** A search for [x :: sub] skips a prefix that has no [x]. *)
Lemma find_at_skip (x : char) (sub pre rest : str) (i : Z) :
  without x pre ->
  find_at (x :: sub) (pre ++ rest) i
    = find_at (x :: sub) rest (i + Z.of_nat (List.length pre)).
Proof.
  intros Hpre. revert i. induction Hpre as [| c pre Hc _ IH]; intros i.
  - simpl List.length. simpl app. f_equal. lia.
  - change ((c :: pre) ++ rest) with (c :: (pre ++ rest)).
    unfold find_at at 1. fold find_at. rewrite (strip_prefix_head x sub _ c Hc).
    rewrite IH. f_equal. simpl List.length. lia.
Qed.

Lemma find_at_here (sub rest : str) (i : Z) :
  find_at sub (sub ++ rest) i = i.
Proof.
  destruct sub as [| x sub]; [destruct rest; reflexivity |].
  simpl. rewrite N.eqb_refl, strip_prefix_complete. reflexivity.
Qed.

Lemma find_at_absent (x : char) (sub s : str) (i : Z) :
  without x s -> find_at (x :: sub) s i = -1.
Proof.
  intros Hs. revert i. induction Hs as [| c s Hc _ IH]; intros i; [reflexivity |].
  unfold find_at. fold find_at. rewrite (strip_prefix_head x sub _ c Hc). apply IH.
Qed.

Lemma contains_absent (x : char) (sub s : str) :
  without x s -> contains (x :: sub) s = false.
Proof.
  induction 1 as [| c s Hc _ IH]; [reflexivity |].
  unfold contains. fold contains. rewrite (strip_prefix_head x sub _ c Hc). exact IH.
Qed.

(** The last occurrence of a character that the tail does not have. *)
Lemma rfind_at_last (x : char) (s tail : str) (i : Z) :
  0 <= i ->
  without x tail ->
  rfind_at [x] (s ++ x :: tail) i = i + Z.of_nat (List.length s).
Proof.
  intros Hi Htail. revert i Hi. induction s as [| c s IH]; intros i Hi.
  - simpl app. simpl List.length.
    assert (Hnone : forall j, rfind_at [x] tail j = -1).
    { clear i Hi. induction Htail as [| c t Hc _ IHt]; intros j; [reflexivity |].
      simpl. rewrite IHt. simpl.
      destruct (N.eqb_spec x c) as [-> |]; [congruence | reflexivity]. }
    simpl. rewrite Hnone. simpl. rewrite N.eqb_refl. lia.
  - change ((c :: s) ++ x :: tail) with (c :: (s ++ x :: tail)).
    unfold rfind_at. fold rfind_at. rewrite IH by lia.
    destruct (Z.leb_spec 0 (i + 1 + Z.of_nat (List.length s))); [| lia].
    simpl List.length. lia.
Qed.

Lemma skipn_length_app (a b : str) : skipn (List.length a) (a ++ b) = b.
Proof. induction a as [| x a IH]; [reflexivity | exact IH]. Qed.

Lemma firstn_length_app (a b : str) : firstn (List.length a) (a ++ b) = a.
Proof. induction a as [| x a IH]; [reflexivity | simpl; f_equal; exact IH]. Qed.

(** The slice between two positions of a string cut in three. *)
Lemma slice_middle (a m c : str) :
  slice (a ++ m ++ c) (Z.of_nat (List.length a))
    (Z.of_nat (List.length a) + Z.of_nat (List.length m)) = m.
Proof.
  unfold slice, slice_bound. rewrite !length_app.
  destruct (Z.ltb_spec (Z.of_nat (List.length a)) 0); [lia |].
  destruct (Z.ltb_spec (Z.of_nat (List.length a) + Z.of_nat (List.length m)) 0); [lia |].
  rewrite !Z.min_l by lia.
  rewrite Nat2Z.id, skipn_length_app.
  replace (Z.to_nat (Z.of_nat (List.length a) + Z.of_nat (List.length m)
                     - Z.of_nat (List.length a)))
    with (List.length m) by lia.
  apply firstn_length_app.
Qed.

(** The slice from a position to [-1] is the rest without its last
    character. *)
Lemma slice_to_minus_one (a m : str) :
  slice (a ++ m) (Z.of_nat (List.length a)) (-1) = removelast m.
Proof.
  unfold slice, slice_bound. rewrite length_app.
  destruct (Z.ltb_spec (Z.of_nat (List.length a)) 0); [lia |].
  change (-1 <? 0) with true. cbv iota.
  rewrite Z.min_l by lia.
  rewrite Nat2Z.id, skipn_length_app.
  destruct m as [| x m' _] using rev_ind.
  - simpl. destruct (Z.to_nat _); reflexivity.
  - rewrite removelast_last, length_app. simpl List.length.
    replace (Z.to_nat (Z.max 0 (Z.of_nat (List.length a + (List.length m' + 1)) + -1)
                       - Z.of_nat (List.length a)))
      with (List.length m') by lia.
    apply firstn_length_app.
Qed.

Lemma lstrip_suffix (p : char -> bool) (s : str) :
  exists l, s = l ++ lstrip p s.
Proof.
  induction s as [| c s [l IH]]; [exists []; reflexivity |].
  simpl. destruct (p c); [| exists []; reflexivity].
  exists (c :: l). simpl. f_equal. exact IH.
Qed.

(** Stripping keeps a part of the string. *)
Lemma strip_infix (U : Unicode) (s : str) :
  exists l r, s = l ++ strip U s ++ r.
Proof.
  unfold strip.
  destruct (lstrip_suffix (is_space U) s) as [l Hl].
  destruct (lstrip_suffix (is_space U) (rev (lstrip (is_space U) s))) as [r Hr].
  exists l, (rev r). rewrite <- rev_app_distr, <- Hr, rev_involutive. exact Hl.
Qed.

Lemma strip_without (U : Unicode) (x : char) (s : str) :
  without x s -> without x (strip U s).
Proof.
  intros H. destruct (strip_infix U s) as (l & r & E). rewrite E in H.
  apply Forall_app in H. destruct H as [_ H].
  apply Forall_app in H. destruct H as [H _]. exact H.
Qed.

Lemma removelast_without (x : char) (s : str) :
  without x s -> without x (removelast s).
Proof.
  destruct s as [| c s' _] using rev_ind; [trivial |].
  rewrite removelast_last. intros H. apply Forall_app in H. tauto.
Qed.

Lemma contains_app (sub pre rest : str) :
  contains sub (pre ++ sub ++ rest) = true.
Proof.
  induction pre as [| c pre IH].
  - simpl app. destruct (sub ++ rest) eqn:E; simpl;
      rewrite <- E, strip_prefix_complete; reflexivity.
  - change ((c :: pre) ++ sub ++ rest) with (c :: (pre ++ sub ++ rest)).
    unfold contains. fold contains.
    destruct (strip_prefix sub (c :: pre ++ sub ++ rest)); [reflexivity | exact IH].
Qed.

Lemma fence_head : fence = backtick :: [backtick; backtick].
Proof. reflexivity. Qed.

Lemma json_fence_head : json_fence = backtick :: tl json_fence.
Proof. reflexivity. Qed.

Lemma json_fence_length : Z.of_nat (List.length json_fence) = 7.
Proof. reflexivity. Qed.

Lemma fence_length : Z.of_nat (List.length fence) = 3.
Proof. reflexivity. Qed.

Section ParseResponseFacts.
Variable U : Unicode.
Variable loads : str -> result json.

(** A text without a backtick has no code block. *)
Lemma unfenced_without (s : str) : without backtick s -> unfenced U s = s.
Proof.
  intros H. unfold unfenced.
  rewrite json_fence_head, (contains_absent backtick _ s H).
  rewrite fence_head, (contains_absent backtick _ s H). reflexivity.
Qed.

(** The search for the closing fence from the end of the opening one. *)
Lemma find_from_after (sub pre opening rest : str) :
  find_from sub (pre ++ opening ++ rest)
    (Z.of_nat (List.length pre) + Z.of_nat (List.length opening))
  = find_at sub rest (Z.of_nat (List.length pre) + Z.of_nat (List.length opening)).
Proof.
  unfold find_from. rewrite app_assoc, length_app, length_app.
  destruct (Z.leb_spec (Z.of_nat (List.length pre) + Z.of_nat (List.length opening))
              (Z.of_nat (List.length pre + List.length opening + List.length rest)));
    [| lia].
  rewrite <- Nat2Z.inj_add, Nat2Z.id, <- length_app, skipn_length_app. reflexivity.
Qed.

(** A closed code block: the text between its fences, stripped. *)
Lemma unfenced_block (opening pre inner post : str) (t : str) :
  t = pre ++ opening ++ inner ++ fence ++ post ->
  without backtick pre -> without backtick inner ->
  opening = json_fence \/ (opening = fence /\ contains json_fence t = false) ->
  unfenced U t = strip U inner.
Proof.
  intros Et Hpre Hinner Hopen. unfold unfenced.
  assert (Hfind : forall tl_, opening = backtick :: tl_ ->
            find opening t = Z.of_nat (List.length pre)).
  { intros tl_ E. unfold find. rewrite Et, E, find_at_skip by exact Hpre.
    rewrite <- E, find_at_here. lia. }
  assert (Hstop : find_from fence t
                    (Z.of_nat (List.length pre) + Z.of_nat (List.length opening))
                  = Z.of_nat (List.length pre) + Z.of_nat (List.length opening)
                    + Z.of_nat (List.length inner)).
  { rewrite Et, find_from_after, fence_head, find_at_skip by exact Hinner.
    rewrite <- fence_head, find_at_here. reflexivity. }
  assert (Hslice : slice t (Z.of_nat (List.length pre) + Z.of_nat (List.length opening))
                     (Z.of_nat (List.length pre) + Z.of_nat (List.length opening)
                      + Z.of_nat (List.length inner)) = inner).
  { rewrite Et, app_assoc, <- Nat2Z.inj_add, <- length_app. apply slice_middle. }
  destruct Hopen as [E | [E Hno]]; subst opening.
  - assert (Hc : contains json_fence t = true)
      by (rewrite Et; apply contains_app).
    rewrite Hc. cbv zeta.
    rewrite (Hfind _ json_fence_head), <- json_fence_length.
    rewrite Hstop, Hslice. reflexivity.
  - rewrite Hno.
    assert (Hc : contains fence t = true)
      by (rewrite Et; apply contains_app).
    rewrite Hc. cbv zeta.
    rewrite (Hfind _ fence_head), <- fence_length.
    rewrite Hstop, Hslice. reflexivity.
Qed.

(** A code block that is not closed: the text after the opening fence
    without its last character, stripped. *)
Lemma unfenced_open_block (pre inner : str) (t : str) :
  t = pre ++ json_fence ++ inner ->
  without backtick pre -> without backtick inner ->
  unfenced U t = strip U (removelast inner).
Proof.
  intros Et Hpre Hinner. unfold unfenced.
  assert (Hc : contains json_fence t = true).
  { rewrite Et, <- (app_nil_r inner), app_assoc. rewrite <- app_assoc.
    apply contains_app. }
  rewrite Hc. cbv zeta.
  assert (Hfind : find json_fence t = Z.of_nat (List.length pre)).
  { unfold find. rewrite Et, json_fence_head, find_at_skip by exact Hpre.
    rewrite <- json_fence_head, find_at_here. lia. }
  rewrite Hfind, <- json_fence_length.
  assert (Hstop : find_from fence t
                    (Z.of_nat (List.length pre) + Z.of_nat (List.length json_fence))
                  = -1).
  { rewrite Et, find_from_after, fence_head. apply find_at_absent. exact Hinner. }
  rewrite Hstop, Et, app_assoc, <- Nat2Z.inj_add, <- length_app, slice_to_minus_one.
  reflexivity.
Qed.

(** The text from the first opening bracket to the last closing one. *)
Lemma bracketed_array (a b c : str) :
  without open_bracket a -> without close_bracket c ->
  bracketed (a ++ [open_bracket] ++ b ++ [close_bracket] ++ c)
    = [open_bracket] ++ b ++ [close_bracket].
Proof.
  intros Ha Hc. unfold bracketed.
  change (str_of "[") with [open_bracket]. change (str_of "]") with [close_bracket].
  rewrite contains_app. cbv zeta.
  unfold find. rewrite find_at_skip by exact Ha. rewrite find_at_here.
  assert (Hr : rfind [close_bracket] (a ++ [open_bracket] ++ b ++ [close_bracket] ++ c)
               = Z.of_nat (List.length (a ++ [open_bracket] ++ b))).
  { unfold rfind.
    replace (a ++ [open_bracket] ++ b ++ [close_bracket] ++ c)
      with ((a ++ [open_bracket] ++ b) ++ close_bracket :: c)
      by (rewrite <- !app_assoc; reflexivity).
    rewrite rfind_at_last by (try lia; exact Hc). lia. }
  rewrite Hr.
  replace (a ++ [open_bracket] ++ b ++ [close_bracket] ++ c)
    with (a ++ ([open_bracket] ++ b ++ [close_bracket]) ++ c)
    by (rewrite <- !app_assoc; reflexivity).
  replace (Z.of_nat (List.length (a ++ [open_bracket] ++ b)) + 1)
    with (Z.of_nat (List.length a)
          + Z.of_nat (List.length ([open_bracket] ++ b ++ [close_bracket])))
    by (rewrite !length_app; simpl List.length; lia).
  replace (0 + Z.of_nat (List.length a)) with (Z.of_nat (List.length a)) by lia.
  apply slice_middle.
Qed.

End ParseResponseFacts.

Lemma part_of_refl (s : str) : part_of s s.
Proof. exists [], []. rewrite app_nil_r. reflexivity. Qed.

Lemma part_of_trans (a b c : str) : part_of a b -> part_of b c -> part_of a c.
Proof.
  intros (l1 & r1 & E1) (l2 & r2 & E2). exists (l2 ++ l1), (r1 ++ r2).
  rewrite E2, E1, <- !app_assoc. reflexivity.
Qed.

Lemma slice_part_of (s : str) (start stop : Z) : part_of (slice s start stop) s.
Proof.
  unfold slice.
  set (a := Z.to_nat _). set (n := Z.to_nat _).
  exists (firstn n s), (skipn a (skipn n s)).
  rewrite (firstn_skipn a (skipn n s)). symmetry. apply firstn_skipn.
Qed.

Lemma strip_part_of (U : Unicode) (s : str) : part_of (strip U s) s.
Proof. exact (strip_infix U s). Qed.

Lemma unfenced_part_of (U : Unicode) (s : str) : part_of (unfenced U s) s.
Proof.
  unfold unfenced.
  destruct (contains json_fence s); [| destruct (contains fence s)]; cbv zeta;
    try apply part_of_refl;
    (eapply part_of_trans; [apply strip_part_of | apply slice_part_of]).
Qed.

Lemma bracketed_part_of (s : str) : part_of (bracketed s) s.
Proof.
  unfold bracketed. destruct (contains (str_of "[") s); cbv zeta;
    [apply slice_part_of | apply part_of_refl].
Qed.

(** X14.  A response whose first fence opens a closed code block is parsed
    as the content of the block alone: with an opening fence
    ["```json"], or with a plain ["```"] when the response has no
    ["```json"] anywhere, a first closing ["```"], and no backtick before
    the block or inside it, [_parse_json_response] gives what it gives
    for the text between the fences; the text before and after the block
    is not looked at. *)
Theorem fenced_block_is_parsed :
  forall (U : Unicode) (loads : str -> result json)
         (text opening pre inner post : str),
    strip U text = pre ++ opening ++ inner ++ fence ++ post ->
    without backtick pre ->
    without backtick inner ->
    opening = json_fence \/
    (opening = fence /\ contains json_fence (strip U text) = false) ->
    _parse_json_response U loads text = _parse_json_response U loads inner.
Proof.
  intros U loads text opening pre inner post Et Hpre Hinner Hopen.
  unfold _parse_json_response.
  rewrite (unfenced_block U opening pre inner post _ Et Hpre Hinner Hopen).
  rewrite (unfenced_without U (strip U inner)) by (apply strip_without; exact Hinner).
  reflexivity.
Qed.

Lemma fenced_block_is_parsed_witness :
  let block := [newline] ++ str_of "[1, 2]" ++ [newline] in
  let text := str_of "Sure! " ++ json_fence ++ block ++ fence ++ str_of " [3]" in
  let plain := str_of "  " ++ fence ++ block ++ fence ++ [newline] in
  _parse_json_response ascii_unicode loads_example text
    = _parse_json_response ascii_unicode loads_example block /\
  _parse_json_response ascii_unicode loads_example plain
    = _parse_json_response ascii_unicode loads_example block /\
  _parse_json_response ascii_unicode loads_example block = Ok [JInt 1; JInt 2].
Proof.
  intros block text plain. split; [| split].
  - apply (fenced_block_is_parsed ascii_unicode loads_example text json_fence
             (str_of "Sure! ") block (str_of " [3]")).
    + vm_compute. reflexivity.
    + unfold without. repeat constructor; vm_compute; discriminate.
    + unfold without. repeat constructor; vm_compute; discriminate.
    + left. reflexivity.
  - apply (fenced_block_is_parsed ascii_unicode loads_example plain fence
             [] block []).
    + vm_compute. reflexivity.
    + constructor.
    + unfold without. repeat constructor; vm_compute; discriminate.
    + right. split; [reflexivity | vm_compute; reflexivity].
  - vm_compute. reflexivity.
Defined.

(** X15.  Without a code block, a response that holds an array inside
    prose is parsed as the text from its first ["["] to its last ["]"]:
    when the stripped response has no backtick, [_parse_json_response]
    decodes exactly that part, the brackets included, and returns the
    decoded list, or the empty list when the part is no JSON or decodes
    to something other than a list. *)
Theorem array_in_prose_is_parsed :
  forall (U : Unicode) (loads : str -> result json) (text a b c : str),
    strip U text = a ++ [open_bracket] ++ b ++ [close_bracket] ++ c ->
    without backtick (strip U text) ->
    without open_bracket a ->
    without close_bracket c ->
    _parse_json_response U loads text
      = loaded_list loads ([open_bracket] ++ b ++ [close_bracket]).
Proof.
  intros U loads text a b c Et Hbt Ha Hc. unfold _parse_json_response.
  rewrite (unfenced_without U _ Hbt), Et, (bracketed_array a b c Ha Hc).
  reflexivity.
Qed.

Lemma array_in_prose_is_parsed_witness :
  let text := str_of "  Here you go: [1, 2] hope it helps " in
  _parse_json_response ascii_unicode loads_example text
    = loaded_list loads_example ([open_bracket] ++ str_of "1, 2" ++ [close_bracket]) /\
  loaded_list loads_example ([open_bracket] ++ str_of "1, 2" ++ [close_bracket])
    = Ok [JInt 1; JInt 2].
Proof.
  intros text. split.
  - apply (array_in_prose_is_parsed ascii_unicode loads_example text
             (str_of "Here you go: ") (str_of "1, 2") (str_of " hope it helps")).
    + vm_compute. reflexivity.
    + unfold without. vm_compute. repeat constructor; discriminate.
    + unfold without. repeat constructor; vm_compute; discriminate.
    + unfold without. repeat constructor; vm_compute; discriminate.
  - vm_compute. reflexivity.
Defined.

(** X16.  A code block that is never closed loses its last character:
    when the response opens a block with ["```json"] and has no further
    backtick, the search for the closing fence gives [-1], which the
    slice takes as "up to the last character", so
    [_parse_json_response] gives what it gives for the text after the
    fence without its last character.  A complete array at the end of
    such a response is therefore not returned. *)
Theorem unclosed_block_loses_last_character :
  forall (U : Unicode) (loads : str -> result json) (text pre inner : str),
    strip U text = pre ++ json_fence ++ inner ->
    without backtick pre ->
    without backtick inner ->
    _parse_json_response U loads text
      = _parse_json_response U loads (removelast inner).
Proof.
  intros U loads text pre inner Et Hpre Hinner. unfold _parse_json_response.
  rewrite (unfenced_open_block U pre inner _ Et Hpre Hinner).
  rewrite (unfenced_without U (strip U (removelast inner)))
    by (apply strip_without, removelast_without; exact Hinner).
  reflexivity.
Qed.

Lemma unclosed_block_loses_last_character_witness :
  let inner := [newline] ++ str_of "[1, 2]" in
  let text := json_fence ++ inner ++ [newline] in
  _parse_json_response ascii_unicode loads_example text
    = _parse_json_response ascii_unicode loads_example (removelast inner) /\
  _parse_json_response ascii_unicode loads_example text = Ok [] /\
  _parse_json_response ascii_unicode loads_example inner = Ok [JInt 1; JInt 2].
Proof.
  intros inner text. split; [| split].
  - apply (unclosed_block_loses_last_character ascii_unicode loads_example text
             [] inner).
    + vm_compute. reflexivity.
    + constructor.
    + unfold without. repeat constructor; vm_compute; discriminate.
  - vm_compute. reflexivity.
  - vm_compute. reflexivity.
Defined.

(** X17.  Whatever [_parse_json_response] returns was decoded from the
    response: a non-empty result is the list that [json.loads] gave for
    one contiguous part of the text; the parser decodes once and builds
    no item of its own. *)
Theorem parsed_items_come_from_the_response :
  forall (U : Unicode) (loads : str -> result json) (text : str)
         (item : json) (rest : list json),
    _parse_json_response U loads text = Ok (item :: rest) ->
    exists s, part_of s text /\ loads s = Ok (JArr (item :: rest)).
Proof.
  intros U loads text item rest H. unfold _parse_json_response, loaded_list in H.
  set (s := bracketed (unfenced U (strip U text))) in *.
  exists s. split.
  - eapply part_of_trans; [apply bracketed_part_of |].
    eapply part_of_trans; [apply unfenced_part_of | apply strip_part_of].
  - destruct (loads s) as [[| | | | | data |] | e]; try discriminate.
    + injection H as ->. reflexivity.
    + destruct e; discriminate.
Qed.

Lemma parsed_items_come_from_the_response_witness :
  exists s,
    part_of s (str_of "  Here you go: [1, 2] hope it helps ") /\
    loads_example s = Ok (JArr [JInt 1; JInt 2]).
Proof.
  apply (parsed_items_come_from_the_response ascii_unicode loads_example
           (str_of "  Here you go: [1, 2] hope it helps ") (JInt 1) [JInt 2]).
  vm_compute. reflexivity.
Defined.
